(** * usdafoods2csv: nutrient-priority resolution and portion selection

    A shallow embedding of [usdafoods2csv.py] and the proofs of the
    properties its specification states about it.

    Conventions of the embedding.

    - The parsed JSON document is a value of type [json]; a Python [dict]
      is an association list read through [assoc] (first binding wins).
    - Python numbers ([int], [float], and [bool], which Python treats as
      the integers 0 and 1) are read as exact rationals ([Q]).  Floating
      point rounding error is not modelled; [round(x, 1)] is rounding to
      the nearest tenth, ties to the even tenth, which is what Python
      computes on the exact value of a double.
    - A number of the embedding is a finite number.  The values [NaN] and
      [Infinity], which [json.load] accepts, have no counterpart, and the
      arithmetic of the embedding never overflows, whereas Python turns a
      double that leaves its range into [inf] and refuses, with
      [OverflowError], to combine a double with an [int] beyond that
      range.  The embedding therefore describes the program on documents
      whose numbers are finite and small enough for every intermediate
      result to stay in the range of a double.  The statements about a
      run that returns relate its result to its input and are to be read
      with that in mind; the statements that the program returns, that
      it raises no exception but certain ones, or that two runs give
      the same result assume it in so many words, with [in_range], which
      bounds every number of the input by [range_bound].
    - A Python exception is a value [Raise e] of the [result] type; a
      [try ... except KeyError] is [except_KeyError]. *)

From Stdlib Require Import QArith Qround Qabs Lqa.
From Stdlib Require Import Sorting.Sorted Sorting.Permutation Structures.OrdersEx.
From stdpp Require Import base decidable option list strings.

Open Scope string_scope.
Open Scope list_scope.
Open Scope nat_scope.

(** ** Exceptions and results

    The exceptions the program can raise on a document whose numbers are
    in range (or handles: [ValueError], [StopIteration]), and the
    [IndexError] of a pop from an empty heap.  Python's [OverflowError]
    belongs to numbers beyond that range. *)

Inductive exn : Type :=
| KeyError
| TypeError
| ValueError
| StopIteration
| IndexError.

Inductive result (A : Type) : Type :=
| Ok (a : A)
| Raise (e : exn).

Arguments Ok {A} a.
Arguments Raise {A} e.

Definition bind {A B : Type} (r : result A) (k : A → result B) : result B :=
  match r with
  | Ok a => k a
  | Raise e => Raise e
  end.

Notation "'let*' x := r 'in' k" := (bind r (fun x => k))
  (at level 10, x pattern, r at level 100, k at level 200).

(** [for x in l: body] where the body may raise: the first exception
    stops the loop. *)
Fixpoint for_each {A S : Type} (body : S → A → result S) (l : list A) (s : S)
  : result S :=
  match l with
  | [] => Ok s
  | x :: l' => let* s' := body s x in for_each body l' s'
  end.

(** [[f(x) for x in l]]: a list comprehension whose element expression
    may raise. *)
Fixpoint map_result {A B : Type} (f : A → result B) (l : list A)
  : result (list B) :=
  match l with
  | [] => Ok []
  | x :: l' => let* y := f x in let* ys := map_result f l' in Ok (y :: ys)
  end.

Definition is_Ok {A : Type} (r : result A) : Prop := ∃ a, r = Ok a.

(** ** JSON values as Python sees them

    [JNum q] is a finite number, an [int] or a [float], of value [q]. *)

#[warnings="-register-all"]
Inductive json : Type :=
| JNull
| JBool (b : bool)
| JNum (q : Q)
| JStr (s : string)
| JArr (l : list json)
| JObj (d : list (string * json)).

Fixpoint assoc {V : Type} (k : string) (d : list (string * V)) : option V :=
  match d with
  | [] => None
  | (k', v) :: d' => if String.eqb k k' then Some v else assoc k d'
  end.

(** The numeric reading of a value: [int] and [float] as they are, [True]
    and [False] as 1 and 0; nothing else is a number. *)
Definition as_number (v : json) : option Q :=
  match v with
  | JNum q => Some q
  | JBool true => Some 1%Q
  | JBool false => Some 0%Q
  | _ => None
  end.

(** [v[k]] for a string key [k]: only a [dict] can be subscripted by a
    string; a missing key is a [KeyError], every other receiver a
    [TypeError]. *)
Definition subscript (v : json) (k : string) : result json :=
  match v with
  | JObj d => match assoc k d with
              | Some x => Ok x
              | None => Raise KeyError
              end
  | _ => Raise TypeError
  end.

Fixpoint chars (s : string) : list json :=
  match s with
  | EmptyString => []
  | String c s' => JStr (String c EmptyString) :: chars s'
  end.

(** [iter(v)]: a list yields its elements, a dict its keys, a string its
    characters; the other JSON values are not iterable. *)
Definition py_iter (v : json) : result (list json) :=
  match v with
  | JArr l => Ok l
  | JObj d => Ok (map (fun kv => JStr (fst kv)) d)
  | JStr s => Ok (chars s)
  | _ => Raise TypeError
  end.

(** [a == b] on JSON values; it never raises. *)
Fixpoint py_eq (a b : json) {struct a} : bool :=
  match a, b with
  | JNull, JNull => true
  | JStr s, JStr t => String.eqb s t
  | JArr l, JArr m =>
      (fix go (l m : list json) {struct l} : bool :=
         match l, m with
         | [], [] => true
         | x :: l', y :: m' => py_eq x y && go l' m'
         | _, _ => false
         end) l m
  | JObj d, JObj e =>
      Nat.eqb (length d) (length e)
      && (fix go (d : list (string * json)) {struct d} : bool :=
            match d with
            | [] => true
            | (k, v) :: d' =>
                match assoc k e with
                | Some w => py_eq v w
                | None => false
                end && go d'
            end) d
  | _, _ =>
      match as_number a, as_number b with
      | Some x, Some y => Qeq_bool x y
      | _, _ => false
      end
  end.

Definition Qlt_bool (x y : Q) : bool := negb (Qle_bool y x).

(** [a < b] on JSON values: numbers by value, strings and lists
    lexicographically; every other pairing is a [TypeError]. *)
Fixpoint py_lt (a b : json) {struct a} : result bool :=
  match a, b with
  | JStr s, JStr t => Ok (String.ltb s t)
  | JArr l, JArr m =>
      (fix go (l m : list json) {struct l} : result bool :=
         match l, m with
         | [], [] => Ok false
         | [], _ :: _ => Ok true
         | _ :: _, [] => Ok false
         | x :: l', y :: m' => if py_eq x y then go l' m' else py_lt x y
         end) l m
  | _, _ =>
      match as_number a, as_number b with
      | Some x, Some y => Ok (Qlt_bool x y)
      | _, _ => Raise TypeError
      end
  end.

(** [a > b] is the reflected [b < a] for the built-in types. *)
Definition py_gt (a b : json) : result bool := py_lt b a.

(** ** Rounding *)

(** Round to the nearest integer, ties to even. *)
Definition round_half_even (x : Q) : Z :=
  let f := Qfloor x in
  let r := (x - inject_Z f)%Q in
  match (r ?= 1 # 2)%Q with
  | Lt => f
  | Gt => (f + 1)%Z
  | Eq => if Z.even f then f else (f + 1)%Z
  end.

(** [round(x, 1)]. *)
Definition round1 (x : Q) : Q := Qred (round_half_even (x * 10) # 10).

(** ** The [heapq] module

    [heappush] and [heappop] as [Lib/heapq.py] has them, on a list used as
    an array.  The comparison [lt] of two items may raise. *)

Section heapq.
Context {A : Type} (lt : A → A → result bool).

Definition getitem (heap : list A) (i : nat) : result A :=
  match heap !! i with
  | Some x => Ok x
  | None => Raise IndexError
  end.

(** The loop of [_siftdown].  [pos] strictly decreases
    ([parentpos = (pos - 1) >> 1]), so the loop body runs at most [pos]
    times; [n] bounds the remaining iterations and is [pos] at the
    call.  With [n = 0] the position is the root and the loop condition
    [pos > startpos] is false. *)
Fixpoint siftdown_loop (n : nat) (heap : list A) (startpos pos : nat)
    (newitem : A) : result (list A) :=
  match n with
  | O => Ok (<[pos := newitem]> heap)
  | S n' =>
      if decide (startpos < pos) then
        let parentpos := (pos - 1) / 2 in
        let* parent := getitem heap parentpos in
        let* b := lt newitem parent in
        if b then siftdown_loop n' (<[pos := parent]> heap) startpos parentpos newitem
        else Ok (<[pos := newitem]> heap)
      else Ok (<[pos := newitem]> heap)
  end.

Definition siftdown (heap : list A) (startpos pos : nat) : result (list A) :=
  let* newitem := getitem heap pos in
  siftdown_loop pos heap startpos pos newitem.

Definition heappush (heap : list A) (item : A) : result (list A) :=
  let heap := heap ++ [item] in
  siftdown heap 0 (length heap - 1).

(** The loop of [_siftup]: the smaller child is moved up until a leaf
    is reached.  [pos] strictly increases and stays below [endpos]; [n]
    bounds the remaining iterations and is [endpos] at the call.  The
    result is the heap and the final [pos]. *)
Fixpoint siftup_loop (n : nat) (heap : list A) (endpos pos : nat)
    : result (list A * nat) :=
  let childpos := 2 * pos + 1 in
  match n with
  | O => Ok (heap, pos)
  | S n' =>
      if decide (childpos < endpos) then
        let rightpos := childpos + 1 in
        let* childpos :=
          (if decide (rightpos < endpos) then
             let* c := getitem heap childpos in
             let* r := getitem heap rightpos in
             let* b := lt c r in
             Ok (if b then childpos else rightpos)
           else Ok childpos) in
        let* child := getitem heap childpos in
        siftup_loop n' (<[pos := child]> heap) endpos childpos
      else Ok (heap, pos)
  end.

Definition siftup (heap : list A) (pos : nat) : result (list A) :=
  let endpos := length heap in
  let startpos := pos in
  let* newitem := getitem heap pos in
  let* (heap, pos) := siftup_loop endpos heap endpos pos in
  let heap := <[pos := newitem]> heap in
  siftdown heap startpos pos.

(** [heappop] returns the popped item and the heap that remains. *)
Definition heappop (heap : list A) : result (A * list A) :=
  match last heap with
  | None => Raise IndexError
  | Some lastelt =>
      let heap := removelast heap in
      match heap with
      | [] => Ok (lastelt, heap)
      | returnitem :: _ =>
          let heap := <[0 := lastelt]> heap in
          let* heap := siftup heap 0 in
          Ok (returnitem, heap)
      end
  end.
End heapq.

(** ** The program *)

Inductive NutrientCategory : Type :=
| CALORIES
| FAT
| CARBS
| FIBER
| SUGARS
| PROTEIN.

#[global] Instance NutrientCategory_eq_dec : EqDecision NutrientCategory.
Proof. solve_decision. Defined.

Record NutrientMetadata : Type := mkNutrientMetadata {
  description : string;
  category : NutrientCategory;
  priority : nat;
}.

(** *** VolumeWeight *)

Record VolumeWeight : Type := mkVolumeWeight {
  volume : Q;
  weight : Q;
  quantity : Q;
  descriptor : json;
}.

Definition _PORTION_UNIT_ML_MAP : list (Q * Q) :=
  [ (1000, 2365875 # 10000)      (* cup *)
  ; (1001, 1478672 # 100000)     (* tbsp *)
  ; (1002, 4928906 # 1000000)    (* tsp *)
  ; (1004, 1) ]%Q.               (* mL *)

Fixpoint unit_ml_get (unit_id : Q) (m : list (Q * Q)) : option Q :=
  match m with
  | [] => None
  | (k, ml) :: m' => if Qeq_bool unit_id k then Some ml else unit_ml_get unit_id m'
  end.

(** [unit_id in cls._PORTION_UNIT_ML_MAP], with the value found: a number
    is looked up by value ([1000.0] finds the key [1000]), a list or a
    dict is unhashable, anything else is hashable and absent. *)
Definition unit_ml_lookup (unit_id : json) : result (option Q) :=
  match unit_id with
  | JArr _ | JObj _ => Raise TypeError
  | _ => match as_number unit_id with
         | Some q => Ok (unit_ml_get q _PORTION_UNIT_ML_MAP)
         | None => Ok None
         end
  end.

Definition is_None (v : json) : bool :=
  match v with
  | JNull => true
  | _ => false
  end.

(** [v > 0.0]. *)
Definition gt_zero (v : json) : result bool := py_gt v (JNum 0).

(** [try: body except KeyError: return None] of [from_food_portion] and
    the [continue] of [from_food_nutrients]: only [KeyError] is caught. *)
Definition except_KeyError {A : Type} (body : result A) (handler : result A)
  : result A :=
  match body with
  | Raise KeyError => handler
  | _ => body
  end.

Definition from_food_portion (food_portion : json) : result (option VolumeWeight) :=
  except_KeyError
    (let* measureUnit := subscript food_portion "measureUnit" in
     let* unit_id := subscript measureUnit "id" in
     let* quantity := subscript food_portion "amount" in
     let* measureUnit := subscript food_portion "measureUnit" in
     let* descriptor := subscript measureUnit "abbreviation" in
     let* weight := subscript food_portion "gramWeight" in
     let* unit_ml := unit_ml_lookup unit_id in
     match unit_ml with
     | None => Ok None
     | Some ml =>
         if is_None quantity then Ok None else
         let* quantity_pos := gt_zero quantity in
         if negb quantity_pos then Ok None else
         if is_None weight then Ok None else
         let* weight_pos := gt_zero weight in
         if negb weight_pos then Ok None else
         match as_number quantity, as_number weight with
         | Some q, Some w =>
             Ok (Some {| volume := ml * q; weight := w; quantity := q;
                         descriptor := descriptor |})
         | _, _ => Raise TypeError
         end
     end)
    (Ok None).

(** The ordering [dataclass(order=True)] generates: the field tuples
    [(volume, weight, quantity, descriptor)] are compared, the first pair
    of unequal fields deciding. *)
Definition VolumeWeight_gt (a b : VolumeWeight) : result bool :=
  if negb (Qeq_bool (volume a) (volume b)) then Ok (Qlt_bool (volume b) (volume a))
  else if negb (Qeq_bool (weight a) (weight b)) then Ok (Qlt_bool (weight b) (weight a))
  else if negb (Qeq_bool (quantity a) (quantity b)) then Ok (Qlt_bool (quantity b) (quantity a))
  else if negb (py_eq (descriptor a) (descriptor b)) then py_gt (descriptor a) (descriptor b)
  else Ok false.

(** The built-in [max] of a sequence: [ValueError] when it is empty,
    otherwise the first of the greatest items. *)
Fixpoint max_loop {A : Type} (gt : A → A → result bool) (l : list A) (maxitem : A)
  : result A :=
  match l with
  | [] => Ok maxitem
  | item :: l' =>
      let* b := gt item maxitem in
      max_loop gt l' (if b then item else maxitem)
  end.

Definition py_max {A : Type} (gt : A → A → result bool) (l : list A) : result A :=
  match l with
  | [] => Raise ValueError
  | x :: l' => max_loop gt l' x
  end.

(** *** Macros *)

Record Macros : Type := mkMacros {
  calories : Q;
  fat : Q;
  carbs : Q;
  fiber : Q;
  sugars : Q;
  protein : Q;
}.

Definition _NUTRIENT_NUM_METADATA_MAP : list (string * NutrientMetadata) :=
  [ ("203", mkNutrientMetadata "protein" PROTEIN 1)
  ; ("204", mkNutrientMetadata "total_lipids" FAT 1)
  ; ("298", mkNutrientMetadata "nlea_fat" FAT 2)
  ; ("205", mkNutrientMetadata "carbs_by_difference" CARBS 1)
  ; ("205.2", mkNutrientMetadata "carbs_by_summation" CARBS 2)
  ; ("291", mkNutrientMetadata "fiber_aoac_991_43" FIBER 2)
  ; ("293", mkNutrientMetadata "fiber_aoac_2011_25" FIBER 1)
  ; ("269.3", mkNutrientMetadata "total_sugars" SUGARS 1)
  ; ("269", mkNutrientMetadata "nlea_sugars" SUGARS 2)
  ; ("208", mkNutrientMetadata "cals_kcal" CALORIES 1)
  ; ("268", mkNutrientMetadata "cals_from_kJ" CALORIES 2)
  ; ("957", mkNutrientMetadata "cals_atwater_general" CALORIES 3)
  ; ("958", mkNutrientMetadata "cals_atwater_specific" CALORIES 4) ].

(** [nutrient_num in cls._NUTRIENT_NUM_METADATA_MAP], with the value
    found.  The keys are strings: a number is hashable but equal to no
    key, a list or a dict is unhashable. *)
Definition metadata_lookup (nutrient_num : json) : result (option NutrientMetadata) :=
  match nutrient_num with
  | JStr s => Ok (assoc s _NUTRIENT_NUM_METADATA_MAP)
  | JArr _ | JObj _ => Raise TypeError
  | _ => Ok None
  end.

(** An item of a macro heap: the tuple [(priority, amount)]. *)
Definition item : Type := nat * json.

(** [<] on these tuples: the priorities decide unless they are equal, and
    then the amounts, which need not be comparable. *)
Definition item_lt (x y : item) : result bool :=
  if negb (Nat.eqb (fst x) (fst y)) then Ok (Nat.ltb (fst x) (fst y))
  else if negb (py_eq (snd x) (snd y)) then py_lt (snd x) (snd y)
  else Ok false.

(** [macro_heaps]: a [defaultdict(list)] keyed by category. *)
Definition heaps : Type := NutrientCategory → list item.

Definition heaps_empty : heaps := fun _ => [].

Definition heaps_set (h : heaps) (c : NutrientCategory) (l : list item) : heaps :=
  fun c' => if decide (c' = c) then l else h c'.

Definition heaps_push (h : heaps) (c : NutrientCategory) (x : item) : result heaps :=
  let* l := heappush item_lt (h c) x in
  Ok (heaps_set h c l).

Definition all_categories : list NutrientCategory :=
  [CALORIES; FAT; CARBS; FIBER; SUGARS; PROTEIN].

(** [amount *= 0.239]. *)
Definition times_0_239 (amount : json) : result json :=
  match as_number amount with
  | Some a => Ok (JNum (a * (239 # 1000)))
  | None => Raise TypeError
  end.

(** The [try] block of the measurement loop: the identifier and the
    amount of one measurement. *)
Definition read_food_nutrient (food_nutrient : json) : result (json * json) :=
  let* nutrient := subscript food_nutrient "nutrient" in
  let* nutrient_num := subscript nutrient "number" in
  let* amount := subscript food_nutrient "amount" in
  if py_eq nutrient_num (JNum 268) then
    let* amount := times_0_239 amount in
    Ok (nutrient_num, amount)
  else Ok (nutrient_num, amount).

(** One iteration of the measurement loop.  A [KeyError] in the [try]
    block skips the measurement. *)
Definition push_food_nutrient (macro_heaps : heaps) (food_nutrient : json)
  : result heaps :=
  let* r := except_KeyError (let* na := read_food_nutrient food_nutrient in Ok (Some na))
                            (Ok None) in
  match r with
  | None => Ok macro_heaps
  | Some (nutrient_num, amount) =>
      let* md := metadata_lookup nutrient_num in
      match md with
      | None => Ok macro_heaps
      | Some metadata =>
          heaps_push macro_heaps (category metadata) (priority metadata, amount)
      end
  end.

(** The heaps after the seeding loop and the measurement loop. *)
Definition fill_heaps (food_nutrients : json) : result heaps :=
  let* macro_heaps :=
    for_each (fun h c => heaps_push h c (10, JNum 0)) all_categories heaps_empty in
  let* l := py_iter food_nutrients in
  for_each push_food_nutrient l macro_heaps.

(** [heappop(macro_heaps[c])[1]]. *)
Definition pop_amount (macro_heaps : heaps) (c : NutrientCategory) : result json :=
  let* (x, _) := heappop item_lt (macro_heaps c) in
  Ok (snd x).

(** The six values popped, in the order of the code. *)
Record Selected : Type := mkSelected {
  sel_calories : json;
  sel_fat : json;
  sel_carbs : json;
  sel_fiber : json;
  sel_sugars : json;
  sel_protein : json;
}.

Definition select (macro_heaps : heaps) : result Selected :=
  let* calories := pop_amount macro_heaps CALORIES in
  let* fat := pop_amount macro_heaps FAT in
  let* carbs := pop_amount macro_heaps CARBS in
  let* fiber := pop_amount macro_heaps FIBER in
  let* sugars := pop_amount macro_heaps SUGARS in
  let* protein := pop_amount macro_heaps PROTEIN in
  Ok (mkSelected calories fat carbs fiber sugars protein).

(** A selected amount in arithmetic or under [round]: a value that is not
    a number ends in a [TypeError], in [round] at the latest. *)
Definition number (v : json) : result Q :=
  match as_number v with
  | Some q => Ok q
  | None => Raise TypeError
  end.

(** The end of [from_food_nutrients]: the fallback for calories and the
    rounding. *)
Definition finish (s : Selected) : result Macros :=
  let* fat := number (sel_fat s) in
  let* carbs := number (sel_carbs s) in
  let* fiber := number (sel_fiber s) in
  let* sugars := number (sel_sugars s) in
  let* protein := number (sel_protein s) in
  let* calories :=
    (if py_eq (sel_calories s) (JNum 0) then Ok (protein * 4 + carbs * 4 + fat * 9)%Q
     else number (sel_calories s)) in
  Ok {| calories := round1 calories;
        fat := round1 fat;
        carbs := round1 carbs;
        fiber := round1 fiber;
        sugars := round1 sugars;
        protein := round1 protein |}.

(** The six values selected for a measurement list: [from_food_nutrients]
    up to its last [heappop]. *)
Definition selection (food_nutrients : json) : result Selected :=
  let* macro_heaps := fill_heaps food_nutrients in
  select macro_heaps.

Definition from_food_nutrients (food_nutrients : json) : result Macros :=
  let* s := selection food_nutrients in
  finish s.

Definition as_list (m : Macros) : list Q :=
  [calories m; fat m; carbs m; fiber m; sugars m; protein m].

(** *** Food *)

Record Food : Type := mkFood {
  source : string;
  fdc_id : json;
  name : json;
  food_weight : Q;
  food_volume : option Q;
  macros : Macros;
}.

(** The first two statements of the [try] block of [Food.__init__]: the
    candidates and their maximum. *)
Definition select_portion (food_data : json) : result VolumeWeight :=
  let* foodPortions := subscript food_data "foodPortions" in
  let* l := py_iter foodPortions in
  let* volume_weights := map_result from_food_portion l in
  py_max VolumeWeight_gt (omap id volume_weights).

(** The weight and the volume after the [try] block:
    [except (KeyError, StopIteration, ValueError)] leaves the defaults
    [100.0] and [None]. *)
Definition resolve_portion (food_data : json) : result (Q * option Q) :=
  match select_portion food_data with
  | Ok max_volume_weight =>
      Ok (round1 (weight max_volume_weight), Some (round1 (volume max_volume_weight)))
  | Raise KeyError | Raise StopIteration | Raise ValueError => Ok (100%Q, None)
  | Raise e => Raise e
  end.

Definition scale_macros (m : Macros) (scale_factor : Q) : Macros :=
  {| calories := round1 (calories m * scale_factor);
     fat := round1 (fat m * scale_factor);
     carbs := round1 (carbs m * scale_factor);
     fiber := round1 (fiber m * scale_factor);
     sugars := round1 (sugars m * scale_factor);
     protein := round1 (protein m * scale_factor) |}.

Definition Food_init (source : string) (food_data : json) : result Food :=
  let* fdc_id := subscript food_data "fdcId" in
  let* name := subscript food_data "description" in
  let* (weight, volume) := resolve_portion food_data in
  let* foodNutrients := subscript food_data "foodNutrients" in
  let* macros_per_100_g := from_food_nutrients foodNutrients in
  let macros :=
    if negb (Qeq_bool weight 100) then
      let scale_factor := (weight / 100)%Q in
      scale_macros macros_per_100_g scale_factor
    else macros_per_100_g in
  Ok {| source := source; fdc_id := fdc_id; name := name;
        food_weight := weight; food_volume := volume; macros := macros |}.

(** [Food.__lt__]. *)
Definition Food_lt (a b : Food) : result bool := py_lt (name a) (name b).



(** *** The driver *)

Fixpoint contains_str (k s : string) : bool :=
  String.prefix k s
  || match s with
     | EmptyString => false
     | String _ s' => contains_str k s'
     end.

(** [k in v] for a string [k]: a key of a dict, an element of a list, a
    substring of a string. *)
Definition py_in (k : string) (v : json) : result bool :=
  match v with
  | JObj d => Ok (bool_decide (is_Some (assoc k d)))
  | JArr l => Ok (existsb (py_eq (JStr k)) l)
  | JStr s => Ok (contains_str k s)
  | _ => Raise TypeError
  end.

(** [list.sort()]: a stable sort by [<].  It is modelled by insertion
    from the right, each item going before the first item that is not
    smaller; a comparison that raises aborts the sort. *)
Fixpoint insert_sorted {A : Type} (lt : A → A → result bool) (x : A) (l : list A)
  : result (list A) :=
  match l with
  | [] => Ok [x]
  | y :: l' =>
      let* b := lt y x in
      if b then let* r := insert_sorted lt x l' in Ok (y :: r)
      else Ok (x :: l)
  end.

Fixpoint py_sort {A : Type} (lt : A → A → result bool) (l : list A)
  : result (list A) :=
  match l with
  | [] => Ok []
  | x :: l' => let* r := py_sort lt l' in insert_sorted lt x r
  end.

(** [foods.extend(Food(label, f) for f in all_food_data[key])] under its
    guard [if key in all_food_data]. *)
Definition extend_foods (all_food_data : json) (key label : string)
    (foods : list Food) : result (list Food) :=
  let* present := py_in key all_food_data in
  if present then
    let* collection := subscript all_food_data key in
    let* l := py_iter collection in
    let* new := map_result (Food_init label) l in
    Ok (foods ++ new)
  else Ok foods.

(** [main] from the parsed document to the sorted list of foods. *)
Definition build_dataset (all_food_data : json) : result (list Food) :=
  let foods := [] in
  let* foods := extend_foods all_food_data "FoundationFoods" "Foundation" foods in
  let* foods := extend_foods all_food_data "SRLegacyFoods" "SR Legacy" foods in
  py_sort Food_lt foods.



(** ** Sample inputs *)

Definition measurement (num : string) (amount : Q) : json :=
  JObj [("nutrient", JObj [("number", JStr num)]); ("amount", JNum amount)].

Definition portion (unit_id : Q) (abbreviation : string) (amount gramWeight : Q) : json :=
  JObj [("measureUnit", JObj [("id", JNum unit_id); ("abbreviation", JStr abbreviation)]);
        ("amount", JNum amount); ("gramWeight", JNum gramWeight)].

Definition food (fdcId : Q) (description : string) (nutrients portions : list json) : json :=
  JObj [("fdcId", JNum fdcId); ("description", JStr description);
        ("foodNutrients", JArr nutrients); ("foodPortions", JArr portions)].

(** ** Vocabulary of the statements *)

(** The entry every heap is seeded with. *)
Definition sentinel : item := (10, JNum 0).

(** What one measurement contributes: nothing when it is skipped,
    otherwise a category and the item pushed on its heap. *)
Definition measured (food_nutrient : json)
  : result (option (NutrientCategory * item)) :=
  let* r := except_KeyError (let* na := read_food_nutrient food_nutrient in Ok (Some na))
                            (Ok None) in
  match r with
  | None => Ok None
  | Some (nutrient_num, amount) =>
      let* md := metadata_lookup nutrient_num in
      match md with
      | None => Ok None
      | Some metadata => Ok (Some (category metadata, (priority metadata, amount)))
      end
  end.

(** A measurement whose identifier is the string [num] and whose amount
    is [amount]. *)
Definition reports (e : json) (num : string) (amount : json) : Prop :=
  ∃ nutrient, subscript e "nutrient" = Ok nutrient
    ∧ subscript nutrient "number" = Ok (JStr num)
    ∧ subscript e "amount" = Ok amount.

Definition zero_macros : Macros := mkMacros 0 0 0 0 0 0.

(** One cup weighing 120 g and one tablespoon weighing 15 g. *)
Definition cup_portion : json := portion 1000 "cup" 1 120.

Definition tbsp_portion : json := portion 1001 "tbsp" 1 15.

(** The selected value and the resolved field of a category. *)
Definition selected_of (c : NutrientCategory) (s : Selected) : json :=
  match c with
  | CALORIES => sel_calories s
  | FAT => sel_fat s
  | CARBS => sel_carbs s
  | FIBER => sel_fiber s
  | SUGARS => sel_sugars s
  | PROTEIN => sel_protein s
  end.


(** An item whose amount is a number. *)
Definition numeric_item (x : item) : Prop := ∃ q, snd x = JNum q.

(** The computation ends with an exception. *)
Definition raises {A : Type} (r : result A) : Prop := ∃ e, r = Raise e.

(** A portion record with all the fields [from_food_portion] reads. *)
Definition has_fields (p unit_id quantity abbreviation gramWeight : json) : Prop :=
  ∃ d mu, p = JObj d
    ∧ assoc "measureUnit" d = Some (JObj mu)
    ∧ assoc "id" mu = Some unit_id
    ∧ assoc "amount" d = Some quantity
    ∧ assoc "abbreviation" mu = Some abbreviation
    ∧ assoc "gramWeight" d = Some gramWeight.

(** A portion record, or its measure unit, without one of these fields. *)
Definition lacks_field (p : json) : Prop :=
  ∃ d, p = JObj d
    ∧ (assoc "measureUnit" d = None
       ∨ ∃ mu, assoc "measureUnit" d = Some (JObj mu)
           ∧ (assoc "id" mu = None ∨ assoc "abbreviation" mu = None
              ∨ assoc "amount" d = None ∨ assoc "gramWeight" d = None)).

(** The portion records that are no candidate: a field is missing, the
    unit is not in the table, or the quantity or the gram weight is null
    or not positive. *)
Inductive rejected : json → Prop :=
| rejected_lacks_field p :
    lacks_field p → rejected p
| rejected_unit p u q a w :
    has_fields p u q a w → unit_ml_lookup u = Ok None → rejected p
| rejected_quantity_null p u a w ml :
    has_fields p u JNull a w → unit_ml_lookup u = Ok (Some ml) → rejected p
| rejected_quantity_nonpos p u q a w ml x :
    has_fields p u q a w → unit_ml_lookup u = Ok (Some ml) →
    as_number q = Some x → (x <= 0)%Q → rejected p
| rejected_weight_null p u q a ml x :
    has_fields p u q a JNull → unit_ml_lookup u = Ok (Some ml) →
    as_number q = Some x → (0 < x)%Q → rejected p
| rejected_weight_nonpos p u q a w ml x y :
    has_fields p u q a w → unit_ml_lookup u = Ok (Some ml) →
    as_number q = Some x → (0 < x)%Q →
    as_number w = Some y → (y <= 0)%Q → rejected p.

(** The portions input without a valid candidate: the key is missing, or
    its list holds rejected records only (none, in particular). *)
Definition no_valid_candidate (food_data : json) : Prop :=
  ∃ d, food_data = JObj d
    ∧ (assoc "foodPortions" d = None
       ∨ ∃ l, assoc "foodPortions" d = Some (JArr l) ∧ Forall rejected l).

(** The portion records that raise [TypeError], in the order in which
    [from_food_portion] reads them: the entry is not a dict; its
    [measureUnit] is not a dict; with every field present, the unit
    identifier is a list or a dict, which cannot be hashed; the unit is in
    the table and the quantity is neither null nor a number; the quantity
    is a positive number and the gram weight is neither null nor a
    number. *)
Inductive malformed : json → Prop :=
| malformed_entry p :
    (∀ d, p ≠ JObj d) → malformed p
| malformed_measureUnit d mu :
    assoc "measureUnit" d = Some mu → (∀ m, mu ≠ JObj m) → malformed (JObj d)
| malformed_unit p u q a w :
    has_fields p u q a w → (∃ l, u = JArr l) ∨ (∃ m, u = JObj m) → malformed p
| malformed_quantity p u q a w ml :
    has_fields p u q a w → unit_ml_lookup u = Ok (Some ml) →
    q ≠ JNull → as_number q = None → malformed p
| malformed_weight p u q a w ml x :
    has_fields p u q a w → unit_ml_lookup u = Ok (Some ml) →
    as_number q = Some x → (0 < x)%Q →
    w ≠ JNull → as_number w = None → malformed p.

(** A value under [foodPortions] that cannot be iterated. *)
Definition not_iterable (v : json) : Prop :=
  v = JNull ∨ (∃ b, v = JBool b) ∨ (∃ q, v = JNum q).

(** The name of the food is a string. *)
Definition has_string_name (f : Food) : Prop := ∃ s, name f = JStr s.

(** [a] before [b] in the order of names. *)
Definition name_le (a b : Food) : Prop :=
  ∃ s t, name a = JStr s ∧ name b = JStr t ∧ String.leb s t = true.

(** The foods before the sort: the two collections, Foundation first. *)
Definition collect (all_food_data : json) : result (list Food) :=
  let* foods := extend_foods all_food_data "FoundationFoods" "Foundation" [] in
  extend_foods all_food_data "SRLegacyFoods" "SR Legacy" foods.

(** The heap order on the keys of the items: no child has a smaller key
    than its parent. *)
Definition heap_ordered {A : Type} (key : A → nat) (h : list A) : Prop :=
  ∀ i x y, 0 < i → h !! i = Some x → h !! ((i - 1) / 2) = Some y → key y ≤ key x.

(** The state of [_siftdown] inside its loop: the slot [pos] waits for
    [newitem]; everywhere else parents are below their children, and
    the children of [pos] are above both [newitem] and the parent of
    [pos]. *)
Definition hole_ordered {A : Type} (key : A → nat) (h : list A) (pos : nat)
    (newitem : A) : Prop :=
  (∀ i x y, 0 < i → i ≠ pos → (i - 1) / 2 ≠ pos →
     h !! i = Some x → h !! ((i - 1) / 2) = Some y → key y ≤ key x)
  ∧ (∀ i x, 0 < i → (i - 1) / 2 = pos → h !! i = Some x →
       key newitem ≤ key x
       ∧ (∀ y, 0 < pos → h !! ((pos - 1) / 2) = Some y → key y ≤ key x)).

(** A measurement the loop of [from_food_nutrients] passes over: a key is
    missing on the way to the identifier or the amount, or the identifier
    is a string that is no key of the table. *)
Inductive skipped : json → Prop :=
| skipped_no_nutrient d :
    assoc "nutrient" d = None → skipped (JObj d)
| skipped_no_number d n :
    assoc "nutrient" d = Some (JObj n) → assoc "number" n = None → skipped (JObj d)
| skipped_no_amount d n num :
    assoc "nutrient" d = Some (JObj n) → assoc "number" n = Some num →
    assoc "amount" d = None → skipped (JObj d)
| skipped_unknown e num amount :
    reports e num amount → assoc num _NUTRIENT_NUM_METADATA_MAP = None → skipped e.

(** A number with at most one decimal place. *)
Definition one_decimal (x : Q) : Prop := ∃ k : Z, (x == k # 10)%Q.

(** The list under a key of the document, empty when the key is
    missing. *)
Definition collection (d : list (string * json)) (key : string) : list json :=
  match assoc key d with
  | Some (JArr l) => l
  | _ => []
  end.


(** The range of the numbers on which the embedding follows the program:
    with every number of the input at most [range_bound] in absolute
    value, no product, sum or quotient the program forms leaves the range
    of a double (the largest is a macro of at most 17 times the bound
    scaled by a hundredth of a weight of at most the bound), so that
    Python neither produces [inf] or [nan] nor raises [OverflowError]. *)
Definition range_bound : Q := inject_Z (10 ^ 150).

Fixpoint in_range (v : json) : Prop :=
  match v with
  | JNum q => (Qabs q <= range_bound)%Q
  | JArr l =>
      (fix all (l : list json) : Prop :=
         match l with
         | [] => True
         | x :: l' => in_range x ∧ all l'
         end) l
  | JObj d =>
      (fix all (d : list (string * json)) : Prop :=
         match d with
         | [] => True
         | kv :: d' => in_range (snd kv) ∧ all d'
         end) d
  | _ => True
  end.

(** The records of a regular dataset.  A measurement has a string as
    identifier and a number as amount, or is passed over; a portion has
    all its fields, a number as unit identifier, a string as
    abbreviation, and numbers or null as amount and gram weight; a food
    has an identifier, a string as name, a list of such measurements
    and, when it has portions at all, a list of such portions. *)
Definition regular_measurement (e : json) : Prop :=
  (∃ num q, reports e num (JNum q)) ∨ skipped e.

Definition number_or_null (v : json) : Prop := v = JNull ∨ ∃ q, v = JNum q.

Definition regular_portion (p : json) : Prop :=
  ∃ u q a w, has_fields p (JNum u) q (JStr a) w ∧ number_or_null q ∧ number_or_null w.

Definition regular_food (food_data : json) : Prop :=
  ∃ d fdcId description nutrients,
    food_data = JObj d
    ∧ assoc "fdcId" d = Some fdcId
    ∧ assoc "description" d = Some (JStr description)
    ∧ assoc "foodNutrients" d = Some (JArr nutrients)
    ∧ Forall regular_measurement nutrients
    ∧ (assoc "foodPortions" d = None
       ∨ ∃ portions, assoc "foodPortions" d = Some (JArr portions)
           ∧ Forall regular_portion portions).

(** A candidate whose descriptor is a string. *)
Definition string_descriptor (c : VolumeWeight) : Prop := ∃ a, descriptor c = JStr a.

(** Every exception the computation can end with is one of [E]. *)
Definition raises_only {A : Type} (E : exn → Prop) (r : result A) : Prop :=
  ∀ e, r = Raise e → E e.

Definition is_TypeError (e : exn) : Prop := e = TypeError.

Definition is_KeyError_or_TypeError (e : exn) : Prop := e = KeyError ∨ e = TypeError.

(** The heap order for an order [le] on the items themselves, and the
    state of [_siftdown] inside its loop for that order. *)
Definition heap_ordered_by {A : Type} (le : A → A → Prop) (h : list A) : Prop :=
  ∀ i x y, 0 < i → h !! i = Some x → h !! ((i - 1) / 2) = Some y → le y x.

Definition hole_ordered_by {A : Type} (le : A → A → Prop) (h : list A) (pos : nat)
    (newitem : A) : Prop :=
  (∀ i x y, 0 < i → i ≠ pos → (i - 1) / 2 ≠ pos →
     h !! i = Some x → h !! ((i - 1) / 2) = Some y → le y x)
  ∧ (∀ i x, 0 < i → (i - 1) / 2 = pos → h !! i = Some x →
       le newitem x
       ∧ (∀ y, 0 < pos → h !! ((pos - 1) / 2) = Some y → le y x)).

(** The order of the tuples [(priority, amount)] whose amounts are
    numbers: by priority, then by amount. *)
Definition item_le (x y : item) : Prop :=
  fst x < fst y
  ∨ (fst x = fst y ∧ ∃ p q, snd x = JNum p ∧ snd y = JNum q ∧ (p <= q)%Q).

(** * Proofs *)

(** ** Results *)

Lemma bind_Ok {A B : Type} (r : result A) (k : A → result B) (b : B) :
  bind r k = Ok b → ∃ a, r = Ok a ∧ k a = Ok b.
Proof. destruct r as [a|e]; simpl; [eauto | discriminate]. Qed.

Ltac inv_bind H :=
  let a := fresh "a" in
  let Ha := fresh "Ha" in
  apply bind_Ok in H as (a & Ha & H).

(** ** Rationals *)

Example round1_quarter : round1 (1 # 4) = (1 # 5)%Q.
Proof. reflexivity. Qed.

Example round1_cup : round1 (2365875 # 10000) = (1183 # 5)%Q.
Proof. reflexivity. Qed.

Lemma Qlt_bool_true (x y : Q) : Qlt_bool x y = true ↔ (x < y)%Q.
Proof.
  unfold Qlt_bool. rewrite negb_true_iff.
  split.
  - intros H. apply Qnot_le_lt. intros Hle. apply Qle_bool_iff in Hle. congruence.
  - intros H. destruct (Qle_bool y x) eqn:E; [|done].
    apply Qle_bool_iff in E. exfalso. by apply (Qlt_not_le x y).
Qed.

Lemma Qlt_bool_false (x y : Q) : Qlt_bool x y = false ↔ (y <= x)%Q.
Proof.
  unfold Qlt_bool. rewrite negb_false_iff. apply Qle_bool_iff.
Qed.

Lemma round_half_even_comp (x y : Q) : (x == y)%Q → round_half_even x = round_half_even y.
Proof.
  intros H. unfold round_half_even.
  assert (Hf : Qfloor x = Qfloor y) by (by rewrite H).
  rewrite Hf.
  assert (Hc : ((x - inject_Z (Qfloor y)) ?= 1 # 2)%Q = ((y - inject_Z (Qfloor y)) ?= 1 # 2)%Q).
  { by rewrite H. }
  by rewrite Hc.
Qed.

Lemma round1_comp (x y : Q) : (x == y)%Q → round1 x = round1 y.
Proof.
  intros H. unfold round1.
  rewrite (round_half_even_comp (x * 10) (y * 10)); [done|].
  by rewrite H.
Qed.

Lemma round_half_even_nonneg (x : Q) : (0 <= x)%Q → (0 <= round_half_even x)%Z.
Proof.
  intros H. unfold round_half_even.
  assert (Hf : (0 <= Qfloor x)%Z).
  { change 0%Z with (Qfloor 0). by apply Qfloor_resp_le. }
  destruct (_ ?= _)%Q; [destruct (Z.even _)|..]; lia.
Qed.

Lemma round1_nonneg (x : Q) : (0 <= x)%Q → (0 <= round1 x)%Q.
Proof.
  intros H. unfold round1. rewrite Qred_correct.
  assert (Hz : (0 <= round_half_even (x * 10))%Z).
  { apply round_half_even_nonneg. apply Qmult_le_0_compat; [done|]. by compute. }
  unfold Qle. simpl. lia.
Qed.

(** ** The heap *)

Lemma parent_le (i : nat) : (i - 1) / 2 ≤ i.
Proof. apply Nat.Div0.div_le_upper_bound. lia. Qed.

Lemma parent_lt (i : nat) : 0 < i → (i - 1) / 2 < i.
Proof. intros H. apply Nat.Div0.div_lt_upper_bound. lia. Qed.

Section heap_facts.
Context {A : Type} (lt : A → A → result bool).

Lemma getitem_Ok (heap : list A) (i : nat) (x : A) :
  getitem heap i = Ok x ↔ heap !! i = Some x.
Proof.
  unfold getitem. destruct (heap !! i); split; intros H; congruence.
Qed.

Lemma getitem_lt (heap : list A) (i : nat) :
  i < length heap → ∃ x, getitem heap i = Ok x ∧ heap !! i = Some x.
Proof.
  intros H. destruct (lookup_lt_is_Some_2 heap i H) as [x Hx].
  exists x. split; [by apply getitem_Ok | done].
Qed.

(** *** The bounds of the loops

    A larger bound changes nothing: the loops end by their own
    conditions, never by the bound. *)

Lemma siftdown_loop_bound n m heap startpos pos newitem :
  pos ≤ n → pos ≤ m →
  siftdown_loop lt n heap startpos pos newitem
  = siftdown_loop lt m heap startpos pos newitem.
Proof.
  revert m heap pos. induction n as [|n IH]; intros [|m] heap pos Hn Hm;
    cbn [siftdown_loop]; try done.
  - assert (pos = 0) as -> by lia. by rewrite decide_False by lia.
  - assert (pos = 0) as -> by lia. by rewrite decide_False by lia.
  - destruct (decide (startpos < pos)) as [Hd|Hd]; [|done].
    destruct (getitem heap ((pos - 1) / 2)) as [parent|]; [|done]. cbn [bind].
    destruct (lt newitem parent) as [[]|]; cbn [bind]; [|done..].
    pose proof (parent_lt pos ltac:(lia)). apply IH; lia.
Qed.

Lemma siftup_loop_bound n m heap endpos pos :
  endpos - pos ≤ n → endpos - pos ≤ m →
  siftup_loop lt n heap endpos pos = siftup_loop lt m heap endpos pos.
Proof.
  revert m heap pos. induction n as [|n IH]; intros [|m] heap pos Hn Hm;
    cbn [siftup_loop]; try done.
  - by rewrite decide_False by lia.
  - by rewrite decide_False by lia.
  - destruct (decide (2 * pos + 1 < endpos)) as [Hd|Hd]; [|done].
    assert (Hchild : ∀ r : result nat,
      (∀ c, r = Ok c → pos < c) →
      (let* childpos := r in
       let* child := getitem heap childpos in
       siftup_loop lt n (<[pos := child]> heap) endpos childpos)
      = (let* childpos := r in
         let* child := getitem heap childpos in
         siftup_loop lt m (<[pos := child]> heap) endpos childpos)).
    { intros [c|e] Hc; cbn [bind]; [|done].
      destruct (getitem heap c) as [child|]; cbn [bind]; [|done].
      pose proof (Hc c eq_refl). apply IH; lia. }
    apply Hchild. intros c.
    destruct (decide _) as [Hr|Hr]; [|intros [= <-]; lia].
    destruct (getitem heap (2 * pos + 1)); cbn [bind]; [|done].
    destruct (getitem heap (2 * pos + 1 + 1)); cbn [bind]; [|done].
    destruct (lt a a0) as [[]|]; cbn [bind]; intros [= <-]; lia.
Qed.

(** *** What the sifting loops keep *)

Section kept.
Context (P : A → Prop).

Lemma siftdown_loop_Forall n heap startpos pos newitem heap' :
  Forall P heap → P newitem →
  siftdown_loop lt n heap startpos pos newitem = Ok heap' →
  Forall P heap'.
Proof.
  revert heap pos. induction n as [|n IH]; intros heap pos Hall Hnew; simpl.
  - intros [= <-]. by apply Forall_insert.
  - destruct (decide _) as [Hd|Hd]; [|intros [= <-]; by apply Forall_insert].
    intros H. inv_bind H. inv_bind H.
    destruct a0.
    + apply IH in H; [done| |done].
      apply Forall_insert; [done|].
      apply getitem_Ok in Ha. by eapply Forall_lookup_1.
    + injection H as <-. by apply Forall_insert.
Qed.

Lemma siftdown_Forall heap startpos pos heap' :
  Forall P heap → siftdown lt heap startpos pos = Ok heap' → Forall P heap'.
Proof.
  intros Hall H. unfold siftdown in H. inv_bind H.
  eapply siftdown_loop_Forall; [done| |done].
  apply getitem_Ok in Ha. by eapply Forall_lookup_1.
Qed.

Lemma heappush_Forall heap x heap' :
  Forall P heap → P x → heappush lt heap x = Ok heap' → Forall P heap'.
Proof.
  intros Hall Hx H. unfold heappush in H.
  eapply siftdown_Forall; [|done].
  apply Forall_app. split; [done|]. by constructor.
Qed.
End kept.

Lemma siftdown_loop_length n heap startpos pos newitem heap' :
  siftdown_loop lt n heap startpos pos newitem = Ok heap' →
  length heap' = length heap.
Proof.
  revert heap pos. induction n as [|n IH]; intros heap pos; simpl.
  - intros [= <-]. by rewrite length_insert.
  - destruct (decide _) as [Hd|Hd]; [|intros [= <-]; by rewrite length_insert].
    intros H. inv_bind H. inv_bind H.
    destruct a0.
    + apply IH in H. by rewrite length_insert in H.
    + injection H as <-. by rewrite length_insert.
Qed.

Lemma heappush_length heap x heap' :
  heappush lt heap x = Ok heap' → length heap' = S (length heap).
Proof.
  unfold heappush, siftdown. intros H. inv_bind H.
  apply siftdown_loop_length in H. rewrite H, length_app. simpl. lia.
Qed.

(** *** The operations return when the comparisons do *)

Section total.
Context (P : A → Prop).
Hypothesis lt_total : ∀ x y, P x → P y → is_Ok (lt x y).

Lemma siftdown_loop_total n heap startpos pos newitem :
  Forall P heap → P newitem → pos < length heap →
  is_Ok (siftdown_loop lt n heap startpos pos newitem).
Proof.
  revert heap pos. induction n as [|n IH]; intros heap pos Hall Hnew Hpos;
    cbn [siftdown_loop].
  - by eexists.
  - destruct (decide _) as [Hd|Hd]; [|by eexists].
    destruct (getitem_lt heap ((pos - 1) / 2)) as (parent & -> & Hparent).
    { pose proof (parent_lt pos). lia. }
    cbn [bind].
    assert (Hp : P parent) by (by eapply Forall_lookup_1).
    destruct (lt_total newitem parent Hnew Hp) as [b ->]. cbn [bind].
    destruct b; [|by eexists].
    apply IH; [by apply Forall_insert|done|].
    rewrite length_insert. pose proof (parent_lt pos). lia.
Qed.

Lemma siftdown_total heap startpos pos :
  Forall P heap → pos < length heap → is_Ok (siftdown lt heap startpos pos).
Proof.
  intros Hall Hpos. unfold siftdown.
  destruct (getitem_lt heap pos Hpos) as (x & -> & Hx). simpl.
  apply siftdown_loop_total; [done| |done].
  by eapply Forall_lookup_1.
Qed.

Lemma heappush_total heap x :
  Forall P heap → P x → is_Ok (heappush lt heap x).
Proof.
  intros Hall Hx. unfold heappush.
  apply siftdown_total.
  - apply Forall_app. split; [done|]. by constructor.
  - rewrite length_app. simpl. lia.
Qed.

Lemma siftup_loop_total n heap pos :
  Forall P heap → pos < length heap →
  ∃ heap' pos', siftup_loop lt n heap (length heap) pos = Ok (heap', pos')
    ∧ Forall P heap' ∧ length heap' = length heap ∧ pos' < length heap.
Proof.
  revert heap pos. induction n as [|n IH]; intros heap pos Hall Hpos;
    cbn [siftup_loop].
  - by exists heap, pos.
  - destruct (decide (2 * pos + 1 < length heap)) as [Hc|Hc]; [|by exists heap, pos].
    assert (Hchild : ∃ childpos,
      (if decide (2 * pos + 1 + 1 < length heap) then
         let* c := getitem heap (2 * pos + 1) in
         let* r := getitem heap (2 * pos + 1 + 1) in
         let* b := lt c r in
         Ok (if b then 2 * pos + 1 else 2 * pos + 1 + 1)
       else Ok (2 * pos + 1)) = Ok childpos ∧ childpos < length heap).
    { destruct (decide _) as [Hr|Hr]; [|by eexists].
      destruct (getitem_lt heap _ Hc) as (c & -> & Hcv).
      destruct (getitem_lt heap _ Hr) as (r & -> & Hrv). cbn [bind].
      destruct (lt_total c r) as [b ->]; [by eapply Forall_lookup_1..|].
      cbn [bind]. eexists. split; [done|]. by destruct b. }
    destruct Hchild as (childpos & -> & Hlt). cbn [bind].
    destruct (getitem_lt heap _ Hlt) as (child & -> & Hchild). cbn [bind].
    destruct (IH (<[pos := child]> heap) childpos) as (heap' & pos' & Hloop & ? & Hlen & ?).
    { apply Forall_insert; [done|]. by eapply Forall_lookup_1. }
    { by rewrite length_insert. }
    rewrite length_insert in Hloop, Hlen.
    exists heap', pos'. by rewrite length_insert in *.
Qed.

Lemma siftup_total heap pos :
  Forall P heap → pos < length heap → is_Ok (siftup lt heap pos).
Proof.
  intros Hall Hpos. unfold siftup.
  destruct (getitem_lt heap pos Hpos) as (x & -> & Hx). cbn [bind].
  destruct (siftup_loop_total (length heap) heap pos Hall Hpos)
    as (heap' & pos' & -> & Hall' & Hlen & Hpos').
  cbn [bind]. apply siftdown_total.
  - apply Forall_insert; [done|]. exact (Forall_lookup_1 _ _ _ _ Hall Hx).
  - rewrite length_insert. lia.
Qed.

Lemma heappop_total heap :
  Forall P heap → heap ≠ [] → is_Ok (heappop lt heap).
Proof.
  intros Hall Hne. unfold heappop.
  destruct (last heap) as [lastelt|] eqn:Hlast.
  2: { apply last_None in Hlast. done. }
  destruct (removelast heap) as [|x rest] eqn:Hrem; [by eexists|].
  assert (Hsplit : heap = (x :: rest) ++ [lastelt]).
  { apply last_Some in Hlast as [l' ->]. rewrite removelast_last in Hrem. by subst. }
  destruct (siftup_total (<[0 := lastelt]> (x :: rest)) 0) as [h' Hh'].
  - subst heap. apply Forall_app in Hall as [Hall Hl].
    apply Forall_insert; [done|]. by inversion Hl.
  - simpl. lia.
  - rewrite Hh'. by eexists.
Qed.
End total.

(** [heappop] returns the item at the root. *)
Lemma heappop_root heap x heap' :
  heappop lt heap = Ok (x, heap') → heap !! 0 = Some x.
Proof.
  unfold heappop. destruct (last heap) as [lastelt|] eqn:Hlast; [|done].
  apply last_Some in Hlast as [l' ->]. rewrite removelast_last.
  destruct l' as [|y rest].
  - by intros [= <- _].
  - intros H. inv_bind H. by injection H as <- _.
Qed.
End heap_facts.

(** *** The heap order

    The comparison is only asked to agree with a key: the smaller item
    never has the larger key.  For the macro heaps the key is the
    priority, whatever the amounts are. *)

Section heap_order.
Context {A : Type} (lt : A → A → result bool) (key : A → nat).
Hypothesis lt_true : ∀ x y, lt x y = Ok true → key x ≤ key y.
Hypothesis lt_false : ∀ x y, lt x y = Ok false → key y ≤ key x.

Lemma root_minimal (h : list A) (r : A) :
  heap_ordered key h → h !! 0 = Some r → ∀ i x, h !! i = Some x → key r ≤ key x.
Proof.
  intros Hord Hr i. induction (lt_wf i) as [i _ IH]. intros x Hx.
  destruct (decide (i = 0)) as [->|Hi]; [by simplify_eq|].
  assert (Hp : (i - 1) / 2 < i) by (apply parent_lt; lia).
  destruct (lookup_lt_is_Some_2 h ((i - 1) / 2)) as [y Hy].
  { apply lookup_lt_Some in Hx. lia. }
  etrans; [by apply (IH _ Hp y)|].
  apply (Hord i x y); [lia|done..].
Qed.

Lemma siftdown_loop_ordered n h pos newitem h' :
  pos ≤ n → pos < length h → hole_ordered key h pos newitem →
  siftdown_loop lt n h 0 pos newitem = Ok h' →
  heap_ordered key h'.
Proof.
  revert h pos. induction n as [|n IH]; intros h pos Hn Hlen [Ha Hb];
    cbn [siftdown_loop].
  - intros [= <-]. assert (pos = 0) as -> by lia.
    intros i x y Hi Hx Hy.
    destruct (decide ((i - 1) / 2 = 0)) as [Hp|Hp].
    + rewrite Hp in Hy. rewrite list_lookup_insert_eq in Hy by done.
      rewrite list_lookup_insert_ne in Hx by lia.
      simplify_eq. by destruct (Hb i x) as [? _].
    + rewrite list_lookup_insert_ne in Hx, Hy by lia.
      by apply (Ha i x y); [lia..|done|done].
  - destruct (decide (0 < pos)) as [Hpos|Hpos].
    + intros H. inv_bind H. inv_bind H. rename a into parent, a0 into b.
      apply getitem_Ok in Ha0.
      pose proof (parent_lt pos Hpos) as Hpp.
      pose proof (parent_le ((pos - 1) / 2)) as Hgp.
      destruct b.
      * apply lt_true in Ha1.
        apply IH in H; [done|lia|rewrite length_insert; lia|].
        split.
        -- intros i x y Hi Hne1 Hne2 Hx Hy.
           assert (i ≠ pos) by (intros ->; done).
           rewrite list_lookup_insert_ne in Hx by done.
           destruct (decide ((i - 1) / 2 = pos)) as [Hc|Hc].
           ++ rewrite Hc, list_lookup_insert_eq in Hy by done.
              injection Hy as <-.
              destruct (Hb i x Hi Hc Hx) as [_ Hg]. by apply Hg.
           ++ rewrite list_lookup_insert_ne in Hy by done.
              by apply (Ha i x y).
        -- intros i x Hi Hc Hx.
           destruct (decide (i = pos)) as [->|Hne].
           ++ rewrite list_lookup_insert_eq in Hx by done.
              injection Hx as <-.
              split; [done|].
              intros y Hpp0 Hy.
              rewrite list_lookup_insert_ne in Hy by lia.
              apply (Ha ((pos - 1) / 2) parent y); [done|lia|lia|done|done].
           ++ rewrite list_lookup_insert_ne in Hx by done.
              assert (Hpx : key parent ≤ key x).
              { apply (Ha i x parent); [done|done|lia|done|by rewrite Hc]. }
              split; [lia|].
              intros y Hpp0 Hy.
              rewrite list_lookup_insert_ne in Hy by lia.
              etrans; [|exact Hpx].
              apply (Ha ((pos - 1) / 2) parent y); [done|lia|lia|done|done].
      * apply lt_false in Ha1. injection H as <-.
        intros i x y Hi Hx Hy.
        destruct (decide (i = pos)) as [->|Hne].
        -- rewrite list_lookup_insert_eq in Hx by done.
           rewrite list_lookup_insert_ne in Hy by lia.
           injection Hx as <-. by simplify_eq.
        -- rewrite list_lookup_insert_ne in Hx by done.
           destruct (decide ((i - 1) / 2 = pos)) as [Hc|Hc].
           ++ rewrite Hc, list_lookup_insert_eq in Hy by done.
              injection Hy as <-.
              by destruct (Hb i x) as [? _].
           ++ rewrite list_lookup_insert_ne in Hy by done.
              by apply (Ha i x y).
    + intros [= <-]. assert (pos = 0) as -> by lia.
      intros i x y Hi Hx Hy.
      destruct (decide ((i - 1) / 2 = 0)) as [Hp|Hp].
      * rewrite Hp in Hy. rewrite list_lookup_insert_eq in Hy by done.
        rewrite list_lookup_insert_ne in Hx by lia.
        simplify_eq. by destruct (Hb i x) as [? _].
      * rewrite list_lookup_insert_ne in Hx, Hy by lia.
        by apply (Ha i x y); [lia..|done|done].
Qed.

Lemma heappush_ordered (h : list A) (x : A) (h' : list A) :
  heap_ordered key h → heappush lt h x = Ok h' → heap_ordered key h'.
Proof.
  intros Hord H. unfold heappush, siftdown in H. inv_bind H.
  rewrite length_app in Ha, H. simpl in Ha, H.
  replace (length h + 1 - 1) with (length h) in Ha, H by lia.
  apply getitem_Ok in Ha. rewrite lookup_app_r, Nat.sub_diag in Ha by done.
  injection Ha as <-.
  eapply siftdown_loop_ordered; [done| | |exact H].
  { rewrite length_app. simpl. lia. }
  split.
  - intros i y z Hi Hne1 Hne2 Hy Hz.
    assert (i < length h).
    { apply lookup_lt_Some in Hy. rewrite length_app in Hy. simpl in Hy. lia. }
    pose proof (parent_lt i Hi).
    rewrite lookup_app_l in Hy, Hz by lia.
    by apply (Hord i y z).
  - intros i y Hi Hc Hy. exfalso.
    apply lookup_lt_Some in Hy. rewrite length_app in Hy. simpl in Hy.
    pose proof (parent_lt i Hi). lia.
Qed.
End heap_order.

(** *** No item is lost by a push *)

Section heap_elements.
Context {A : Type} (lt : A → A → result bool).

Lemma siftdown_loop_elem n heap startpos pos newitem heap' (z : A) :
  pos < length heap →
  siftdown_loop lt n heap startpos pos newitem = Ok heap' →
  z ∈ <[pos := newitem]> heap → z ∈ heap'.
Proof.
  revert heap pos. induction n as [|n IH]; intros heap pos Hlen;
    cbn [siftdown_loop].
  - by intros [= <-].
  - destruct (decide _) as [Hd|Hd]; [|by intros [= <-]].
    intros H. inv_bind H. inv_bind H. rename a into parent, a0 into b.
    destruct b; [|by injection H as <-].
    apply getitem_Ok in Ha.
    pose proof (parent_lt pos ltac:(lia)) as Hpp.
    intros Hz. eapply IH; [|exact H|].
    { rewrite length_insert. lia. }
    apply list_elem_of_lookup in Hz as [i Hi].
    apply list_elem_of_lookup.
    destruct (decide (i = pos)) as [->|Hne].
    + exists ((pos - 1) / 2).
      rewrite list_lookup_insert_eq in Hi by done.
      rewrite list_lookup_insert_eq by (rewrite length_insert; lia). done.
    + rewrite list_lookup_insert_ne in Hi by done.
      destruct (decide (i = (pos - 1) / 2)) as [->|Hne'].
      * exists pos.
        rewrite list_lookup_insert_ne by lia.
        rewrite list_lookup_insert_eq by done. congruence.
      * exists i. by rewrite !list_lookup_insert_ne by done.
Qed.

Lemma heappush_elem heap x heap' (z : A) :
  heappush lt heap x = Ok heap' → z ∈ heap ++ [x] → z ∈ heap'.
Proof.
  unfold heappush, siftdown. intros H Hz. inv_bind H.
  assert (Hpos : length (heap ++ [x]) - 1 < length (heap ++ [x])).
  { rewrite length_app. simpl. lia. }
  eapply siftdown_loop_elem; [exact Hpos|exact H|].
  apply getitem_Ok in Ha. by rewrite list_insert_id.
Qed.
End heap_elements.

Lemma heappush_elem_iff {A : Type} (lt : A → A → result bool) heap x heap' (z : A) :
  heappush lt heap x = Ok heap' → z ∈ heap' ↔ z ∈ heap ∨ z = x.
Proof.
  intros H. split.
  - intros Hz.
    assert (Hall : Forall (fun y => y ∈ heap ∨ y = x) heap').
    { eapply heappush_Forall; [|by right|exact H].
      apply Forall_forall. by left. }
    by apply (proj1 (Forall_forall _ _) Hall).
  - intros Hz. eapply heappush_elem; [exact H|].
    apply elem_of_app. destruct Hz as [?| ->]; [by left|right; by constructor].
Qed.

(** ** The macro heaps *)

Arguments assoc : simpl never.

Lemma item_lt_true (x y : item) : item_lt x y = Ok true → fst x ≤ fst y.
Proof.
  unfold item_lt. destruct (Nat.eqb_spec (fst x) (fst y)) as [->|Hne]; simpl; [lia|].
  intros [= H]. apply Nat.ltb_lt in H. lia.
Qed.

Lemma item_lt_false (x y : item) : item_lt x y = Ok false → fst y ≤ fst x.
Proof.
  unfold item_lt. destruct (Nat.eqb_spec (fst x) (fst y)) as [->|Hne]; simpl; [lia|].
  intros [= H]. apply Nat.ltb_ge in H. lia.
Qed.

Lemma push_food_nutrient_measured (h : heaps) (e : json) :
  push_food_nutrient h e =
  let* r := measured e in
  match r with
  | None => Ok h
  | Some (c, x) => heaps_push h c x
  end.
Proof.
  unfold push_food_nutrient, measured.
  destruct (except_KeyError _ _) as [[[num amount]|]|err]; simpl; [|done..].
  destruct (metadata_lookup num) as [[md|]|err]; done.
Qed.

(** A measurement reaches a heap exactly when its identifier is a string
    key of the table, and then with the amount as reported: the branch
    [nutrient_num == 268] is taken by the number 268 only, which is no key
    of the table. *)
Lemma measured_Some (e : json) (c : NutrientCategory) (p : nat) (amount : json) :
  measured e = Ok (Some (c, (p, amount))) ↔
  ∃ num md, reports e num amount ∧ assoc num _NUTRIENT_NUM_METADATA_MAP = Some md
    ∧ c = category md ∧ p = priority md.
Proof.
  unfold measured, read_food_nutrient, reports. split.
  - destruct (subscript e "nutrient") as [nutrient|[]] eqn:E1; simpl; try done.
    destruct (subscript nutrient "number") as [num|[]] eqn:E2; simpl; try done.
    destruct (subscript e "amount") as [a|[]] eqn:E3; simpl; try done.
    destruct num as [|b|q|s|l|d]; simpl;
      try (destruct (Qeq_bool _ _); simpl; try done;
           destruct (times_0_239 a) as [?|[]]; simpl; done);
      try (destruct b; simpl; done); try done.
    destruct (assoc s _NUTRIENT_NUM_METADATA_MAP) as [md|] eqn:E4; [|done].
    intros [= <- <- <-]. exists s, md. split; [by exists nutrient|done].
  - intros (num & md & (nutrient & -> & E2 & E3) & E4 & -> & ->). simpl.
    rewrite E2. simpl. rewrite E3. simpl. by rewrite E4.
Qed.

Lemma seed_heaps :
  ∃ h, for_each (fun h c => heaps_push h c (10, JNum 0)) all_categories heaps_empty = Ok h
    ∧ ∀ c, h c = [sentinel].
Proof.
  eexists. split; [reflexivity|]. by intros [].
Qed.

Lemma heaps_set_eq (h : heaps) (c : NutrientCategory) (l : list item) :
  heaps_set h c l c = l.
Proof. unfold heaps_set. by rewrite decide_True. Qed.

Lemma heaps_set_ne (h : heaps) (c c' : NutrientCategory) (l : list item) :
  c' ≠ c → heaps_set h c l c' = h c'.
Proof. intros H. unfold heaps_set. by rewrite decide_False. Qed.

Lemma heaps_push_spec (h h1 : heaps) (c0 : NutrientCategory) (x0 : item) :
  heaps_push h c0 x0 = Ok h1 →
  (∀ c, heap_ordered fst (h c)) →
  (∀ c, heap_ordered fst (h1 c))
  ∧ ∀ c x, x ∈ h1 c ↔ x ∈ h c ∨ (c = c0 ∧ x = x0).
Proof.
  unfold heaps_push. intros H Hord. inv_bind H. injection H as <-.
  split.
  - intros c. destruct (decide (c = c0)) as [->|Hne].
    + rewrite heaps_set_eq.
      eapply heappush_ordered; [apply item_lt_true|apply item_lt_false|apply Hord|done].
    + by rewrite heaps_set_ne.
  - intros c x. destruct (decide (c = c0)) as [->|Hne].
    + rewrite heaps_set_eq, (heappush_elem_iff _ _ _ _ _ Ha). intuition congruence.
    + rewrite heaps_set_ne by done. intuition congruence.
Qed.

Lemma push_loop_spec (l : list json) (h0 h : heaps) :
  for_each push_food_nutrient l h0 = Ok h →
  (∀ c, heap_ordered fst (h0 c)) →
  ∀ c, heap_ordered fst (h c)
       ∧ ∀ x, x ∈ h c ↔ x ∈ h0 c ∨ ∃ e, e ∈ l ∧ measured e = Ok (Some (c, x)).
Proof.
  revert h0. induction l as [|e l IH]; intros h0 H Hord c; simpl in H.
  - injection H as <-. split; [done|]. intros x. split; [by left|].
    intros [?|(e & He & _)]; [done|]. by apply elem_of_nil in He.
  - inv_bind H. rename a into h1.
    rewrite push_food_nutrient_measured in Ha. inv_bind Ha.
    destruct a as [[c0 x0]|].
    + apply heaps_push_spec in Ha as [Hord1 Hmem]; [|done].
      destruct (IH h1 H Hord1 c) as [Ho Hm]. split; [done|].
      intros x. rewrite Hm, Hmem. split.
      * intros [[?|[-> ->]]|(e' & He' & Hme)].
        -- by left.
        -- right. exists e. split; [by left|done].
        -- right. exists e'. split; [by right|done].
      * intros [?|(e' & He' & Hme)]; [by left; left|].
        apply elem_of_cons in He' as [->|He'].
        -- left. right. rewrite Ha0 in Hme. injection Hme as <- <-. by split.
        -- right. by exists e'.
    + injection Ha as <-.
      destruct (IH h0 H Hord c) as [Ho Hm]. split; [done|].
      intros x. rewrite Hm. split.
      * intros [?|(e' & He' & Hme)]; [by left|].
        right. exists e'. split; [by right|done].
      * intros [?|(e' & He' & Hme)]; [by left|].
        apply elem_of_cons in He' as [->|He']; [congruence|].
        right. by exists e'.
Qed.

Lemma heap_ordered_singleton (x : item) : heap_ordered fst [x].
Proof.
  intros i y z Hi Hy _. apply lookup_lt_Some in Hy. simpl in Hy. lia.
Qed.

(** The heap of a category holds the sentinel and the items of the
    measurements of that category, and nothing else, in heap order by
    priority. *)
Lemma fill_heaps_spec (l : list json) (h : heaps) :
  fill_heaps (JArr l) = Ok h →
  ∀ c, heap_ordered fst (h c)
       ∧ ∀ x, x ∈ h c ↔ x = sentinel ∨ ∃ e, e ∈ l ∧ measured e = Ok (Some (c, x)).
Proof.
  unfold fill_heaps. destruct seed_heaps as (h0 & -> & Hh0). simpl.
  intros H c.
  destruct (push_loop_spec l h0 h H) with (c := c) as [Ho Hm].
  { intros c'. rewrite Hh0. apply heap_ordered_singleton. }
  split; [done|]. intros x. rewrite Hm, Hh0, list_elem_of_singleton. done.
Qed.

Section macro_heaps_total.
Context (P : item → Prop).
Hypothesis lt_total : ∀ x y, P x → P y → is_Ok (item_lt x y).

Lemma push_loop_total (l : list json) (h0 : heaps) :
  (∀ c, Forall P (h0 c)) →
  (∀ e, e ∈ l → ∃ r, measured e = Ok r ∧ ∀ c x, r = Some (c, x) → P x) →
  ∃ h, for_each push_food_nutrient l h0 = Ok h ∧ ∀ c, Forall P (h c).
Proof.
  revert h0. induction l as [|e l IH]; intros h0 Hall Hl; simpl.
  - by exists h0.
  - destruct (Hl e) as (r & Hr & HP); [by left|].
    rewrite push_food_nutrient_measured, Hr. simpl.
    assert (Hl' : ∀ e', e' ∈ l → ∃ r, measured e' = Ok r ∧ ∀ c x, r = Some (c, x) → P x).
    { intros e' He'. apply Hl. by right. }
    destruct r as [[c0 x0]|]; [|by apply IH].
    unfold heaps_push.
    destruct (heappush_total item_lt P lt_total (h0 c0) x0) as [l1 Hl1];
      [done|by eapply HP|].
    rewrite Hl1. simpl. apply IH; [|done].
    intros c. destruct (decide (c = c0)) as [->|Hne].
    + rewrite heaps_set_eq. eapply heappush_Forall; [apply Hall|by eapply HP|done].
    + by rewrite heaps_set_ne.
Qed.

Lemma fill_heaps_total (l : list json) :
  P sentinel →
  (∀ e, e ∈ l → ∃ r, measured e = Ok r ∧ ∀ c x, r = Some (c, x) → P x) →
  ∃ h, fill_heaps (JArr l) = Ok h ∧ ∀ c, Forall P (h c).
Proof.
  intros Hs Hl. unfold fill_heaps. destruct seed_heaps as (h0 & -> & Hh0). simpl.
  apply push_loop_total; [|done].
  intros c. rewrite Hh0. by constructor.
Qed.

Lemma pop_amount_total (h : heaps) (c : NutrientCategory) :
  Forall P (h c) → h c ≠ [] →
  ∃ x, h c !! 0 = Some x ∧ pop_amount h c = Ok (snd x).
Proof.
  intros Hall Hne. unfold pop_amount.
  destruct (heappop_total item_lt P lt_total (h c) Hall Hne) as [[x h'] Hpop].
  rewrite Hpop. simpl. exists x. split; [|done].
  by eapply heappop_root.
Qed.
End macro_heaps_total.

Lemma pop_amount_root (h : heaps) (c : NutrientCategory) (v : json) :
  pop_amount h c = Ok v → ∃ x, h c !! 0 = Some x ∧ v = snd x.
Proof.
  unfold pop_amount. intros H. inv_bind H. destruct a as [x h'].
  injection H as <-. exists x. split; [|done]. by eapply heappop_root.
Qed.

(** ** The end of [from_food_nutrients] *)

Lemma selection_Ok (food_nutrients : json) (s : Selected) :
  selection food_nutrients = Ok s ↔
  ∃ h, fill_heaps food_nutrients = Ok h ∧ select h = Ok s.
Proof.
  unfold selection. split.
  - intros H. inv_bind H. eauto.
  - by intros (h & -> & Hs).
Qed.

Lemma from_food_nutrients_Ok (food_nutrients : json) (m : Macros) :
  from_food_nutrients food_nutrients = Ok m ↔
  ∃ h s, fill_heaps food_nutrients = Ok h ∧ select h = Ok s ∧ finish s = Ok m.
Proof.
  unfold from_food_nutrients. split.
  - intros H. inv_bind H. apply selection_Ok in Ha as (h & Hh & Hs). eauto.
  - intros (h & s & Hh & Hs & Hf).
    assert (Hsel : selection food_nutrients = Ok s) by (apply selection_Ok; eauto).
    by rewrite Hsel.
Qed.

Lemma number_Ok (v : json) (q : Q) : number v = Ok q ↔ as_number v = Some q.
Proof. unfold number. destruct (as_number v); split; intros H; congruence. Qed.

(** The fields of the result in terms of the six selected values. *)
Lemma finish_Ok (s : Selected) (m : Macros) :
  finish s = Ok m →
  ∃ cal f c fi su p,
    number (sel_fat s) = Ok f ∧ number (sel_carbs s) = Ok c
    ∧ number (sel_fiber s) = Ok fi ∧ number (sel_sugars s) = Ok su
    ∧ number (sel_protein s) = Ok p
    ∧ (if py_eq (sel_calories s) (JNum 0) then cal = (p * 4 + c * 4 + f * 9)%Q
       else number (sel_calories s) = Ok cal)
    ∧ m = mkMacros (round1 cal) (round1 f) (round1 c) (round1 fi) (round1 su) (round1 p).
Proof.
  unfold finish. intros H.
  inv_bind H. inv_bind H. inv_bind H. inv_bind H. inv_bind H. inv_bind H.
  injection H as <-.
  exists a4, a, a0, a1, a2, a3. repeat (split; [done|]). split; [|done].
  destruct (py_eq _ _); [by injection Ha4 as <-|done].
Qed.

Lemma from_food_nutrients_selection (food_nutrients : json) :
  from_food_nutrients food_nutrients =
  let* s := selection food_nutrients in finish s.
Proof. reflexivity. Qed.

(** C4.  Atwater fallback: whenever the value selected for calories
    equals 0.0, the calories of the result are protein*4 + carbs*4 + fat*9
    over the values selected for protein, carbs and fat (the values before
    rounding), rounded like every field; and the measurements
    protein = 10, fat = 5, carbs = 20 without a calorie measurement give
    165 calories. *)
Theorem C4_atwater_fallback :
  (∀ food_nutrients s m,
     selection food_nutrients = Ok s →
     from_food_nutrients food_nutrients = Ok m →
     py_eq (sel_calories s) (JNum 0) = true →
     ∃ p c f, number (sel_protein s) = Ok p ∧ number (sel_carbs s) = Ok c
       ∧ number (sel_fat s) = Ok f
       ∧ calories m = round1 (p * 4 + c * 4 + f * 9))
  ∧ from_food_nutrients
      (JArr [measurement "203" 10; measurement "204" 5; measurement "205" 20])
    = Ok (mkMacros 165 5 20 0 0 10).
Proof.
  split; [|reflexivity].
  intros fn s m Hs Hm Hzero.
  rewrite from_food_nutrients_selection, Hs in Hm. simpl in Hm.
  apply finish_Ok in Hm as (cal & f & c & fi & su & p & Hf & Hc & _ & _ & Hp & Hcal & ->).
  rewrite Hzero in Hcal. subst cal.
  by exists p, c, f.
Qed.

Lemma C4_atwater_fallback_witness :
  let fn := JArr [measurement "203" 10; measurement "204" 5; measurement "205" 20] in
  let s := mkSelected (JNum 0) (JNum 5) (JNum 20) (JNum 0) (JNum 0) (JNum 10) in
  let m := mkMacros 165 5 20 0 0 10 in
  selection fn = Ok s ∧ from_food_nutrients fn = Ok m
  ∧ py_eq (sel_calories s) (JNum 0) = true
  ∧ ∃ p c f, number (sel_protein s) = Ok p ∧ number (sel_carbs s) = Ok c
      ∧ number (sel_fat s) = Ok f
      ∧ calories m = round1 (p * 4 + c * 4 + f * 9).
Proof.
  intros fn s m.
  assert (H1 : selection fn = Ok s) by reflexivity.
  assert (H2 : from_food_nutrients fn = Ok m) by reflexivity.
  assert (H3 : py_eq (sel_calories s) (JNum 0) = true) by reflexivity.
  repeat (split; [assumption|]).
  exact (proj1 C4_atwater_fallback fn s m H1 H2 H3).
Defined.

(** ** Foods *)

Arguments from_food_nutrients : simpl never.
Arguments round1 : simpl never.

Lemma from_food_nutrients_nil : from_food_nutrients (JArr []) = Ok zero_macros.
Proof. reflexivity. Qed.

(** C7.  Sentinel fallback and graceful degradation: a food whose
    portions list and nutrients list are both empty is assembled, with
    weight 100.0, no volume, and the six macros equal to 0.0. *)
Theorem C7_empty_food (src : string) (food_data fdcId description : json) :
  subscript food_data "fdcId" = Ok fdcId →
  subscript food_data "description" = Ok description →
  subscript food_data "foodPortions" = Ok (JArr []) →
  subscript food_data "foodNutrients" = Ok (JArr []) →
  Food_init src food_data
  = Ok {| source := src; fdc_id := fdcId; name := description;
          food_weight := 100; food_volume := None;
          macros := mkMacros 0 0 0 0 0 0 |}.
Proof.
  intros H1 H2 H3 H4. unfold Food_init, resolve_portion, select_portion.
  rewrite H1, H2, H3, H4. reflexivity.
Qed.

Lemma C7_empty_food_witness :
  let d := food 1 "Salt, table" [] [] in
  subscript d "fdcId" = Ok (JNum 1)
  ∧ subscript d "description" = Ok (JStr "Salt, table")
  ∧ subscript d "foodPortions" = Ok (JArr [])
  ∧ subscript d "foodNutrients" = Ok (JArr [])
  ∧ Food_init "SR Legacy" d
    = Ok {| source := "SR Legacy"; fdc_id := JNum 1; name := JStr "Salt, table";
            food_weight := 100; food_volume := None;
            macros := mkMacros 0 0 0 0 0 0 |}.
Proof.
  intros d.
  assert (H1 : subscript d "fdcId" = Ok (JNum 1)) by reflexivity.
  assert (H2 : subscript d "description" = Ok (JStr "Salt, table")) by reflexivity.
  assert (H3 : subscript d "foodPortions" = Ok (JArr [])) by reflexivity.
  assert (H4 : subscript d "foodNutrients" = Ok (JArr [])) by reflexivity.
  repeat (split; [assumption|]).
  exact (C7_empty_food "SR Legacy" d _ _ H1 H2 H3 H4).
Defined.

(** C2.  kJ conversion, as the code has it: a list whose only calorie
    entry has the identifier '268' and the amount 1000 resolves calories
    to 1000.0, not to 239.0.  The identifier is a string, so the test
    [nutrient_num == 268] against the number fails and the amount is not
    multiplied; with the number 268 as identifier the amount is
    multiplied, and the entry is then dropped because the table has
    string keys only. *)
Theorem C2_kJ_amount_not_converted :
  from_food_nutrients (JArr [measurement "268" 1000]) = Ok (mkMacros 1000 0 0 0 0 0)
  ∧ read_food_nutrient (measurement "268" 1000) = Ok (JStr "268", JNum 1000)
  ∧ read_food_nutrient
      (JObj [("nutrient", JObj [("number", JNum 268)]); ("amount", JNum 1000)])
    = Ok (JNum 268, JNum (1000 * (239 # 1000)))
  ∧ from_food_nutrients
      (JArr [JObj [("nutrient", JObj [("number", JNum 268)]); ("amount", JNum 1000)]])
    = Ok zero_macros.
Proof. repeat split; reflexivity. Qed.

Lemma scale_macros_comp (m : Macros) (x y : Q) :
  (x == y)%Q → scale_macros m x = scale_macros m y.
Proof.
  intros H. unfold scale_macros.
  f_equal; apply round1_comp; by rewrite H.
Qed.

(** C5.  Portion selection and rescaling: of a cup portion (amount 1,
    120 g) and a tablespoon portion (amount 1, 15 g), in either order, the
    cup portion is selected (volume 236.5875 against 14.78672), the
    weight of the food is 120.0, and every macro M per 100 g becomes
    round(M * 1.2, 1). *)
Theorem C5_portion_selection_and_rescaling
    (src : string) (food_data fdcId description foodNutrients : json)
    (l : list json) (m : Macros) :
  subscript food_data "fdcId" = Ok fdcId →
  subscript food_data "description" = Ok description →
  subscript food_data "foodPortions" = Ok (JArr l) →
  l = [cup_portion; tbsp_portion] ∨ l = [tbsp_portion; cup_portion] →
  subscript food_data "foodNutrients" = Ok foodNutrients →
  from_food_nutrients foodNutrients = Ok m →
  select_portion food_data
  = Ok {| volume := 2365875 # 10000; weight := 120; quantity := 1;
          descriptor := JStr "cup" |}
  ∧ Food_init src food_data
    = Ok {| source := src; fdc_id := fdcId; name := description;
            food_weight := 120; food_volume := Some (1183 # 5);
            macros := {| calories := round1 (calories m * (12 # 10));
                         fat := round1 (fat m * (12 # 10));
                         carbs := round1 (carbs m * (12 # 10));
                         fiber := round1 (fiber m * (12 # 10));
                         sugars := round1 (sugars m * (12 # 10));
                         protein := round1 (protein m * (12 # 10)) |} |}.
Proof.
  intros H1 H2 H3 Hl H4 Hm.
  assert (Hsel : select_portion food_data
    = Ok {| volume := 2365875 # 10000; weight := 120; quantity := 1;
            descriptor := JStr "cup" |}).
  { unfold select_portion. rewrite H3. destruct Hl as [-> | ->]; reflexivity. }
  split; [done|].
  unfold Food_init, resolve_portion. rewrite H1, H2, Hsel. cbn [bind].
  rewrite H4. cbn [bind]. rewrite Hm. cbn [bind].
  change (round1 (weight _)) with 120%Q.
  change (round1 (volume _)) with (1183 # 5)%Q.
  change (negb (Qeq_bool 120 100)) with true. cbv iota.
  do 2 f_equal.
  apply (scale_macros_comp m (120 / 100) (12 # 10)). reflexivity.
Qed.

Lemma C5_portion_selection_and_rescaling_witness :
  let nutrients := JArr [measurement "203" 10; measurement "204" (1 # 4)] in
  let d := food 2 "Oil" [measurement "203" 10; measurement "204" (1 # 4)]
                [tbsp_portion; cup_portion] in
  let m := mkMacros (211 # 5) (1 # 5) 0 0 0 10 in
  from_food_nutrients nutrients = Ok m
  ∧ Food_init "Foundation" d
    = Ok {| source := "Foundation"; fdc_id := JNum 2; name := JStr "Oil";
            food_weight := 120; food_volume := Some (1183 # 5);
            macros := {| calories := round1 (calories m * (12 # 10));
                         fat := round1 (fat m * (12 # 10));
                         carbs := round1 (carbs m * (12 # 10));
                         fiber := round1 (fiber m * (12 # 10));
                         sugars := round1 (sugars m * (12 # 10));
                         protein := round1 (protein m * (12 # 10)) |} |}.
Proof.
  intros nutrients d m.
  assert (H1 : subscript d "fdcId" = Ok (JNum 2)) by reflexivity.
  assert (H2 : subscript d "description" = Ok (JStr "Oil")) by reflexivity.
  assert (H3 : subscript d "foodPortions" = Ok (JArr [tbsp_portion; cup_portion]))
    by reflexivity.
  assert (H4 : subscript d "foodNutrients" = Ok nutrients) by reflexivity.
  assert (H5 : from_food_nutrients nutrients = Ok m) by reflexivity.
  split; [exact H5|].
  exact (proj2 (C5_portion_selection_and_rescaling "Foundation" d _ _ _ _ _
                  H1 H2 H3 (or_intror eq_refl) H4 H5)).
Defined.

Example C5_scaled_values :
  Food_init "Foundation"
    (food 2 "Oil" [measurement "203" 10; measurement "204" (1 # 4)]
          [tbsp_portion; cup_portion])
  = Ok {| source := "Foundation"; fdc_id := JNum 2; name := JStr "Oil";
          food_weight := 120; food_volume := Some (1183 # 5);
          macros := mkMacros (253 # 5) (1 # 5) 0 0 0 12 |}.
Proof. reflexivity. Qed.

(** ** Selection *)

Lemma select_Ok (h : heaps) (s : Selected) :
  select h = Ok s ↔
  pop_amount h CALORIES = Ok (sel_calories s)
  ∧ pop_amount h FAT = Ok (sel_fat s)
  ∧ pop_amount h CARBS = Ok (sel_carbs s)
  ∧ pop_amount h FIBER = Ok (sel_fiber s)
  ∧ pop_amount h SUGARS = Ok (sel_sugars s)
  ∧ pop_amount h PROTEIN = Ok (sel_protein s).
Proof.
  unfold select. split.
  - intros H. do 6 inv_bind H. injection H as <-. simpl. done.
  - intros (-> & -> & -> & -> & -> & ->). by destruct s.
Qed.

(** A selected value is the amount of the sentinel or of a measurement of
    the category, and no item of the heap has a smaller priority number
    than the one it came with. *)
Lemma pop_amount_spec (l : list json) (h : heaps) (c : NutrientCategory) (v : json) :
  fill_heaps (JArr l) = Ok h → pop_amount h c = Ok v →
  ∃ p, ((p, v) = sentinel ∨ ∃ e, e ∈ l ∧ measured e = Ok (Some (c, (p, v))))
    ∧ ∀ e p' v', e ∈ l → measured e = Ok (Some (c, (p', v'))) → p ≤ p'.
Proof.
  intros Hh Hpop.
  destruct (fill_heaps_spec l h Hh c) as [Hord Hmem].
  apply pop_amount_root in Hpop as ([p v0] & Hroot & ->). simpl.
  exists p. split.
  - apply Hmem. apply list_elem_of_lookup. by exists 0.
  - intros e p' v' He Hme.
    assert (Hin : (p', v') ∈ h c) by (apply Hmem; right; by exists e).
    apply list_elem_of_lookup in Hin as [i Hi].
    apply (root_minimal fst (h c) (p, v0) Hord Hroot i (p', v') Hi).
Qed.

Lemma Qplus_nonneg (x y : Q) : (0 <= x)%Q → (0 <= y)%Q → (0 <= x + y)%Q.
Proof.
  intros Hx Hy. apply (Qle_trans _ (0 + 0)); [by compute|].
  by apply Qplus_le_compat.
Qed.

Lemma atwater_nonneg (p c f : Q) :
  (0 <= p)%Q → (0 <= c)%Q → (0 <= f)%Q → (0 <= p * 4 + c * 4 + f * 9)%Q.
Proof.
  intros Hp Hc Hf.
  repeat apply Qplus_nonneg; apply Qmult_le_0_compat; (done || by compute).
Qed.

(** C8, amended.  Macros non-negativity: when every amount of the list
    that is a number is non-negative, the six fields of a resolved Macros
    value are non-negative. *)
Theorem C8_macros_nonneg (l : list json) (m : Macros) :
  (∀ e a q, e ∈ l → subscript e "amount" = Ok a → as_number a = Some q → (0 <= q)%Q) →
  from_food_nutrients (JArr l) = Ok m →
  (0 <= calories m)%Q ∧ (0 <= fat m)%Q ∧ (0 <= carbs m)%Q
  ∧ (0 <= fiber m)%Q ∧ (0 <= sugars m)%Q ∧ (0 <= protein m)%Q.
Proof.
  intros Hnn Hm.
  apply from_food_nutrients_Ok in Hm as (h & s & Hh & Hs & Hf).
  assert (Hsel : ∀ c v q, pop_amount h c = Ok v → number v = Ok q → (0 <= q)%Q).
  { intros c v q Hpop Hq. apply number_Ok in Hq.
    destruct (pop_amount_spec l h c v Hh Hpop) as (p & [Hsen|(e & He & Hme)] & _).
    - injection Hsen as -> ->. simpl in Hq. by injection Hq as <-.
    - apply measured_Some in Hme as (num & md & (nutrient & _ & _ & Ha) & _).
      by apply (Hnn e v q). }
  apply select_Ok in Hs as (Hcal & Hfat & Hcarbs & Hfiber & Hsugars & Hprotein).
  apply finish_Ok in Hf as (cal & f & c & fi & su & p & Hf & Hc & Hfi & Hsu & Hp & Hcal' & ->).
  simpl.
  pose proof (Hsel FAT _ _ Hfat Hf).
  pose proof (Hsel CARBS _ _ Hcarbs Hc).
  pose proof (Hsel FIBER _ _ Hfiber Hfi).
  pose proof (Hsel SUGARS _ _ Hsugars Hsu).
  pose proof (Hsel PROTEIN _ _ Hprotein Hp).
  repeat split; try (by apply round1_nonneg).
  apply round1_nonneg.
  destruct (py_eq _ _); [|exact (Hsel CALORIES _ _ Hcal Hcal')].
  subst cal. apply atwater_nonneg; done.
Qed.

Lemma C8_macros_nonneg_witness :
  let l := [measurement "203" 10; measurement "204" 5; measurement "205" 20] in
  let m := mkMacros 165 5 20 0 0 10 in
  (0 <= calories m)%Q ∧ (0 <= fat m)%Q ∧ (0 <= carbs m)%Q
  ∧ (0 <= fiber m)%Q ∧ (0 <= sugars m)%Q ∧ (0 <= protein m)%Q.
Proof.
  intros l m. apply (C8_macros_nonneg l m); [|reflexivity].
  intros e a q He Ha Hq.
  repeat (apply elem_of_cons in He as [->|He];
          [injection Ha as <-; injection Hq as <-; by compute|]).
  by apply elem_of_nil in He.
Defined.

(** C8 does not hold for every list: nothing in the resolution looks at
    the sign of an amount, so a negative amount gives negative fields. *)
Lemma C8_counterexample :
  from_food_nutrients (JArr [measurement "203" (-5)])
  = Ok (mkMacros (-20) 0 0 0 0 (-5))
  ∧ ¬ (0 <= protein (mkMacros (-20) 0 0 0 0 (-5)))%Q.
Proof. split; [reflexivity|]. by compute. Qed.

(** ** Priority resolution *)

(** Every priority of the table is below the priority of the sentinel. *)
Lemma priority_lt_sentinel (num : string) (md : NutrientMetadata) :
  assoc num _NUTRIENT_NUM_METADATA_MAP = Some md → priority md < 10.
Proof.
  unfold _NUTRIENT_NUM_METADATA_MAP, assoc. intros H.
  repeat (destruct (String.eqb num _) in H; [injection H as <-; simpl; lia|]).
  discriminate.
Qed.

Lemma item_lt_numeric (x y : item) :
  numeric_item x → numeric_item y → is_Ok (item_lt x y).
Proof.
  destruct x as [p v], y as [p' v']. intros [q Hq] [q' Hq']. simpl in *. subst.
  unfold item_lt. simpl.
  destruct (negb (p =? p')); [by eexists|].
  destruct (negb (Qeq_bool q q')); by eexists.
Qed.

(** When the amounts that reach the heaps are numbers, the selection
    returns. *)
Lemma selection_total (l : list json) :
  (∀ e, e ∈ l → ∃ r, measured e = Ok r ∧ ∀ c x, r = Some (c, x) → numeric_item x) →
  ∃ h s, fill_heaps (JArr l) = Ok h ∧ select h = Ok s.
Proof.
  intros Hl.
  destruct (fill_heaps_total numeric_item item_lt_numeric l) as (h & Hh & Hall);
    [by exists 0%Q|done|].
  exists h.
  assert (Hpop : ∀ c, ∃ v, pop_amount h c = Ok v).
  { intros c.
    destruct (pop_amount_total numeric_item item_lt_numeric h c (Hall c)) as (x & _ & Hx).
    - destruct (fill_heaps_spec l h Hh c) as [_ Hmem].
      intros Hnil. assert (Hs : sentinel ∈ h c) by (apply Hmem; by left).
      rewrite Hnil in Hs. by apply elem_of_nil in Hs.
    - by eexists. }
  destruct (Hpop CALORIES) as [v1 H1], (Hpop FAT) as [v2 H2], (Hpop CARBS) as [v3 H3],
    (Hpop FIBER) as [v4 H4], (Hpop SUGARS) as [v5 H5], (Hpop PROTEIN) as [v6 H6].
  exists (mkSelected v1 v2 v3 v4 v5 v6). split; [done|].
  by apply select_Ok.
Qed.

(** The value selected for a category is the amount of the measurement
    with the lowest priority number, whatever else the list holds and in
    whatever order, as soon as the selection returns. *)
Lemma selection_lowest_priority
    (l : list json) (s : Selected) (c : NutrientCategory)
    (e1 : json) (p1 : nat) (v1 : json) :
  selection (JArr l) = Ok s →
  e1 ∈ l → measured e1 = Ok (Some (c, (p1, v1))) →
  (∀ e p v, e ∈ l → measured e = Ok (Some (c, (p, v))) → p1 < p ∨ v = v1) →
  selected_of c s = v1.
Proof.
  intros Hs He1 Hm1 Hothers.
  apply selection_Ok in Hs as (h & Hh & Hs).
  assert (Hpop : pop_amount h c = Ok (selected_of c s)).
  { apply select_Ok in Hs as (? & ? & ? & ? & ? & ?). by destruct c. }
  destruct (pop_amount_spec l h c _ Hh Hpop) as (p & Hfrom & Hmin).
  pose proof (Hmin e1 _ _ He1 Hm1) as Hle.
  destruct Hfrom as [[= -> Hv] | (e & He & Hme)].
  - apply measured_Some in Hm1 as (num & md & _ & Hmd & _ & ->).
    apply priority_lt_sentinel in Hmd. lia.
  - destruct (Hothers e p _ He Hme) as [Hlt | Heq]; [lia|done].
Qed.

Lemma skipped_measured (e : json) : skipped e → measured e = Ok None.
Proof.
  intros [d H | d n Hn H | d n num Hn Hnum H | e' num amount (n & Hn & Hnum & Ha) H];
    unfold measured, read_food_nutrient; simpl.
  - by rewrite H.
  - rewrite Hn. simpl. by rewrite H.
  - rewrite Hn. simpl. rewrite Hnum. simpl. by rewrite H.
  - rewrite Hn. simpl. rewrite Hnum. simpl. rewrite Ha. simpl. by rewrite H.
Qed.

Lemma regular_measurement_measured (e : json) :
  regular_measurement e →
  ∃ r, measured e = Ok r ∧ ∀ c x, r = Some (c, x) → numeric_item x.
Proof.
  intros [(num & q & Hr) | Hs].
  - destruct (assoc num _NUTRIENT_NUM_METADATA_MAP) as [md|] eqn:Hmd.
    + exists (Some (category md, (priority md, JNum q))). split.
      * apply measured_Some. by exists num, md.
      * intros c x [= <- <-]. by exists q.
    + exists None. split; [|done].
      apply skipped_measured. by eapply skipped_unknown.
  - exists None. split; [by apply skipped_measured|done].
Qed.

Lemma finish_total (s : Selected) :
  (∀ c, ∃ q, selected_of c s = JNum q) → is_Ok (finish s).
Proof.
  intros H. destruct s as [v1 v2 v3 v4 v5 v6].
  destruct (H CALORIES) as [q1 H1], (H FAT) as [q2 H2], (H CARBS) as [q3 H3],
    (H FIBER) as [q4 H4], (H SUGARS) as [q5 H5], (H PROTEIN) as [q6 H6].
  simpl in *. subst. unfold finish. simpl.
  destruct (Qeq_bool q1 0); by eexists.
Qed.

Lemma from_food_nutrients_regular (l : list json) :
  Forall regular_measurement l → is_Ok (from_food_nutrients (JArr l)).
Proof.
  intros Hl.
  assert (Hmeas : ∀ e, e ∈ l →
    ∃ r, measured e = Ok r ∧ ∀ c x, r = Some (c, x) → numeric_item x).
  { intros e He. apply regular_measurement_measured.
    by apply (proj1 (Forall_forall _ _) Hl). }
  destruct (selection_total l Hmeas) as (h & s & Hh & Hs).
  assert (Hpop : ∀ c, pop_amount h c = Ok (selected_of c s)).
  { apply select_Ok in Hs as (? & ? & ? & ? & ? & ?). by intros []. }
  destruct (finish_total s) as [m Hm].
  { intros c.
    destruct (pop_amount_spec l h c _ Hh (Hpop c)) as (p & [Hsen | (e & He & Hme)] & _).
    - injection Hsen as _ ->. by exists 0%Q.
    - destruct (Hmeas e He) as (r & Hr & Hnum).
      rewrite Hr in Hme. injection Hme as ->.
      destruct (Hnum c (p, selected_of c s) eq_refl) as [q Hq]. by exists q. }
  exists m. apply from_food_nutrients_Ok. by exists h, s.
Qed.






(** ** Exceptions that reach the caller *)

Lemma raises_not_Ok {A : Type} (r : result A) : raises r → ¬ is_Ok r.
Proof. intros [e ->] [a Ha]. discriminate. Qed.

Lemma bind_raises_l {A B : Type} (r : result A) (k : A → result B) :
  raises r → raises (bind r k).
Proof. intros [e ->]. by exists e. Qed.

Lemma bind_raises_r {A B : Type} (r : result A) (k : A → result B) :
  (∀ a, raises (k a)) → raises (bind r k).
Proof. intros Hk. destruct r as [a|e]; simpl; [apply Hk|by exists e]. Qed.

Lemma map_result_raises {A B : Type} (f : A → result B) (l : list A) (x : A) :
  x ∈ l → raises (f x) → raises (map_result f l).
Proof.
  intros Hx Hfx. induction l as [|y l IH]; [by apply elem_of_nil in Hx|].
  simpl. apply elem_of_cons in Hx as [<- | Hx].
  - by apply bind_raises_l.
  - apply bind_raises_r. intros b. apply bind_raises_l. by apply IH.
Qed.

Lemma subscript_Ok (v : json) (k : string) (x : json) :
  subscript v k = Ok x ↔ ∃ d, v = JObj d ∧ assoc k d = Some x.
Proof.
  split.
  - destruct v; simpl; try done. destruct (assoc k d) eqn:E; [|done].
    intros [= <-]. by exists d.
  - intros (d & -> & H). simpl. by rewrite H.
Qed.

Lemma extend_foods_raises (all_food_data : json) (key label : string)
    (foods : list Food) (l : list json) (x : json) :
  subscript all_food_data key = Ok (JArr l) → x ∈ l → raises (Food_init label x) →
  raises (extend_foods all_food_data key label foods).
Proof.
  intros Hsub Hx Hraise. unfold extend_foods.
  pose proof Hsub as Hsub'. apply subscript_Ok in Hsub' as (d & -> & Hd).
  simpl. rewrite Hd. simpl.
  apply bind_raises_l. by eapply map_result_raises.
Qed.

(** C3, amended.  A food record without the
    [foodNutrients] key is not assembled: the construction raises, with
    [KeyError] from the lookup of the key when the steps before it
    succeed, and a run over a document that holds the record in either
    collection raises too. *)
Theorem C3_missing_foodNutrients_raises (src : string) (d : list (string * json)) :
  assoc "foodNutrients" d = None →
  raises (Food_init src (JObj d))
  ∧ (is_Ok (subscript (JObj d) "fdcId") → is_Ok (subscript (JObj d) "description") →
     is_Ok (resolve_portion (JObj d)) →
     Food_init src (JObj d) = Raise KeyError)
  ∧ (∀ all_food_data l,
       JObj d ∈ l →
       subscript all_food_data "FoundationFoods" = Ok (JArr l)
       ∨ subscript all_food_data "SRLegacyFoods" = Ok (JArr l) →
       raises (build_dataset all_food_data)).
Proof.
  intros Hmiss.
  assert (Hraise : ∀ label, raises (Food_init label (JObj d))).
  { intros label. unfold Food_init.
    do 3 (apply bind_raises_r; intros ?). destruct a1 as [w v].
    apply bind_raises_l. simpl. rewrite Hmiss. by exists KeyError. }
  split; [apply Hraise|]. split.
  - intros [x1 H1] [x2 H2] [[w v] H3]. unfold Food_init.
    rewrite H1, H2, H3. simpl. by rewrite Hmiss.
  - intros all_food_data l Hin [Hf | Hs]; unfold build_dataset.
    + apply bind_raises_l. by eapply extend_foods_raises.
    + apply bind_raises_r. intros foods. apply bind_raises_l.
      by eapply extend_foods_raises.
Qed.

Lemma C3_missing_foodNutrients_raises_witness :
  let d := [("fdcId", JNum 7); ("description", JStr "Water"); ("foodPortions", JArr [])] in
  raises (Food_init "Foundation" (JObj d))
  ∧ Food_init "Foundation" (JObj d) = Raise KeyError
  ∧ raises (build_dataset (JObj [("SRLegacyFoods", JArr [food 1 "Salt" [] []; JObj d])])).
Proof.
  intros d.
  destruct (C3_missing_foodNutrients_raises "Foundation" d eq_refl) as (H1 & H2 & H3).
  split; [exact H1|]. split.
  - apply H2; by eexists.
  - apply (H3 _ [food 1 "Salt" [] []; JObj d]).
    + right. left.
    + right. reflexivity.
Defined.

(** C3 does not hold as the specification words it: the lookup of
    [foodNutrients] is outside every [try], so the record is not
    assembled and the run stops. *)
Lemma C3_counterexample :
  Food_init "Foundation"
    (JObj [("fdcId", JNum 7); ("description", JStr "Water"); ("foodPortions", JArr [])])
  = Raise KeyError
  ∧ build_dataset
      (JObj [("FoundationFoods",
              JArr [food 1 "Salt" [] [];
                    JObj [("fdcId", JNum 7); ("description", JStr "Water");
                          ("foodPortions", JArr [])]])])
    = Raise KeyError.
Proof. split; reflexivity. Qed.

(** ** Portions *)

Lemma gt_zero_cases (v : json) :
  (∃ b, gt_zero v = Ok b) ∨ gt_zero v = Raise TypeError.
Proof.
  unfold gt_zero, py_gt. simpl. destruct (as_number v); [left; by eexists|by right].
Qed.

Lemma unit_ml_lookup_cases (u : json) :
  (∃ r, unit_ml_lookup u = Ok r) ∨ unit_ml_lookup u = Raise TypeError.
Proof.
  unfold unit_ml_lookup.
  destruct u; try (by right); try (left; by eexists).
  destruct b; left; by eexists.
Qed.

Lemma from_food_portion_fields (p u q a w : json) :
  has_fields p u q a w →
  from_food_portion p =
  let* unit_ml := unit_ml_lookup u in
  match unit_ml with
  | None => Ok None
  | Some ml =>
      if is_None q then Ok None else
      let* quantity_pos := gt_zero q in
      if negb quantity_pos then Ok None else
      if is_None w then Ok None else
      let* weight_pos := gt_zero w in
      if negb weight_pos then Ok None else
      match as_number q, as_number w with
      | Some x, Some y =>
          Ok (Some {| volume := ml * x; weight := y; quantity := x; descriptor := a |})
      | _, _ => Raise TypeError
      end
  end.
Proof.
  intros (d & mu & -> & Hmu & Hid & Hq & Ha & Hw).
  unfold from_food_portion. simpl. rewrite Hmu. simpl. rewrite Hid, Hq, Ha. simpl.
  rewrite Hw. simpl.
  destruct (unit_ml_lookup_cases u) as [[[ml|] ->] | ->]; simpl; try done.
  destruct (is_None q); [done|].
  destruct (gt_zero_cases q) as [[[] ->] | ->]; simpl; try done.
  destruct (is_None w); [done|].
  destruct (gt_zero_cases w) as [[[] ->] | ->]; simpl; try done.
  destruct (as_number q), (as_number w); done.
Qed.

Lemma gt_zero_number (v : json) (x : Q) :
  as_number v = Some x → gt_zero v = Ok (Qlt_bool 0 x).
Proof.
  intros H. unfold gt_zero, py_gt. simpl. by rewrite H.
Qed.

Lemma is_None_number (v : json) (x : Q) : as_number v = Some x → is_None v = false.
Proof. by destruct v. Qed.

Lemma rejected_from_food_portion (p : json) :
  rejected p → from_food_portion p = Ok None.
Proof.
  intros H. destruct H as
    [p Hl | p u q a w Hf Hu | p u a w ml Hf Hu | p u q a w ml x Hf Hu Hq Hx
     | p u q a ml x Hf Hu Hq Hx | p u q a w ml x y Hf Hu Hq Hx Hw Hy].
  - destruct Hl as (d & -> & [Hmu | (mu & Hmu & Hk)]);
      unfold from_food_portion; simpl; rewrite Hmu; simpl; [done|].
    destruct (assoc "id" mu) eqn:E1; simpl; [|done].
    destruct (assoc "amount" d) eqn:E2; simpl; [|done].
    destruct (assoc "abbreviation" mu) eqn:E3; simpl; [|done].
    destruct (assoc "gramWeight" d) eqn:E4; simpl; [|done].
    destruct Hk as [? | [? | [? | ?]]]; congruence.
  - rewrite (from_food_portion_fields _ _ _ _ _ Hf), Hu. done.
  - rewrite (from_food_portion_fields _ _ _ _ _ Hf), Hu. done.
  - rewrite (from_food_portion_fields _ _ _ _ _ Hf), Hu. simpl.
    rewrite (is_None_number _ _ Hq), (gt_zero_number _ _ Hq). simpl.
    apply Qlt_bool_false in Hx. by rewrite Hx.
  - rewrite (from_food_portion_fields _ _ _ _ _ Hf), Hu. simpl.
    rewrite (is_None_number _ _ Hq), (gt_zero_number _ _ Hq). simpl.
    apply Qlt_bool_true in Hx. by rewrite Hx.
  - rewrite (from_food_portion_fields _ _ _ _ _ Hf), Hu. simpl.
    rewrite (is_None_number _ _ Hq), (gt_zero_number _ _ Hq). simpl.
    apply Qlt_bool_true in Hx. rewrite Hx. simpl.
    rewrite (is_None_number _ _ Hw), (gt_zero_number _ _ Hw). simpl.
    apply Qlt_bool_false in Hy. by rewrite Hy.
Qed.

Lemma map_result_rejected (l : list json) :
  Forall rejected l →
  ∃ vws, map_result from_food_portion l = Ok vws ∧ omap id vws = [].
Proof.
  induction 1 as [|p l Hp _ (vws & Hvws & Hnone)]; simpl.
  - by exists [].
  - rewrite (rejected_from_food_portion p Hp), Hvws. simpl.
    exists (None :: vws). split; [done|]. simpl. done.
Qed.

Lemma malformed_from_food_portion (p : json) :
  malformed p → from_food_portion p = Raise TypeError.
Proof.
  intros [p' Hnd | d mu Hmu Hnd | p' u q a w Hf Hu | p' u q a w ml Hf Hu Hq Hn
          | p' u q a w ml x Hf Hu Hq Hx Hw Hn].
  - destruct p' as [| | | | |d]; try done. by destruct (Hnd d).
  - unfold from_food_portion. simpl. rewrite Hmu. simpl.
    destruct mu as [| | | | |m]; try done. by destruct (Hnd m).
  - rewrite (from_food_portion_fields _ _ _ _ _ Hf).
    by destruct Hu as [[l ->] | [m ->]].
  - rewrite (from_food_portion_fields _ _ _ _ _ Hf), Hu. simpl.
    destruct q; try done; simpl in Hn; by destruct b.
  - rewrite (from_food_portion_fields _ _ _ _ _ Hf), Hu. simpl.
    rewrite (is_None_number _ _ Hq), (gt_zero_number _ _ Hq). simpl.
    apply Qlt_bool_true in Hx. rewrite Hx. simpl.
    destruct w; try done; simpl in Hn; by destruct b.
Qed.

Lemma map_result_malformed (l1 l2 : list json) (p : json) :
  Forall rejected l1 → malformed p →
  map_result from_food_portion (l1 ++ p :: l2) = Raise TypeError.
Proof.
  intros Hrej Hp. induction Hrej as [|x l1 Hx _ IH]; simpl.
  - by rewrite (malformed_from_food_portion p Hp).
  - by rewrite (rejected_from_food_portion x Hx), IH.
Qed.

Lemma Food_init_resolve_portion_raises (src : string) (d : list (string * json)) (e : exn) :
  is_Some (assoc "fdcId" d) → is_Some (assoc "description" d) →
  resolve_portion (JObj d) = Raise e → Food_init src (JObj d) = Raise e.
Proof.
  intros [x1 H1] [x2 H2] H. unfold Food_init. simpl. rewrite H1, H2. cbn [bind].
  by rewrite H.
Qed.

(** C6, amended.  Portion resolution falls back to the weight 100.0 and
    no volume, and raises nothing, when the food record has no
    [foodPortions] key or the list under it is empty or holds rejected
    records only.  Malformed entries are not treated like that: when the
    list holds, after rejected records only, an entry that is malformed,
    the resolution raises [TypeError], and so does the construction of
    the food; and the same when the value under [foodPortions] is null, a
    boolean or a number, which cannot be iterated. *)
Theorem C6_no_valid_candidate (food_data : json) :
  (no_valid_candidate food_data → resolve_portion food_data = Ok (100%Q, None))
  ∧ (∀ d l1 p l2,
       food_data = JObj d →
       assoc "foodPortions" d = Some (JArr (l1 ++ p :: l2)) →
       Forall rejected l1 → malformed p →
       resolve_portion food_data = Raise TypeError
       ∧ ∀ src, is_Some (assoc "fdcId" d) → is_Some (assoc "description" d) →
           Food_init src food_data = Raise TypeError)
  ∧ (∀ d v,
       food_data = JObj d → assoc "foodPortions" d = Some v → not_iterable v →
       resolve_portion food_data = Raise TypeError
       ∧ ∀ src, is_Some (assoc "fdcId" d) → is_Some (assoc "description" d) →
           Food_init src food_data = Raise TypeError).
Proof.
  split; [|split].
  - intros (d & -> & [Hmiss | (l & Hl & Hrej)]);
      unfold resolve_portion, select_portion; simpl.
    + by rewrite Hmiss.
    + rewrite Hl. simpl.
      destruct (map_result_rejected l Hrej) as (vws & -> & Hnone). simpl.
      by rewrite Hnone.
  - intros d l1 p l2 -> Hl Hrej Hp.
    assert (H : resolve_portion (JObj d) = Raise TypeError).
    { unfold resolve_portion, select_portion. simpl. rewrite Hl. simpl.
      by rewrite (map_result_malformed l1 l2 p Hrej Hp). }
    split; [exact H|]. intros src H1 H2.
    by apply Food_init_resolve_portion_raises.
  - intros d v -> Hv Hni.
    assert (H : resolve_portion (JObj d) = Raise TypeError).
    { unfold resolve_portion, select_portion. simpl. rewrite Hv. simpl.
      by destruct Hni as [-> | [[b ->] | [q ->]]]. }
    split; [exact H|]. intros src H1 H2.
    by apply Food_init_resolve_portion_raises.
Qed.

Lemma C6_no_valid_candidate_witness :
  let p1 := JObj [("amount", JNum 1); ("gramWeight", JNum 28)] in
  let p2 := portion 1043 "oz" 1 28 in
  let p3 := portion 1000 "cup" 0 240 in
  let p4 := JObj [("measureUnit", JObj [("id", JNum 1001); ("abbreviation", JStr "tbsp")]);
                  ("amount", JNum 1); ("gramWeight", JNull)] in
  let p5 := JObj [("measureUnit", JObj [("id", JNum 1000); ("abbreviation", JStr "cup")]);
                  ("amount", JStr "1"); ("gramWeight", JNull)] in
  resolve_portion (food 3 "Bread" [] [p1; p2; p3; p4]) = Ok (100%Q, None)
  ∧ resolve_portion (food 3 "Bread" [] [p1; p2; p5; cup_portion]) = Raise TypeError
  ∧ Food_init "Foundation" (food 3 "Bread" [] [p1; p2; p5; cup_portion]) = Raise TypeError
  ∧ resolve_portion (JObj [("fdcId", JNum 3); ("foodPortions", JNull)]) = Raise TypeError.
Proof.
  intros p1 p2 p3 p4 p5.
  assert (H1 : rejected p1).
  { apply rejected_lacks_field. eexists. split; [reflexivity|]. by left. }
  assert (H2 : rejected p2).
  { eapply rejected_unit; [do 2 eexists; repeat split; reflexivity|reflexivity]. }
  assert (H3 : rejected p3).
  { eapply rejected_quantity_nonpos;
      [do 2 eexists; repeat split; reflexivity|reflexivity|reflexivity|by compute]. }
  assert (H4 : rejected p4).
  { eapply rejected_weight_null;
      [do 2 eexists; repeat split; reflexivity|reflexivity|reflexivity|by compute]. }
  assert (H5 : malformed p5).
  { eapply malformed_quantity;
      [do 2 eexists; repeat split; reflexivity|reflexivity|done|reflexivity]. }
  split; [|split; [|split]].
  - apply (proj1 (C6_no_valid_candidate (food 3 "Bread" [] [p1; p2; p3; p4]))).
    eexists. split; [reflexivity|]. right. eexists. split; [reflexivity|].
    repeat apply Forall_cons_2; [done..|apply Forall_nil_2].
  - eapply (proj1 (proj2 (C6_no_valid_candidate
                            (food 3 "Bread" [] [p1; p2; p5; cup_portion])))
              _ [p1; p2] p5 [cup_portion]); [reflexivity|reflexivity| |done].
    repeat apply Forall_cons_2; [done..|apply Forall_nil_2].
  - eapply (proj1 (proj2 (C6_no_valid_candidate
                            (food 3 "Bread" [] [p1; p2; p5; cup_portion])))
              _ [p1; p2] p5 [cup_portion]);
      [reflexivity|reflexivity| |done|by eexists|by eexists].
    repeat apply Forall_cons_2; [done..|apply Forall_nil_2].
  - eapply (proj2 (proj2 (C6_no_valid_candidate
                            (JObj [("fdcId", JNum 3); ("foodPortions", JNull)])))
              _ JNull); [reflexivity|reflexivity|by left].
Defined.

(** C6 does not hold for malformed entries: only [KeyError] is caught
    around a portion record, and the handler in [Food.__init__] does not
    catch [TypeError], so an entry that is not a dict, a measure unit
    that is not a dict, or an amount that is not a number raises to the
    caller. *)
Lemma C6_counterexample :
  resolve_portion (food 3 "Bread" [] [JNull]) = Raise TypeError
  ∧ resolve_portion
      (food 3 "Bread" []
         [JObj [("measureUnit", JStr "cup"); ("amount", JNum 1); ("gramWeight", JNum 120)]])
    = Raise TypeError
  ∧ resolve_portion
      (food 3 "Bread" []
         [JObj [("measureUnit", JObj [("id", JNum 1000); ("abbreviation", JStr "cup")]);
                ("amount", JStr "1"); ("gramWeight", JNum 120)]])
    = Raise TypeError
  ∧ Food_init "Foundation" (food 3 "Bread" [] [JNull]) = Raise TypeError.
Proof. repeat split; reflexivity. Qed.

(** ** Weight and volume *)

Lemma max_loop_elem {A : Type} (gt : A → A → result bool) (l : list A) (x y : A) :
  max_loop gt l x = Ok y → y = x ∨ y ∈ l.
Proof.
  revert x. induction l as [|z l IH]; intros x; simpl.
  - intros [= <-]. by left.
  - intros H. inv_bind H. apply IH in H as [-> | H].
    + destruct a; [right; by left|by left].
    + right. by right.
Qed.

Lemma py_max_elem {A : Type} (gt : A → A → result bool) (l : list A) (y : A) :
  py_max gt l = Ok y → y ∈ l.
Proof.
  destruct l as [|x l]; simpl; [done|].
  intros H. apply max_loop_elem in H as [-> | H]; [by left|by right].
Qed.

Lemma map_result_elem {A B : Type} (f : A → result B) (l : list A) (ys : list B) (y : B) :
  map_result f l = Ok ys → y ∈ ys → ∃ x, x ∈ l ∧ f x = Ok y.
Proof.
  revert ys. induction l as [|x l IH]; intros ys Hmap Hin; simpl in Hmap.
  - injection Hmap as <-. by apply elem_of_nil in Hin.
  - inv_bind Hmap. inv_bind Hmap. injection Hmap as <-.
    apply elem_of_cons in Hin as [-> | Hin].
    + exists x. split; [by left|done].
    + destruct (IH a0 Ha0 Hin) as (x' & Hx' & Hy).
      exists x'. split; [by right|done].
Qed.

(** The selected portion is one of the candidates that
    [from_food_portion] built from the list under [foodPortions]. *)
Lemma select_portion_elem (food_data : json) (c : VolumeWeight) :
  select_portion food_data = Ok c →
  ∃ foodPortions l p,
    subscript food_data "foodPortions" = Ok foodPortions
    ∧ py_iter foodPortions = Ok l
    ∧ p ∈ l ∧ from_food_portion p = Ok (Some c).
Proof.
  unfold select_portion. intros H. inv_bind H. inv_bind H. inv_bind H.
  rename a into foodPortions, a0 into l, a1 into vws.
  apply py_max_elem in H.
  assert (Hin : Some c ∈ vws).
  { apply list_elem_of_omap in H as (o & Ho & Hc). simpl in Hc. by subst. }
  destruct (map_result_elem _ _ _ _ Ha1 Hin) as (p & Hp & Hc).
  by exists foodPortions, l, p.
Qed.

Lemma resolve_portion_Ok (food_data : json) (w : Q) (v : option Q) :
  resolve_portion food_data = Ok (w, v) →
  (w = 100%Q ∧ v = None)
  ∨ ∃ c, select_portion food_data = Ok c
      ∧ w = round1 (weight c) ∧ v = Some (round1 (volume c)).
Proof.
  unfold resolve_portion.
  destruct (select_portion food_data) as [c|[]]; intros [= <- <-];
    [right; by exists c|by left..].
Qed.

Lemma Food_init_Ok (src : string) (food_data : json) (f : Food) :
  Food_init src food_data = Ok f →
  ∃ m, resolve_portion food_data = Ok (food_weight f, food_volume f)
    ∧ (let* foodNutrients := subscript food_data "foodNutrients" in
       from_food_nutrients foodNutrients) = Ok m
    ∧ macros f = (if negb (Qeq_bool (food_weight f) 100)
                  then scale_macros m (food_weight f / 100) else m)
    ∧ source f = src
    ∧ subscript food_data "fdcId" = Ok (fdc_id f)
    ∧ subscript food_data "description" = Ok (name f).
Proof.
  unfold Food_init. intros H. inv_bind H. inv_bind H. inv_bind H.
  destruct a1 as [w v]. inv_bind H. inv_bind H. injection H as <-. simpl.
  exists a2. rewrite Ha2. simpl. done.
Qed.

(** C10.  In every food that is constructed, a missing volume comes with
    the weight 100.0, a weight other than 100.0 comes with a volume, and
    a volume that is present is, like the weight, the rounded value of
    one candidate among the portions of the record: weight and volume
    are set together, from the candidate selected. *)
Theorem C10_weight_volume_together (src : string) (food_data : json) (f : Food) :
  Food_init src food_data = Ok f →
  (food_volume f = None → food_weight f = 100%Q)
  ∧ (¬ (food_weight f == 100)%Q → is_Some (food_volume f))
  ∧ (∀ v, food_volume f = Some v →
       ∃ c foodPortions l p,
         select_portion food_data = Ok c
         ∧ subscript food_data "foodPortions" = Ok foodPortions
         ∧ py_iter foodPortions = Ok l
         ∧ p ∈ l ∧ from_food_portion p = Ok (Some c)
         ∧ food_weight f = round1 (weight c) ∧ v = round1 (volume c)).
Proof.
  intros H. apply Food_init_Ok in H as (m & Hres & _).
  apply resolve_portion_Ok in Hres as [[Hw Hv] | (c & Hsel & Hw & Hv)].
  - rewrite Hw, Hv. split; [done|]. split; [|done].
    intros Hne. by destruct Hne.
  - rewrite Hv. split; [done|]. split; [by eexists|].
    intros v [= <-].
    destruct (select_portion_elem food_data c Hsel) as (fp & l & p & ? & ? & ? & ?).
    by exists c, fp, l, p.
Qed.

Lemma C10_weight_volume_together_witness :
  let d := food 2 "Oil" [] [tbsp_portion; cup_portion] in
  let f := {| source := "SR Legacy"; fdc_id := JNum 2; name := JStr "Oil";
              food_weight := 120; food_volume := Some (1183 # 5);
              macros := zero_macros |} in
  Food_init "SR Legacy" d = Ok f
  ∧ (food_volume f = None → food_weight f = 100%Q)
  ∧ (¬ (food_weight f == 100)%Q → is_Some (food_volume f))
  ∧ (∀ v, food_volume f = Some v →
       ∃ c foodPortions l p,
         select_portion d = Ok c
         ∧ subscript d "foodPortions" = Ok foodPortions
         ∧ py_iter foodPortions = Ok l
         ∧ p ∈ l ∧ from_food_portion p = Ok (Some c)
         ∧ food_weight f = round1 (weight c) ∧ v = round1 (volume c)).
Proof.
  intros d f.
  assert (H : Food_init "SR Legacy" d = Ok f) by reflexivity.
  exact (conj H (C10_weight_volume_together "SR Legacy" d f H)).
Defined.

(** ** The sort *)

Section sort_facts.
Context {A : Type} (lt : A → A → result bool).

Lemma insert_sorted_perm (x : A) (l r : list A) :
  insert_sorted lt x l = Ok r → Permutation r (x :: l).
Proof.
  revert r. induction l as [|y l IH]; intros r; simpl.
  - by intros [= <-].
  - intros H. inv_bind H. destruct a.
    + inv_bind H. injection H as <-.
      rewrite (IH a Ha0). apply perm_swap.
    + by injection H as <-.
Qed.

Lemma py_sort_perm (l r : list A) : py_sort lt l = Ok r → Permutation r l.
Proof.
  revert r. induction l as [|x l IH]; intros r; simpl.
  - by intros [= <-].
  - intros H. inv_bind H. apply insert_sorted_perm in H.
    rewrite H. constructor. by apply IH.
Qed.

Context (P : A → Prop) (le : A → A → Prop).
Hypothesis lt_total : ∀ x y, P x → P y → is_Ok (lt x y).
Hypothesis lt_true : ∀ x y, P x → P y → lt x y = Ok true → le x y.
Hypothesis lt_false : ∀ x y, P x → P y → lt x y = Ok false → le y x.
Hypothesis le_trans : ∀ x y z, le x y → le y z → le x z.

Lemma insert_sorted_sorted (x : A) (l r : list A) :
  P x → Forall P l → StronglySorted le l →
  insert_sorted lt x l = Ok r → StronglySorted le r.
Proof.
  intros Hx. revert r. induction l as [|y l IH]; intros r Hall Hsorted; simpl.
  - intros [= <-]. repeat constructor.
  - apply Forall_cons in Hall as [Hy Hall].
    apply StronglySorted_inv in Hsorted as [Hsorted Hle].
    intros H. inv_bind H. destruct a.
    + inv_bind H. injection H as <-.
      constructor; [by apply IH|].
      apply insert_sorted_perm in Ha0.
      apply Forall_forall. intros z Hz. rewrite Ha0 in Hz.
      apply elem_of_cons in Hz as [-> | Hz]; [by apply lt_true|].
      by apply (proj1 (Forall_forall _ _) Hle).
    + injection H as <-.
      assert (Hxy : le x y) by (by apply lt_false).
      constructor; [by constructor|].
      constructor; [done|].
      eapply Forall_impl; [exact Hle|]. intros z Hz. by eapply le_trans.
Qed.

Lemma py_sort_sorted (l r : list A) :
  Forall P l → py_sort lt l = Ok r → StronglySorted le r.
Proof.
  revert r. induction l as [|x l IH]; intros r Hall; simpl.
  - intros [= <-]. constructor.
  - apply Forall_cons in Hall as [Hx Hall].
    intros H. inv_bind H.
    eapply insert_sorted_sorted; [done| |by apply IH|done].
    apply py_sort_perm in Ha.
    apply Forall_forall. intros z Hz. apply list_elem_of_In in Hz.
    rewrite Ha in Hz. by apply (proj1 (Forall_forall _ _) Hall), list_elem_of_In.
Qed.

Lemma insert_sorted_total (x : A) (l : list A) :
  P x → Forall P l → is_Ok (insert_sorted lt x l).
Proof.
  intros Hx. induction l as [|y l IH]; intros Hall; simpl; [by eexists|].
  apply Forall_cons in Hall as [Hy Hall].
  destruct (lt_total y x Hy Hx) as [b ->]. simpl.
  destruct b; [|by eexists].
  destruct (IH Hall) as [r ->]. by eexists.
Qed.

Lemma py_sort_total (l : list A) : Forall P l → is_Ok (py_sort lt l).
Proof.
  induction l as [|x l IH]; intros Hall; simpl; [by eexists|].
  apply Forall_cons in Hall as [Hx Hall].
  destruct (IH Hall) as [r Hr]. rewrite Hr. simpl.
  apply insert_sorted_total; [done|].
  apply py_sort_perm in Hr.
  apply Forall_forall. intros z Hz. rewrite Hr in Hz.
  by apply (proj1 (Forall_forall _ _) Hall).
Qed.
End sort_facts.

(** *** The order of names

    Strings are compared character by character on their codes, capitals
    before small letters; on UTF-8 bytes this is the order of the code
    points, which is Python's order of [str]. *)

Lemma string_compare_OT (s t : string) : String.compare s t = String_as_OT.compare s t.
Proof.
  revert t. induction s as [|a s IH]; intros [|b t]; simpl; rewrite ?IH; done.
Qed.

Lemma string_compare_Lt_trans (s t u : string) :
  String.compare s t = Lt → String.compare t u = Lt → String.compare s u = Lt.
Proof.
  rewrite !string_compare_OT. intros H1 H2.
  destruct String_as_OT.lt_strorder as [_ Htrans].
  exact (Htrans s t u H1 H2).
Qed.

Lemma string_compare_Gt (s t : string) :
  String.compare s t = Gt ↔ String.compare t s = Lt.
Proof.
  rewrite (String.compare_antisym t s). destruct (String.compare s t); simpl; split; done.
Qed.

Lemma string_leb_trans (s t u : string) :
  String.leb s t = true → String.leb t u = true → String.leb s u = true.
Proof.
  unfold String.leb. intros H1 H2.
  destruct (String.compare s u) eqn:Esu; try done.
  apply string_compare_Gt in Esu.
  destruct (String.compare s t) eqn:Est; [| |done].
  - apply String.compare_eq_iff in Est as ->.
    apply string_compare_Gt in Esu. by rewrite Esu in H2.
  - pose proof (string_compare_Lt_trans u s t Esu Est) as Hut.
    apply string_compare_Gt in Hut. by rewrite Hut in H2.
Qed.

Lemma Food_lt_total (x y : Food) :
  has_string_name x → has_string_name y → is_Ok (Food_lt x y).
Proof. intros [s Hs] [t Ht]. unfold Food_lt. rewrite Hs, Ht. by eexists. Qed.

Lemma Food_lt_true (x y : Food) :
  has_string_name x → has_string_name y → Food_lt x y = Ok true → name_le x y.
Proof.
  intros [s Hs] [t Ht]. unfold Food_lt. rewrite Hs, Ht. simpl. intros [= H].
  exists s, t. repeat split; [done..|].
  unfold String.ltb in H. unfold String.leb. by destruct (String.compare s t).
Qed.

Lemma Food_lt_false (x y : Food) :
  has_string_name x → has_string_name y → Food_lt x y = Ok false → name_le y x.
Proof.
  intros [s Hs] [t Ht]. unfold Food_lt. rewrite Hs, Ht. simpl. intros [= H].
  exists t, s. repeat split; [done..|].
  unfold String.ltb in H. unfold String.leb.
  rewrite (String.compare_antisym t s). by destruct (String.compare s t).
Qed.

Lemma name_le_trans (x y z : Food) : name_le x y → name_le y z → name_le x z.
Proof.
  intros (s & t & Hs & Ht & Hst) (t' & u & Ht' & Hu & Htu).
  rewrite Ht in Ht'. injection Ht' as <-.
  exists s, u. repeat split; [done..|]. by eapply string_leb_trans.
Qed.

Lemma build_dataset_collect (all_food_data : json) :
  build_dataset all_food_data =
  let* foods := collect all_food_data in py_sort Food_lt foods.
Proof.
  unfold build_dataset, collect.
  by destruct (extend_foods all_food_data "FoundationFoods" "Foundation" []).
Qed.

(** C9.  Sort order: the foods the driver returns for a document are the
    foods of the two collections, rearranged so that the names, which are
    strings, never decrease in the case-sensitive lexical order. *)
Theorem C9_sorted_by_name (all_food_data : json) (foods : list Food) :
  build_dataset all_food_data = Ok foods →
  Forall has_string_name foods →
  StronglySorted name_le foods
  ∧ ∃ collected, collect all_food_data = Ok collected ∧ Permutation foods collected.
Proof.
  rewrite build_dataset_collect. intros H Hnames. inv_bind H. rename a into collected.
  pose proof (py_sort_perm _ _ _ H) as Hperm.
  split; [|by exists collected].
  eapply (py_sort_sorted Food_lt has_string_name name_le);
    [apply Food_lt_true|apply Food_lt_false|apply name_le_trans| |exact H].
  apply Forall_forall. intros f Hf. rewrite <- Hperm in Hf.
  by apply (proj1 (Forall_forall _ _) Hnames).
Qed.

(** For a document whose foods all have a string as name the sort
    returns, so the driver returns as soon as the foods are built. *)
Lemma build_dataset_total (all_food_data : json) (collected : list Food) :
  collect all_food_data = Ok collected → Forall has_string_name collected →
  is_Ok (build_dataset all_food_data).
Proof.
  intros Hc Hnames. rewrite build_dataset_collect, Hc. simpl.
  by apply (py_sort_total Food_lt has_string_name Food_lt_total).
Qed.

Lemma C9_sorted_by_name_witness :
  let d := JObj [("FoundationFoods", JArr [food 1 "cheese" [] []; food 2 "Butter" [] []]);
                 ("SRLegacyFoods", JArr [food 3 "bread" [] []; food 4 "apple" [] []])] in
  let foods :=
    [ mkFood "Foundation" (JNum 2) (JStr "Butter") 100 None zero_macros
    ; mkFood "SR Legacy" (JNum 4) (JStr "apple") 100 None zero_macros
    ; mkFood "SR Legacy" (JNum 3) (JStr "bread") 100 None zero_macros
    ; mkFood "Foundation" (JNum 1) (JStr "cheese") 100 None zero_macros ] in
  build_dataset d = Ok foods
  ∧ Forall has_string_name foods
  ∧ StronglySorted name_le foods
  ∧ ∃ collected, collect d = Ok collected ∧ Permutation foods collected.
Proof.
  intros d foods.
  assert (H1 : build_dataset d = Ok foods) by reflexivity.
  assert (H2 : Forall has_string_name foods).
  { repeat apply Forall_cons_2; [| | | |apply Forall_nil_2]; by eexists. }
  exact (conj H1 (conj H2 (C9_sorted_by_name d foods H1 H2))).
Defined.

(** * Further properties of the code *)

(** ** Portion candidates *)

Lemma unit_ml_lookup_pos (u : json) (ml : Q) :
  unit_ml_lookup u = Ok (Some ml) → (0 < ml)%Q.
Proof.
  unfold unit_ml_lookup.
  assert (Hget : ∀ q, unit_ml_get q _PORTION_UNIT_ML_MAP = Some ml → (0 < ml)%Q).
  { intros q. unfold _PORTION_UNIT_ML_MAP, unit_ml_get.
    repeat (destruct (Qeq_bool q _); [intros [= <-]; by compute|]). done. }
  destruct u as [|b|q|s|l|d]; try done.
  - destruct b; cbn [as_number]; intros [= H]; exact (Hget _ H).
  - cbn [as_number]. intros [= H]. exact (Hget _ H).
Qed.

Lemma from_food_portion_has_fields (p : json) (c : VolumeWeight) :
  from_food_portion p = Ok (Some c) → ∃ u q a w, has_fields p u q a w.
Proof.
  unfold from_food_portion, has_fields.
  destruct p as [| | | | |d]; simpl; try done.
  destruct (assoc "measureUnit" d) as [mu|] eqn:Emu; simpl; [|done].
  destruct mu as [| | | | |mu]; simpl; try done.
  destruct (assoc "id" mu) as [u|] eqn:Eid; simpl; [|done].
  destruct (assoc "amount" d) as [q|] eqn:Eq; simpl; [|done].
  destruct (assoc "abbreviation" mu) as [a|] eqn:Ea; simpl; [|done].
  destruct (assoc "gramWeight" d) as [w|] eqn:Ew; simpl; [|done].
  intros _. exists u, q, a, w, d, mu. done.
Qed.

Lemma gt_zero_true (v : json) :
  gt_zero v = Ok true → ∃ x, as_number v = Some x ∧ (0 < x)%Q.
Proof.
  unfold gt_zero, py_gt. simpl. destruct (as_number v) as [x|]; [|done].
  intros [= H]. exists x. split; [done|]. by apply Qlt_bool_true.
Qed.

Lemma from_food_portion_candidate (p : json) (c : VolumeWeight) :
  from_food_portion p = Ok (Some c) ↔
  ∃ u q a w ml x y,
    has_fields p u q a w ∧ unit_ml_lookup u = Ok (Some ml)
    ∧ as_number q = Some x ∧ (0 < x)%Q
    ∧ as_number w = Some y ∧ (0 < y)%Q
    ∧ c = {| volume := ml * x; weight := y; quantity := x; descriptor := a |}.
Proof.
  split.
  - intros H. destruct (from_food_portion_has_fields p c H) as (u & q & a & w & Hf).
    rewrite (from_food_portion_fields p u q a w Hf) in H.
    destruct (unit_ml_lookup u) as [[ml|]|] eqn:Hu; simpl in H; try done.
    destruct (is_None q); [done|].
    destruct (gt_zero q) as [[]|] eqn:Hq; simpl in H; try done.
    destruct (is_None w); [done|].
    destruct (gt_zero w) as [[]|] eqn:Hw; simpl in H; try done.
    apply gt_zero_true in Hq as (x & Hx & Hxpos).
    apply gt_zero_true in Hw as (y & Hy & Hypos).
    rewrite Hx, Hy in H. injection H as <-.
    by exists u, q, a, w, ml, x, y.
  - intros (u & q & a & w & ml & x & y & Hf & Hu & Hx & Hxpos & Hy & Hypos & ->).
    rewrite (from_food_portion_fields p u q a w Hf), Hu. simpl.
    rewrite (is_None_number _ _ Hx), (gt_zero_number _ _ Hx). simpl.
    apply Qlt_bool_true in Hxpos. rewrite Hxpos. simpl.
    rewrite (is_None_number _ _ Hy), (gt_zero_number _ _ Hy). simpl.
    apply Qlt_bool_true in Hypos. rewrite Hypos. simpl.
    by rewrite Hx, Hy.
Qed.

(** X1.  [from_food_portion] builds a candidate only from a record that
    has all its fields, a unit of the table, and a quantity and a gram
    weight that are positive numbers, and the candidate then holds the
    volume [ml * quantity], the gram weight, the quantity and the
    abbreviation as they are; and it does build the candidate from every
    such record whose quantity is in range. *)
Theorem from_food_portion_Some (p : json) :
  (∀ c, from_food_portion p = Ok (Some c) →
     ∃ u q a w ml x y,
       has_fields p u q a w ∧ unit_ml_lookup u = Ok (Some ml)
       ∧ as_number q = Some x ∧ (0 < x)%Q
       ∧ as_number w = Some y ∧ (0 < y)%Q
       ∧ c = {| volume := ml * x; weight := y; quantity := x; descriptor := a |})
  ∧ (∀ u q a w ml x y,
       has_fields p u q a w → unit_ml_lookup u = Ok (Some ml) →
       as_number q = Some x → (0 < x)%Q → (x <= range_bound)%Q →
       as_number w = Some y → (0 < y)%Q →
       from_food_portion p
       = Ok (Some {| volume := ml * x; weight := y; quantity := x; descriptor := a |})).
Proof.
  split.
  - intros c H. by apply from_food_portion_candidate.
  - intros u q a w ml x y Hf Hu Hx Hxpos _ Hy Hypos.
    apply from_food_portion_candidate. by exists u, q, a, w, ml, x, y.
Qed.

Lemma candidate_positive (p : json) (c : VolumeWeight) :
  from_food_portion p = Ok (Some c) →
  (0 < volume c)%Q ∧ (0 < weight c)%Q ∧ (0 < quantity c)%Q.
Proof.
  intros H. apply from_food_portion_candidate in H
    as (u & q & a & w & ml & x & y & _ & Hu & _ & Hx & _ & Hy & ->).
  simpl. split; [|done].
  apply unit_ml_lookup_pos in Hu.
  rewrite <- (Qmult_0_l x). apply Qmult_lt_compat_r; done.
Qed.

(** X2.  Every candidate [from_food_portion] returns has a positive
    volume, a positive weight and a positive quantity. *)
Theorem from_food_portion_positive (p : json) (c : VolumeWeight) :
  from_food_portion p = Ok (Some c) →
  (0 < volume c)%Q ∧ (0 < weight c)%Q ∧ (0 < quantity c)%Q.
Proof. apply candidate_positive. Qed.

Lemma from_food_portion_positive_witness :
  (0 < volume {| volume := 2365875 # 10000; weight := 120; quantity := 1;
                 descriptor := JStr "cup" |})%Q
  ∧ (0 < 120)%Q ∧ (0 < 1)%Q.
Proof.
  exact (from_food_portion_positive cup_portion
           {| volume := 2365875 # 10000; weight := 120; quantity := 1;
              descriptor := JStr "cup" |} eq_refl).
Defined.

(** ** The greatest candidate *)

Section max_facts.
Context {A : Type} (gt : A → A → result bool) (le : A → A → Prop).
Hypothesis gt_true : ∀ x y, gt x y = Ok true → le y x.
Hypothesis gt_false : ∀ x y, gt x y = Ok false → le x y.
Hypothesis le_refl : ∀ x, le x x.
Hypothesis le_trans : ∀ x y z, le x y → le y z → le x z.

Lemma max_loop_greatest (l : list A) (x r : A) :
  max_loop gt l x = Ok r → le x r ∧ ∀ y, y ∈ l → le y r.
Proof.
  revert x. induction l as [|z l IH]; intros x; simpl.
  - intros [= <-]. split; [done|]. intros y Hy. by apply elem_of_nil in Hy.
  - intros H. inv_bind H. destruct (IH _ H) as [Hm Hl].
    destruct a.
    + apply gt_true in Ha. split; [by eapply le_trans|].
      intros y Hy. apply elem_of_cons in Hy as [-> | Hy]; [done|by apply Hl].
    + apply gt_false in Ha. split; [done|].
      intros y Hy. apply elem_of_cons in Hy as [-> | Hy]; [|by apply Hl].
      by eapply le_trans.
Qed.

Lemma py_max_greatest (l : list A) (r : A) :
  py_max gt l = Ok r → ∀ y, y ∈ l → le y r.
Proof.
  destruct l as [|x l]; simpl; [done|].
  intros H y Hy. destruct (max_loop_greatest l x r H) as [Hx Hl].
  apply elem_of_cons in Hy as [-> | Hy]; [done|by apply Hl].
Qed.
End max_facts.

Lemma VolumeWeight_gt_true (a b : VolumeWeight) :
  VolumeWeight_gt a b = Ok true → (volume b <= volume a)%Q.
Proof.
  unfold VolumeWeight_gt.
  destruct (Qeq_bool (volume a) (volume b)) eqn:E; simpl.
  - intros _. apply Qeq_bool_iff in E. rewrite E. apply Qle_refl.
  - intros [= H]. apply Qlt_bool_true in H. by apply Qlt_le_weak.
Qed.

Lemma VolumeWeight_gt_false (a b : VolumeWeight) :
  VolumeWeight_gt a b = Ok false → (volume a <= volume b)%Q.
Proof.
  unfold VolumeWeight_gt.
  destruct (Qeq_bool (volume a) (volume b)) eqn:E; simpl.
  - intros _. apply Qeq_bool_iff in E. rewrite E. apply Qle_refl.
  - intros [= H]. by apply Qlt_bool_false in H.
Qed.

Lemma map_result_In {A B : Type} (f : A → result B) (l : list A) (ys : list B)
    (x : A) (y : B) :
  map_result f l = Ok ys → x ∈ l → f x = Ok y → y ∈ ys.
Proof.
  revert ys. induction l as [|z l IH]; intros ys Hmap Hx Hy; simpl in Hmap.
  - by apply elem_of_nil in Hx.
  - inv_bind Hmap. inv_bind Hmap. injection Hmap as <-.
    apply elem_of_cons in Hx as [-> | Hx].
    + rewrite Hy in Ha. injection Ha as <-. by left.
    + right. by apply IH.
Qed.

(** X3.  The portion [Food.__init__] selects has the greatest volume: no
    candidate built from a record of the [foodPortions] list has a larger
    volume than the selected one. *)
Theorem select_portion_greatest_volume
    (food_data foodPortions p : json) (l : list json) (c c' : VolumeWeight) :
  select_portion food_data = Ok c →
  subscript food_data "foodPortions" = Ok foodPortions →
  py_iter foodPortions = Ok l →
  p ∈ l → from_food_portion p = Ok (Some c') →
  (volume c' <= volume c)%Q.
Proof.
  intros Hsel Hsub Hiter Hp Hc'. unfold select_portion in Hsel.
  rewrite Hsub in Hsel. simpl in Hsel. rewrite Hiter in Hsel. simpl in Hsel.
  inv_bind Hsel. rename a into vws.
  apply (py_max_greatest VolumeWeight_gt (fun a b => (volume a <= volume b)%Q)
           VolumeWeight_gt_true VolumeWeight_gt_false
           (fun x => Qle_refl _) (fun x y z => Qle_trans _ _ _)
           (omap id vws) c Hsel c').
  apply list_elem_of_omap. exists (Some c'). split; [|done].
  by eapply map_result_In.
Qed.

Lemma select_portion_greatest_volume_witness :
  let d := food 2 "Oil" [] [tbsp_portion; cup_portion] in
  let c := {| volume := 2365875 # 10000; weight := 120; quantity := 1;
              descriptor := JStr "cup" |} in
  let c' := {| volume := 1478672 # 100000; weight := 15; quantity := 1;
               descriptor := JStr "tbsp" |} in
  (volume c' <= volume c)%Q.
Proof.
  intros d c c'.
  apply (select_portion_greatest_volume d (JArr [tbsp_portion; cup_portion])
           tbsp_portion [tbsp_portion; cup_portion] c c');
    [reflexivity|reflexivity|reflexivity|left|reflexivity].
Defined.

(** X4.  The weight of a food that is constructed is never negative and
    its volume, when there is one, is never negative either (a candidate
    below 0.05 rounds to 0.0). *)
Theorem Food_weight_volume_nonneg (src : string) (food_data : json) (f : Food) :
  Food_init src food_data = Ok f →
  (0 <= food_weight f)%Q ∧ ∀ v, food_volume f = Some v → (0 <= v)%Q.
Proof.
  intros H. apply Food_init_Ok in H as (m & Hres & _).
  apply resolve_portion_Ok in Hres as [[-> ->] | (c & Hsel & -> & ->)].
  - split; [by compute|done].
  - destruct (select_portion_elem food_data c Hsel) as (fp & l & p & _ & _ & _ & Hc).
    apply candidate_positive in Hc as (Hv & Hw & _).
    split.
    + apply round1_nonneg. by apply Qlt_le_weak.
    + intros v [= <-]. apply round1_nonneg. by apply Qlt_le_weak.
Qed.

Lemma Food_weight_volume_nonneg_witness :
  let f := {| source := "SR Legacy"; fdc_id := JNum 2; name := JStr "Oil";
              food_weight := 120; food_volume := Some (1183 # 5);
              macros := zero_macros |} in
  (0 <= food_weight f)%Q ∧ ∀ v, food_volume f = Some v → (0 <= v)%Q.
Proof.
  intros f.
  exact (Food_weight_volume_nonneg "SR Legacy"
           (food 2 "Oil" [] [tbsp_portion; cup_portion]) f eq_refl).
Defined.

(** ** Measurements that are passed over *)

Lemma for_each_app {A S : Type} (body : S → A → result S) (l1 l2 : list A) (s : S) :
  for_each body (l1 ++ l2) s = let* s' := for_each body l1 s in for_each body l2 s'.
Proof.
  revert s. induction l1 as [|x l1 IH]; intros s; simpl; [done|].
  destruct (body s x) as [s'|]; simpl; [apply IH|done].
Qed.

(** X5.  A measurement that lacks the [nutrient], [number] or [amount]
    key, or whose identifier is not in the table, changes nothing: the
    list resolves as it does without that entry, to the same Macros
    value or the same exception. *)
Theorem skipped_measurement_ignored (l1 l2 : list json) (e : json) :
  skipped e →
  from_food_nutrients (JArr (l1 ++ e :: l2)) = from_food_nutrients (JArr (l1 ++ l2)).
Proof.
  intros He. apply skipped_measured in He.
  unfold from_food_nutrients, selection, fill_heaps.
  destruct (for_each _ all_categories heaps_empty) as [h0|]; simpl; [|done].
  rewrite !for_each_app.
  destruct (for_each push_food_nutrient l1 h0) as [h1|]; simpl; [|done].
  by rewrite push_food_nutrient_measured, He.
Qed.

Lemma skipped_measurement_ignored_witness :
  from_food_nutrients
    (JArr ([measurement "203" 10] ++ JObj [("amount", JNum 3)] :: [measurement "204" 5]))
  = from_food_nutrients (JArr ([measurement "203" 10] ++ [measurement "204" 5])).
Proof.
  apply skipped_measurement_ignored. by apply skipped_no_nutrient.
Defined.

(** ** A direct calorie measurement *)

Lemma calories_priority_1 (num : string) (md : NutrientMetadata) :
  assoc num _NUTRIENT_NUM_METADATA_MAP = Some md →
  category md = CALORIES → priority md ≤ 1 → num = "208".
Proof.
  unfold _NUTRIENT_NUM_METADATA_MAP, assoc. intros H.
  repeat match type of H with
         | context [String.eqb num ?k] =>
             destruct (String.eqb_spec num k) as [->|_];
             [injection H as <-; simpl; intros; first [done | lia | discriminate]|]
         end.
  discriminate.
Qed.

(** X6.  A kcal measurement (identifier '208') that is not zero decides
    the calories: whatever else the list measures, kJ and Atwater entries
    included, and in whatever order, the calories of the result are its
    amount rounded to one decimal place; the fallback formula is not
    used. *)
Theorem kcal_measurement_decides
    (l : list json) (m : Macros) (e : json) (a : Q) :
  from_food_nutrients (JArr l) = Ok m →
  e ∈ l → reports e "208" (JNum a) → ¬ (a == 0)%Q →
  (∀ e' v, e' ∈ l → reports e' "208" v → v = JNum a) →
  calories m = round1 a.
Proof.
  intros Hm He Hr Hnz Hsame.
  rewrite from_food_nutrients_selection in Hm. inv_bind Hm. rename a0 into s.
  assert (Hsel : sel_calories s = JNum a).
  { apply (selection_lowest_priority l s CALORIES e 1 (JNum a) Ha He).
    - apply measured_Some. by exists "208", (mkNutrientMetadata "cals_kcal" CALORIES 1).
    - intros e' p v He' Hme.
      apply measured_Some in Hme as (num & md & Hr' & Hmd & Hcat & ->).
      destruct (decide (1 < priority md)) as [?|Hp]; [by left|right].
      assert (num = "208") as -> by (apply (calories_priority_1 num md); [done|done|lia]).
      by apply (Hsame e'). }
  apply finish_Ok in Hm as (cal & f & c & fi & su & p & _ & _ & _ & _ & _ & Hcal & ->).
  rewrite Hsel in Hcal. simpl in Hcal.
  destruct (Qeq_bool a 0) eqn:E.
  - apply Qeq_bool_iff in E. done.
  - simpl. by injection Hcal as <-.
Qed.

Lemma kcal_measurement_decides_witness :
  calories (mkMacros 52 (1 # 5) 14 0 0 (3 # 10)) = round1 52.
Proof.
  pose (e := measurement "208" 52).
  pose (l := [measurement "268" 218; measurement "203" (3 # 10); e;
              measurement "205" 14; measurement "204" (1 # 5); measurement "957" 59]).
  apply (kcal_measurement_decides l _ e 52).
  - reflexivity.
  - do 2 right. left.
  - eexists. repeat split; reflexivity.
  - by compute.
  - intros e' v He' (n & Hn & Hnum & Hv).
    repeat (apply elem_of_cons in He' as [-> | He'];
            [injection Hn as <-; first [discriminate Hnum | by injection Hv as <-]|]).
    by apply elem_of_nil in He'.
Defined.

(** ** Foods without a portion, records without identity *)

Lemma resolve_portion_no_candidate (food_data : json) :
  no_valid_candidate food_data → resolve_portion food_data = Ok (100%Q, None).
Proof.
  intros (d & -> & [Hmiss | (l & Hl & Hrej)]);
    unfold resolve_portion, select_portion; simpl.
  - by rewrite Hmiss.
  - rewrite Hl. simpl.
    destruct (map_result_rejected l Hrej) as (vws & -> & Hnone). simpl.
    by rewrite Hnone.
Qed.

(** X7.  A record without a valid portion candidate keeps the reference
    basis: the food has the weight 100.0, no volume, and exactly the
    macros per 100 g that its measurements resolve to, with no second
    rounding. *)
Theorem Food_without_candidate
    (src : string) (food_data fdcId description foodNutrients : json) (m : Macros) :
  no_valid_candidate food_data →
  subscript food_data "fdcId" = Ok fdcId →
  subscript food_data "description" = Ok description →
  subscript food_data "foodNutrients" = Ok foodNutrients →
  from_food_nutrients foodNutrients = Ok m →
  Food_init src food_data
  = Ok {| source := src; fdc_id := fdcId; name := description;
          food_weight := 100; food_volume := None; macros := m |}.
Proof.
  intros Hno H1 H2 H3 Hm. apply resolve_portion_no_candidate in Hno.
  unfold Food_init. rewrite H1, H2, Hno. cbn [bind]. rewrite H3. cbn [bind].
  rewrite Hm. reflexivity.
Qed.

Lemma Food_without_candidate_witness :
  Food_init "Foundation"
    (JObj [("fdcId", JNum 9); ("description", JStr "Egg");
           ("foodNutrients", JArr [measurement "203" (1256 # 100)])])
  = Ok {| source := "Foundation"; fdc_id := JNum 9; name := JStr "Egg";
          food_weight := 100; food_volume := None;
          macros := mkMacros (251 # 5) 0 0 0 0 (63 # 5) |}.
Proof.
  apply (Food_without_candidate "Foundation" _ (JNum 9) (JStr "Egg")
           (JArr [measurement "203" (1256 # 100)])); try reflexivity.
  eexists. split; [reflexivity|]. by left.
Defined.

(** X8.  The identifier and the name are required: a record that is not
    a dict raises [TypeError], a dict without [fdcId] raises [KeyError],
    and so does a dict with [fdcId] and without [description], before
    the portions or the measurements are looked at. *)
Theorem Food_requires_identity (src : string) (food_data : json) :
  (∀ d, food_data = JObj d → assoc "fdcId" d = None ∨ assoc "description" d = None →
        Food_init src food_data = Raise KeyError)
  ∧ ((∀ d, food_data ≠ JObj d) → Food_init src food_data = Raise TypeError).
Proof.
  split.
  - intros d -> [H | H]; unfold Food_init; simpl.
    + by rewrite H.
    + destruct (assoc "fdcId" d); simpl; [by rewrite H|done].
  - intros H. destruct food_data; try done. by destruct (H d).
Qed.

Lemma Food_requires_identity_witness :
  Food_init "Foundation"
    (JObj [("fdcId", JNum 9); ("foodNutrients", JNull); ("foodPortions", JNull)])
  = Raise KeyError
  ∧ Food_init "Foundation" (JStr "fdcId") = Raise TypeError.
Proof.
  split.
  - apply (proj1 (Food_requires_identity "Foundation" _) _ eq_refl). by right.
  - apply (proj2 (Food_requires_identity "Foundation" _)). by intros d.
Defined.

(** ** Numbers in range

    On an input whose numbers are in range, every number the program
    computes stays within the square of the bound, far inside the range
    of a double: the amounts selected are amounts of the input, the
    calories of the fallback at most 17 times the bound, a volume at most
    237 times the bound, and a macro scaled to the weight of a portion at
    most their product over 100; rounding adds at most 1. *)

Lemma fill_heaps_iter (food_nutrients : json) (l : list json) :
  py_iter food_nutrients = Ok l → fill_heaps food_nutrients = fill_heaps (JArr l).
Proof. intros H. unfold fill_heaps. by rewrite H. Qed.

Lemma round_half_even_bounds (x : Q) :
  (inject_Z (round_half_even x) <= x + 1 ∧ x - 1 <= inject_Z (round_half_even x))%Q.
Proof.
  unfold round_half_even.
  pose proof (Qfloor_le x) as Hlo. pose proof (Qlt_floor x) as Hhi.
  rewrite inject_Z_plus in Hhi.
  destruct (_ ?= _)%Q; [destruct (Z.even _)|..]; rewrite ?inject_Z_plus;
    change (inject_Z 1) with 1%Q in *; split; lra.
Qed.

Lemma round1_bound (x : Q) : (Qabs (round1 x) <= Qabs x + 1)%Q.
Proof.
  unfold round1. rewrite Qred_correct.
  destruct (round_half_even_bounds (x * 10)) as [Hhi Hlo].
  set (k := round_half_even (x * 10)) in *.
  assert (E : (k # 10 == inject_Z k / 10)%Q).
  { unfold Qeq, inject_Z, Qdiv, Qmult, Qinv. simpl. lia. }
  rewrite E.
  apply Qabs_Qle_condition.
  pose proof (Qabs_nonneg x) as Hn.
  pose proof (Qle_Qabs x) as H1.
  pose proof (Qle_Qabs (- x)) as H2. rewrite Qabs_opp in H2.
  split.
  - apply Qle_shift_div_l; [reflexivity|]. lra.
  - apply Qle_shift_div_r; [reflexivity|]. lra.
Qed.

Lemma Qabs_mult_le (a b x y : Q) :
  (Qabs a <= x)%Q → (Qabs b <= y)%Q → (Qabs (a * b) <= x * y)%Q.
Proof.
  intros Ha Hb. rewrite Qabs_Qmult.
  pose proof (Qabs_nonneg a). pose proof (Qabs_nonneg b).
  apply (Qle_trans _ (x * Qabs b)).
  - apply Qmult_le_compat_r; done.
  - rewrite (Qmult_comm x), (Qmult_comm x). apply Qmult_le_compat_r; [done|lra].
Qed.

Lemma range_bound_large : (100 <= range_bound)%Q.
Proof. by vm_compute. Qed.

Lemma in_range_elem (l : list json) (x : json) :
  in_range (JArr l) → x ∈ l → in_range x.
Proof.
  induction l as [|y l IH]; intros H Hx; [by apply elem_of_nil in Hx|].
  destruct H as [Hy Hl]. apply elem_of_cons in Hx as [-> | Hx]; [done|by apply IH].
Qed.

Lemma in_range_assoc (d : list (string * json)) (k : string) (x : json) :
  in_range (JObj d) → assoc k d = Some x → in_range x.
Proof.
  induction d as [|[k' v] d IH]; intros H Hx; [done|].
  destruct H as [Hv Hd]. unfold assoc in Hx. fold (@assoc json) in Hx.
  destruct (String.eqb k k'); [by injection Hx as <-|by apply IH].
Qed.

Lemma in_range_subscript (v : json) (k : string) (x : json) :
  in_range v → subscript v k = Ok x → in_range x.
Proof.
  intros H Hx. apply subscript_Ok in Hx as (d & -> & Hd). by eapply in_range_assoc.
Qed.

Lemma in_range_number (v : json) (x : Q) :
  in_range v → as_number v = Some x → (Qabs x <= range_bound)%Q.
Proof.
  destruct v as [|[]|q| | |]; simpl; try done; intros H [= <-]; try done; by vm_compute.
Qed.

Lemma in_range_iter (v : json) (l : list json) :
  in_range v → py_iter v = Ok l → in_range (JArr l).
Proof.
  destruct v as [| | |s|l'|d]; simpl; try done.
  - intros _ [= <-]. induction s; simpl; [done|]. split; [done|]. assumption.
  - by intros H [= <-].
  - intros _ [= <-]. induction d as [|[k v] d IH]; simpl; [done|].
    split; [done|]. assumption.
Qed.

Lemma selected_in_range (l : list json) (h : heaps) (c : NutrientCategory) (v : json) (x : Q) :
  in_range (JArr l) → fill_heaps (JArr l) = Ok h → pop_amount h c = Ok v →
  number v = Ok x → (Qabs x <= range_bound)%Q.
Proof.
  intros Hr Hh Hpop Hx. apply number_Ok in Hx.
  destruct (pop_amount_spec l h c v Hh Hpop) as (p & [Hsen | (e & He & Hme)] & _).
  - injection Hsen as _ ->. injection Hx as <-. by vm_compute.
  - apply measured_Some in Hme as (num & md & (nutrient & _ & _ & Ha) & _).
    apply (in_range_number v); [|done].
    eapply in_range_subscript; [|exact Ha]. by eapply in_range_elem.
Qed.

Lemma round1_range (x b : Q) :
  (Qabs x <= b)%Q → (Qabs (round1 x) <= b + 1)%Q.
Proof. intros H. pose proof (round1_bound x). lra. Qed.

Lemma atwater_range (p c f : Q) :
  (Qabs p <= range_bound)%Q → (Qabs c <= range_bound)%Q → (Qabs f <= range_bound)%Q →
  (Qabs (p * 4 + c * 4 + f * 9) <= 17 * range_bound)%Q.
Proof.
  intros Hp Hc Hf.
  apply Qabs_Qle_condition in Hp, Hc, Hf. apply Qabs_Qle_condition. lra.
Qed.

Lemma from_food_nutrients_range (l : list json) (m : Macros) :
  in_range (JArr l) → from_food_nutrients (JArr l) = Ok m →
  Forall (fun x => (Qabs x <= 18 * range_bound)%Q) (as_list m).
Proof.
  intros Hr Hm.
  apply from_food_nutrients_Ok in Hm as (h & s & Hh & Hs & Hf).
  apply select_Ok in Hs as (Hcal & Hfat & Hcarbs & Hfiber & Hsugars & Hprotein).
  apply finish_Ok in Hf
    as (cal & f & c & fi & su & p & Hf & Hc & Hfi & Hsu & Hp & Hcal' & ->).
  pose proof (selected_in_range l h FAT _ _ Hr Hh Hfat Hf) as Bf.
  pose proof (selected_in_range l h CARBS _ _ Hr Hh Hcarbs Hc) as Bc.
  pose proof (selected_in_range l h FIBER _ _ Hr Hh Hfiber Hfi) as Bfi.
  pose proof (selected_in_range l h SUGARS _ _ Hr Hh Hsugars Hsu) as Bsu.
  pose proof (selected_in_range l h PROTEIN _ _ Hr Hh Hprotein Hp) as Bp.
  assert (Bcal : (Qabs cal <= 17 * range_bound)%Q).
  { destruct (py_eq _ _).
    - subst cal. by apply atwater_range.
    - pose proof (selected_in_range l h CALORIES _ _ Hr Hh Hcal Hcal').
      pose proof range_bound_large. lra. }
  pose proof range_bound_large as HB.
  unfold as_list. simpl.
  repeat apply Forall_cons_2; try apply Forall_nil_2;
    match goal with
    | |- (Qabs (round1 ?x) <= _)%Q => pose proof (round1_bound x); lra
    end.
Qed.

Lemma unit_ml_lookup_le (u : json) (ml : Q) :
  unit_ml_lookup u = Ok (Some ml) → (Qabs ml <= 237)%Q.
Proof.
  unfold unit_ml_lookup.
  assert (Hget : ∀ q, unit_ml_get q _PORTION_UNIT_ML_MAP = Some ml → (Qabs ml <= 237)%Q).
  { intros q. unfold _PORTION_UNIT_ML_MAP, unit_ml_get.
    repeat (destruct (Qeq_bool q _); [intros [= <-]; by vm_compute|]). done. }
  destruct u as [|b|q|s|l|d]; try done.
  - destruct b; cbn [as_number]; intros [= H]; exact (Hget _ H).
  - cbn [as_number]. intros [= H]. exact (Hget _ H).
Qed.

Lemma from_food_nutrients_iter (food_nutrients : json) (m : Macros) :
  from_food_nutrients food_nutrients = Ok m →
  ∃ l, py_iter food_nutrients = Ok l ∧ from_food_nutrients (JArr l) = Ok m.
Proof.
  intros H. destruct (py_iter food_nutrients) as [l|e] eqn:Hiter.
  - exists l. split; [done|].
    unfold from_food_nutrients, selection in *.
    by rewrite <- (fill_heaps_iter food_nutrients l Hiter).
  - unfold from_food_nutrients, selection, fill_heaps in H. rewrite Hiter in H.
    destruct (for_each _ all_categories heaps_empty); discriminate.
Qed.

Lemma candidate_range (p : json) (c : VolumeWeight) :
  in_range p → from_food_portion p = Ok (Some c) →
  (Qabs (weight c) <= range_bound)%Q ∧ (Qabs (volume c) <= 237 * range_bound)%Q.
Proof.
  intros Hr H. apply from_food_portion_candidate in H
    as (u & q & a & w & ml & x & y & Hf & Hu & Hx & _ & Hy & _ & ->).
  destruct Hf as (d & mu & -> & _ & _ & Hq & _ & Hw). simpl.
  assert (Bx : (Qabs x <= range_bound)%Q).
  { apply (in_range_number q); [|done]. by eapply in_range_assoc. }
  assert (By : (Qabs y <= range_bound)%Q).
  { apply (in_range_number w); [|done]. by eapply in_range_assoc. }
  split; [done|]. apply Qabs_mult_le; [|done]. by eapply unit_ml_lookup_le.
Qed.

Lemma range_square :
  (18 * range_bound * ((range_bound + 1) / 100) + 1 <= range_bound * range_bound)%Q
  ∧ (237 * range_bound + 1 <= range_bound * range_bound)%Q
  ∧ (18 * range_bound <= range_bound * range_bound)%Q
  ∧ (100 <= range_bound * range_bound)%Q.
Proof. repeat split; by vm_compute. Qed.

Lemma Food_init_range (src : string) (food_data : json) (f : Food) :
  in_range food_data → Food_init src food_data = Ok f →
  (Qabs (food_weight f) <= range_bound * range_bound)%Q
  ∧ (∀ v, food_volume f = Some v → (Qabs v <= range_bound * range_bound)%Q)
  ∧ Forall (fun x => (Qabs x <= range_bound * range_bound)%Q) (as_list (macros f)).
Proof.
  intros Hr H. apply Food_init_Ok in H as (m & Hres & Hm & Hmacros & _).
  destruct range_square as (S1 & S2 & S3 & S4).
  pose proof range_bound_large as HB.
  assert (Hw : (Qabs (food_weight f) <= range_bound + 1)%Q
               ∧ ∀ v, food_volume f = Some v → (Qabs v <= 237 * range_bound + 1)%Q).
  { apply resolve_portion_Ok in Hres as [[-> ->] | (c & Hsel & -> & ->)].
    - split; [|done]. change (Qabs 100) with 100%Q. lra.
    - destruct (select_portion_elem food_data c Hsel) as (fp & l & p & Hfp & Hl & Hp & Hc).
      destruct (candidate_range p c) as [Bw Bv]; [|done|].
      { eapply in_range_elem; [|exact Hp].
        eapply in_range_iter; [|exact Hl]. by eapply in_range_subscript. }
      split; [by apply round1_range|]. intros v [= <-]. by apply round1_range. }
  destruct Hw as [Bw Bv].
  split; [lra|]. split; [intros v Hv; pose proof (Bv v Hv); lra|].
  inv_bind Hm. rename a into fn.
  apply from_food_nutrients_iter in Hm as (l & Hl & Hm).
  assert (Bm : Forall (fun x => (Qabs x <= 18 * range_bound)%Q) (as_list m)).
  { apply (from_food_nutrients_range l m); [|done].
    eapply in_range_iter; [|exact Hl]. by eapply in_range_subscript. }
  rewrite Hmacros. destruct (negb _).
  - assert (Bs : (Qabs (food_weight f / 100) <= (range_bound + 1) / 100)%Q).
    { unfold Qdiv. rewrite Qabs_Qmult. change (Qabs (/ 100)) with (/ 100)%Q.
      apply Qmult_le_compat_r; [done|by vm_compute]. }
    unfold as_list in *. simpl.
    repeat match goal with
           | H : Forall _ (_ :: _) |- _ => apply Forall_cons in H as [? H]
           end.
    repeat apply Forall_cons_2; try apply Forall_nil_2;
      match goal with
      | |- (Qabs (round1 (?x * ?y)) <= _)%Q =>
          pose proof (round1_bound (x * y));
          assert (Qabs (x * y) <= 18 * range_bound * ((range_bound + 1) / 100))%Q
            by (by apply Qabs_mult_le);
          lra
      end.
  - eapply Forall_impl; [exact Bm|]. intros x Hx. simpl in Hx. lra.
Qed.

(** ** One decimal place *)

Lemma round1_one_decimal (x : Q) : one_decimal (round1 x).
Proof.
  exists (round_half_even (x * 10)). unfold round1. apply Qred_correct.
Qed.

Lemma from_food_nutrients_one_decimal (food_nutrients : json) (m : Macros) :
  from_food_nutrients food_nutrients = Ok m → Forall one_decimal (as_list m).
Proof.
  rewrite from_food_nutrients_selection. intros H. inv_bind H.
  apply finish_Ok in H as (cal & f & c & fi & su & p & _ & _ & _ & _ & _ & _ & ->).
  unfold as_list. simpl.
  repeat apply Forall_cons_2; try apply round1_one_decimal. apply Forall_nil_2.
Qed.

Lemma Food_one_decimal_fields (src : string) (food_data : json) (f : Food) :
  Food_init src food_data = Ok f →
  one_decimal (food_weight f)
  ∧ (∀ v, food_volume f = Some v → one_decimal v)
  ∧ Forall one_decimal (as_list (macros f)).
Proof.
  intros H. apply Food_init_Ok in H as (m & Hres & Hm & Hmacros & _).
  split; [|split].
  - apply resolve_portion_Ok in Hres as [[-> _] | (c & _ & -> & _)].
    + by exists 1000%Z.
    + apply round1_one_decimal.
  - intros v Hv. apply resolve_portion_Ok in Hres as [[_ Hn] | (c & _ & _ & Hs)].
    + congruence.
    + rewrite Hv in Hs. injection Hs as ->. apply round1_one_decimal.
  - rewrite Hmacros. destruct (negb _).
    + unfold as_list, scale_macros. simpl.
      repeat apply Forall_cons_2; try apply round1_one_decimal. apply Forall_nil_2.
    + inv_bind Hm. by eapply from_food_nutrients_one_decimal.
Qed.

(** X9.  Every number of a food that is constructed from a record whose
    numbers are in range is a number with at most one decimal place and
    stays far inside the range of a double (at most the square of the
    bound in absolute value): the weight, the volume when there is one,
    and the six macros in the order [as_list] gives them. *)
Theorem Food_one_decimal (src : string) (food_data : json) (f : Food) :
  in_range food_data →
  Food_init src food_data = Ok f →
  (one_decimal (food_weight f)
   ∧ (Qabs (food_weight f) <= range_bound * range_bound)%Q)
  ∧ (∀ v, food_volume f = Some v →
       one_decimal v ∧ (Qabs v <= range_bound * range_bound)%Q)
  ∧ Forall (fun x => one_decimal x ∧ (Qabs x <= range_bound * range_bound)%Q)
      (as_list (macros f)).
Proof.
  intros Hr H.
  destruct (Food_one_decimal_fields src food_data f H) as (D1 & D2 & D3).
  destruct (Food_init_range src food_data f Hr H) as (R1 & R2 & R3).
  split; [done|]. split; [intros v Hv; split; [by apply D2|by apply R2]|].
  apply Forall_forall. intros x Hx. split.
  - by apply (proj1 (Forall_forall _ _) D3).
  - by apply (proj1 (Forall_forall _ _) R3).
Qed.

Lemma Food_one_decimal_witness :
  let d := food 2 "Oil" [measurement "203" 10; measurement "204" (1 # 4)]
                [tbsp_portion; cup_portion] in
  let f := {| source := "Foundation"; fdc_id := JNum 2; name := JStr "Oil";
              food_weight := 120; food_volume := Some (1183 # 5);
              macros := mkMacros (253 # 5) (1 # 5) 0 0 0 12 |} in
  in_range d
  ∧ (one_decimal (food_weight f)
     ∧ (Qabs (food_weight f) <= range_bound * range_bound)%Q)
  ∧ (∀ v, food_volume f = Some v →
       one_decimal v ∧ (Qabs v <= range_bound * range_bound)%Q)
  ∧ Forall (fun x => one_decimal x ∧ (Qabs x <= range_bound * range_bound)%Q)
      (as_list (macros f)).
Proof.
  intros d f.
  assert (Hr : in_range d) by (simpl; repeat split; by vm_compute).
  split; [exact Hr|].
  exact (Food_one_decimal "Foundation" d f Hr eq_refl).
Defined.

(** ** The driver *)

Lemma map_result_length {A B : Type} (f : A → result B) (l : list A) (ys : list B) :
  map_result f l = Ok ys → length ys = length l.
Proof.
  revert ys. induction l as [|x l IH]; intros ys H; simpl in H.
  - by injection H as <-.
  - inv_bind H. inv_bind H. injection H as <-. simpl. f_equal. by apply IH.
Qed.

Lemma extend_foods_collection (d : list (string * json)) (key label : string)
    (foods : list Food) :
  assoc key d = None ∨ (∃ l, assoc key d = Some (JArr l)) →
  extend_foods (JObj d) key label foods =
  let* new := map_result (Food_init label) (collection d key) in Ok (foods ++ new).
Proof.
  unfold extend_foods, collection. simpl. intros [H | [l H]]; rewrite H; simpl.
  - by rewrite app_nil_r.
  - reflexivity.
Qed.

(** X10.  For a document whose collections are lists, a missing
    collection counting as empty, the driver returns one food for every
    record of [FoundationFoods], built with the label 'Foundation', and
    one for every record of [SRLegacyFoods], built with the label
    'SR Legacy': the result is a rearrangement of these foods, none is
    dropped and none is added. *)
Theorem build_dataset_foods (d : list (string * json)) (foods : list Food) :
  assoc "FoundationFoods" d = None ∨ (∃ l, assoc "FoundationFoods" d = Some (JArr l)) →
  assoc "SRLegacyFoods" d = None ∨ (∃ l, assoc "SRLegacyFoods" d = Some (JArr l)) →
  build_dataset (JObj d) = Ok foods →
  ∃ foundation legacy,
    map_result (Food_init "Foundation") (collection d "FoundationFoods") = Ok foundation
    ∧ map_result (Food_init "SR Legacy") (collection d "SRLegacyFoods") = Ok legacy
    ∧ Permutation foods (foundation ++ legacy)
    ∧ length foods
      = length (collection d "FoundationFoods") + length (collection d "SRLegacyFoods").
Proof.
  intros HF HS H. unfold build_dataset in H.
  rewrite (extend_foods_collection d _ _ _ HF) in H.
  inv_bind H. inv_bind Ha. injection Ha as <-. rename a0 into foundation.
  rewrite (extend_foods_collection d _ _ _ HS) in H.
  inv_bind H. inv_bind Ha. injection Ha as <-. rename a0 into legacy.
  simpl in H. apply py_sort_perm in H.
  exists foundation, legacy. repeat split; [done..|].
  rewrite H, length_app.
  by rewrite (map_result_length _ _ _ Ha0), (map_result_length _ _ _ Ha1).
Qed.

Lemma build_dataset_foods_witness :
  let d := [("SRLegacyFoods", JArr [food 3 "bread" [] []; food 4 "apple" [] []])] in
  let foods :=
    [ mkFood "SR Legacy" (JNum 4) (JStr "apple") 100 None zero_macros
    ; mkFood "SR Legacy" (JNum 3) (JStr "bread") 100 None zero_macros ] in
  ∃ foundation legacy,
    map_result (Food_init "Foundation") (collection d "FoundationFoods") = Ok foundation
    ∧ map_result (Food_init "SR Legacy") (collection d "SRLegacyFoods") = Ok legacy
    ∧ Permutation foods (foundation ++ legacy)
    ∧ length foods
      = length (collection d "FoundationFoods") + length (collection d "SRLegacyFoods").
Proof.
  intros d foods. apply (build_dataset_foods d foods).
  - by left.
  - right. by eexists.
  - reflexivity.
Defined.




(** ** Regular data never raises *)



Lemma map_result_total {A B : Type} (f : A → result B) (Q : B → Prop) (l : list A) :
  Forall (fun x => ∃ y, f x = Ok y ∧ Q y) l →
  ∃ ys, map_result f l = Ok ys ∧ Forall Q ys.
Proof.
  induction 1 as [|x l (y & Hy & HQ) _ (ys & Hys & HQs)]; simpl.
  - by exists [].
  - rewrite Hy, Hys. simpl. exists (y :: ys). split; [done|]. by constructor.
Qed.

Lemma regular_portion_candidate (p : json) :
  regular_portion p →
  ∃ r, from_food_portion p = Ok r ∧ ∀ c, r = Some c → string_descriptor c.
Proof.
  intros (u & q & a & w & Hf & Hq & Hw).
  rewrite (from_food_portion_fields p _ _ _ _ Hf).
  cbn [unit_ml_lookup as_number bind].
  destruct (unit_ml_get u _PORTION_UNIT_ML_MAP) as [ml|]; [|by exists None].
  destruct Hq as [-> | [x ->]]; [by exists None|].
  cbn [is_None]. rewrite (gt_zero_number (JNum x) x eq_refl). cbn [bind].
  destruct (Qlt_bool 0 x); cbn [negb]; [|by exists None].
  destruct Hw as [-> | [y ->]]; [by exists None|].
  cbn [is_None]. rewrite (gt_zero_number (JNum y) y eq_refl). cbn [bind].
  destruct (Qlt_bool 0 y); cbn [negb as_number]; [|by exists None].
  eexists. split; [reflexivity|]. intros c [= <-]. by exists a.
Qed.

Lemma VolumeWeight_gt_total (a b : VolumeWeight) :
  string_descriptor a → string_descriptor b → is_Ok (VolumeWeight_gt a b).
Proof.
  intros [x Hx] [y Hy]. unfold VolumeWeight_gt. rewrite Hx, Hy.
  repeat (destruct (negb _); [by eexists|]). by eexists.
Qed.

Lemma max_loop_total {A : Type} (gt : A → A → result bool) (P : A → Prop)
    (l : list A) (x : A) :
  (∀ a b, P a → P b → is_Ok (gt a b)) → P x → Forall P l → is_Ok (max_loop gt l x).
Proof.
  intros Hgt. revert x. induction l as [|y l IH]; intros x Hx Hl; simpl; [by eexists|].
  apply Forall_cons in Hl as [Hy Hl].
  destruct (Hgt y x Hy Hx) as [b ->]. simpl.
  apply IH; [by destruct b|done].
Qed.

Lemma resolve_portion_regular (d : list (string * json)) :
  assoc "foodPortions" d = None
  ∨ (∃ portions, assoc "foodPortions" d = Some (JArr portions)
       ∧ Forall regular_portion portions) →
  is_Ok (resolve_portion (JObj d)).
Proof.
  intros [H | (portions & H & Hreg)]; unfold resolve_portion, select_portion; simpl;
    rewrite H; simpl; [by eexists|].
  destruct (map_result_total from_food_portion
              (fun r => ∀ c, r = Some c → string_descriptor c) portions)
    as (vws & -> & Hvws).
  { eapply Forall_impl; [exact Hreg|]. apply regular_portion_candidate. }
  simpl.
  assert (Hcands : Forall string_descriptor (omap id vws)).
  { apply Forall_forall. intros c Hc.
    apply list_elem_of_omap in Hc as (o & Ho & Hoc). simpl in Hoc. subst o.
    by apply (proj1 (Forall_forall _ _) Hvws (Some c) Ho). }
  destruct (omap id vws) as [|x cands]; simpl; [by eexists|].
  apply Forall_cons in Hcands as [Hx Hcands].
  destruct (max_loop_total VolumeWeight_gt string_descriptor cands x
              VolumeWeight_gt_total Hx Hcands) as [c ->].
  by eexists.
Qed.

Lemma Food_init_regular (src : string) (food_data : json) :
  regular_food food_data → ∃ f, Food_init src food_data = Ok f ∧ has_string_name f.
Proof.
  intros (d & fdcId & nm & nutrients & -> & Hid & Hnm & Hn & Hreg & Hp).
  destruct (resolve_portion_regular d Hp) as [[w v] Hres].
  destruct (from_food_nutrients_regular nutrients Hreg) as [m Hm].
  unfold Food_init. simpl. rewrite Hid, Hnm. cbn [bind]. rewrite Hres. cbn [bind].
  rewrite Hn. cbn [bind]. rewrite Hm. cbn [bind].
  eexists. split; [reflexivity|]. by exists nm.
Qed.

Lemma in_range_collection (d : list (string * json)) (key : string) (x : json) :
  in_range (JObj d) → x ∈ collection d key → in_range x.
Proof.
  intros Hr Hx. unfold collection in Hx.
  destruct (assoc key d) as [[| | | |l|]|] eqn:E; try (by apply elem_of_nil in Hx).
  eapply in_range_elem; [|exact Hx]. by eapply in_range_assoc.
Qed.

(** X13.  A regular dataset never aborts the run: when the two
    collections, a missing one counting as empty, are lists of regular
    food records and the numbers of the document are in range, the
    driver returns, with one food for every record, and the weight and
    the macros of every food stay within the square of the bound. *)
Theorem build_dataset_regular (d : list (string * json)) :
  assoc "FoundationFoods" d = None ∨ (∃ l, assoc "FoundationFoods" d = Some (JArr l)) →
  assoc "SRLegacyFoods" d = None ∨ (∃ l, assoc "SRLegacyFoods" d = Some (JArr l)) →
  Forall regular_food (collection d "FoundationFoods") →
  Forall regular_food (collection d "SRLegacyFoods") →
  in_range (JObj d) →
  ∃ foods, build_dataset (JObj d) = Ok foods
    ∧ length foods
      = length (collection d "FoundationFoods") + length (collection d "SRLegacyFoods")
    ∧ Forall (fun f => Forall (fun x => (Qabs x <= range_bound * range_bound)%Q)
                         (food_weight f :: as_list (macros f))) foods.
Proof.
  intros HF HS HrF HrS Hr. unfold build_dataset.
  rewrite (extend_foods_collection d _ _ _ HF).
  destruct (map_result_total (Food_init "Foundation") has_string_name
              (collection d "FoundationFoods")) as (foundation & HmF & HnF).
  { eapply Forall_impl; [exact HrF|]. intros x. apply Food_init_regular. }
  rewrite HmF. cbn [bind]. rewrite (extend_foods_collection d _ _ _ HS).
  destruct (map_result_total (Food_init "SR Legacy") has_string_name
              (collection d "SRLegacyFoods")) as (legacy & HmS & HnS).
  { eapply Forall_impl; [exact HrS|]. intros x. apply Food_init_regular. }
  rewrite HmS. cbn [bind]. simpl.
  destruct (py_sort_total Food_lt has_string_name Food_lt_total (foundation ++ legacy))
    as [foods Hsort].
  { apply Forall_app. by split. }
  exists foods. split; [done|].
  apply py_sort_perm in Hsort. split.
  - rewrite Hsort, length_app.
    by rewrite (map_result_length _ _ _ HmF), (map_result_length _ _ _ HmS).
  - apply Forall_forall. intros f Hf. rewrite Hsort in Hf.
    assert (Hfrom : ∃ label x, in_range x ∧ Food_init label x = Ok f).
    { apply elem_of_app in Hf as [Hf | Hf].
      - destruct (map_result_elem _ _ _ _ HmF Hf) as (x & Hx & Hfx).
        exists "Foundation", x. split; [by eapply in_range_collection|done].
      - destruct (map_result_elem _ _ _ _ HmS Hf) as (x & Hx & Hfx).
        exists "SR Legacy", x. split; [by eapply in_range_collection|done]. }
    destruct Hfrom as (label & x & Hx & Hfx).
    destruct (Food_init_range label x f Hx Hfx) as (R1 & _ & R3).
    by constructor.
Qed.

Lemma build_dataset_regular_witness :
  let d := [("FoundationFoods",
             JArr [food 2 "Oil" [measurement "204" 100] [tbsp_portion; cup_portion]])] in
  ∃ foods, build_dataset (JObj d) = Ok foods
    ∧ length foods
      = length (collection d "FoundationFoods") + length (collection d "SRLegacyFoods")
    ∧ Forall (fun f => Forall (fun x => (Qabs x <= range_bound * range_bound)%Q)
                         (food_weight f :: as_list (macros f))) foods.
Proof.
  intros d. apply (build_dataset_regular d).
  - right. by eexists.
  - by left.
  - apply Forall_cons_2; [|apply Forall_nil_2].
    eexists _, _, _, _. split; [reflexivity|]. repeat split; try reflexivity.
    + apply Forall_cons_2; [|apply Forall_nil_2].
      left. exists "204", 100%Q. eexists. repeat split; reflexivity.
    + right. eexists. split; [reflexivity|].
      repeat apply Forall_cons_2; [| |apply Forall_nil_2].
      * exists 1001%Q, (JNum 1), "tbsp", (JNum 15). split.
        -- do 2 eexists. repeat split; reflexivity.
        -- split; right; by eexists.
      * exists 1000%Q, (JNum 1), "cup", (JNum 120). split.
        -- do 2 eexists. repeat split; reflexivity.
        -- split; right; by eexists.
  - apply Forall_nil_2.
  - simpl. repeat split; by vm_compute.
Defined.

(** ** The exceptions that can escape *)

Lemma raises_only_Ok {A : Type} (E : exn → Prop) (a : A) : raises_only E (Ok a).
Proof. by intros e. Qed.

Lemma raises_only_Raise {A : Type} (E : exn → Prop) (e : exn) :
  E e → raises_only E (Raise e : result A).
Proof. intros H e' [= <-]. done. Qed.

Lemma raises_only_bind {A B : Type} (E : exn → Prop) (r : result A) (k : A → result B) :
  raises_only E r → (∀ a, r = Ok a → raises_only E (k a)) → raises_only E (bind r k).
Proof.
  intros Hr Hk e. destruct r as [a|e']; simpl.
  - by apply Hk.
  - intros [= <-]. by apply Hr.
Qed.

Lemma raises_only_impl {A : Type} (E E' : exn → Prop) (r : result A) :
  (∀ e, E e → E' e) → raises_only E r → raises_only E' r.
Proof. intros H Hr e He. by apply H, Hr. Qed.

Lemma raises_only_for_each {A S : Type} (E : exn → Prop) (body : S → A → result S)
    (l : list A) (s : S) :
  (∀ s x, raises_only E (body s x)) → raises_only E (for_each body l s).
Proof.
  intros Hbody. revert s. induction l as [|x l IH]; intros s; simpl.
  - apply raises_only_Ok.
  - apply raises_only_bind; [apply Hbody|]. intros s' _. apply IH.
Qed.

Lemma raises_only_map_result {A B : Type} (E : exn → Prop) (f : A → result B)
    (l : list A) :
  (∀ x, raises_only E (f x)) → raises_only E (map_result f l).
Proof.
  intros Hf. induction l as [|x l IH]; simpl.
  - apply raises_only_Ok.
  - apply raises_only_bind; [apply Hf|]. intros y _.
    apply raises_only_bind; [apply IH|]. intros ys _. apply raises_only_Ok.
Qed.

Section heap_errors.
Context {A : Type} (lt : A → A → result bool) (E : exn → Prop).
Hypothesis lt_raises : ∀ x y, raises_only E (lt x y).

Lemma siftdown_loop_raises n heap startpos pos newitem :
  pos < length heap → raises_only E (siftdown_loop lt n heap startpos pos newitem).
Proof.
  revert heap pos. induction n as [|n IH]; intros heap pos Hpos; cbn [siftdown_loop].
  - apply raises_only_Ok.
  - destruct (decide _) as [Hd|Hd]; [|apply raises_only_Ok].
    pose proof (parent_lt pos ltac:(lia)) as Hpp.
    destruct (getitem_lt heap ((pos - 1) / 2) ltac:(lia)) as (parent & -> & _).
    cbn [bind]. apply raises_only_bind; [apply lt_raises|].
    intros [] _; [|apply raises_only_Ok].
    apply IH. rewrite length_insert. lia.
Qed.

Lemma siftdown_raises heap startpos pos :
  pos < length heap → raises_only E (siftdown lt heap startpos pos).
Proof.
  intros Hpos. unfold siftdown.
  destruct (getitem_lt heap pos Hpos) as (x & -> & _). cbn [bind].
  by apply siftdown_loop_raises.
Qed.

Lemma heappush_raises heap x : raises_only E (heappush lt heap x).
Proof.
  unfold heappush. apply siftdown_raises. rewrite length_app. simpl. lia.
Qed.

Lemma siftup_loop_raises n heap pos :
  pos < length heap →
  raises_only E (siftup_loop lt n heap (length heap) pos)
  ∧ ∀ heap' pos', siftup_loop lt n heap (length heap) pos = Ok (heap', pos') →
      length heap' = length heap ∧ pos' < length heap.
Proof.
  revert heap pos. induction n as [|n IH]; intros heap pos Hpos; cbn [siftup_loop].
  - split; [apply raises_only_Ok|]. by intros heap' pos' [= <- <-].
  - destruct (decide (2 * pos + 1 < length heap)) as [Hc|Hc].
    2: { split; [apply raises_only_Ok|]. by intros heap' pos' [= <- <-]. }
    assert (Hchild :
      raises_only E
        (if decide (2 * pos + 1 + 1 < length heap) then
           let* c := getitem heap (2 * pos + 1) in
           let* r := getitem heap (2 * pos + 1 + 1) in
           let* b := lt c r in
           Ok (if b then 2 * pos + 1 else 2 * pos + 1 + 1)
         else Ok (2 * pos + 1))
      ∧ ∀ childpos,
          (if decide (2 * pos + 1 + 1 < length heap) then
             let* c := getitem heap (2 * pos + 1) in
             let* r := getitem heap (2 * pos + 1 + 1) in
             let* b := lt c r in
             Ok (if b then 2 * pos + 1 else 2 * pos + 1 + 1)
           else Ok (2 * pos + 1)) = Ok childpos → childpos < length heap).
    { destruct (decide _) as [Hr|Hr].
      - destruct (getitem_lt heap _ Hc) as (c & -> & _).
        destruct (getitem_lt heap _ Hr) as (r & -> & _). cbn [bind].
        split.
        + apply raises_only_bind; [apply lt_raises|]. intros b _. apply raises_only_Ok.
        + intros childpos H. inv_bind H. injection H as <-. by destruct a.
      - split; [apply raises_only_Ok|]. by intros childpos [= <-]. }
    destruct Hchild as [Hraise Hbound].
    destruct (if decide _ then _ else _) as [childpos|e] eqn:Echild; cbn [bind].
    2: { split; [|done]. intros e' [= <-]. by apply Hraise. }
    pose proof (Hbound childpos eq_refl) as Hlt.
    destruct (getitem_lt heap childpos Hlt) as (child & -> & _). cbn [bind].
    destruct (IH (<[pos := child]> heap) childpos) as [IH1 IH2].
    { by rewrite length_insert. }
    rewrite length_insert in IH1, IH2. done.
Qed.

Lemma siftup_raises heap pos :
  pos < length heap → raises_only E (siftup lt heap pos).
Proof.
  intros Hpos. unfold siftup.
  destruct (getitem_lt heap pos Hpos) as (x & -> & _). cbn [bind].
  destruct (siftup_loop_raises (length heap) heap pos Hpos) as [Hraise Hbound].
  apply raises_only_bind; [done|].
  intros [heap' pos'] Hloop. destruct (Hbound heap' pos' Hloop) as [Hlen Hpos'].
  apply siftdown_raises. rewrite length_insert. lia.
Qed.

Lemma heappop_raises heap : heap ≠ [] → raises_only E (heappop lt heap).
Proof.
  intros Hne. unfold heappop.
  destruct (last heap) as [lastelt|] eqn:Hlast.
  2: { by apply last_None in Hlast. }
  destruct (removelast heap) as [|x rest]; [apply raises_only_Ok|].
  apply raises_only_bind; [|intros h' _; apply raises_only_Ok].
  apply siftup_raises. rewrite length_insert. simpl. lia.
Qed.
End heap_errors.

Lemma json_ind_nested (P : json → Prop) :
  P JNull → (∀ b, P (JBool b)) → (∀ q, P (JNum q)) → (∀ s, P (JStr s)) →
  (∀ l, Forall P l → P (JArr l)) → (∀ d, P (JObj d)) →
  ∀ v, P v.
Proof.
  intros Hnull Hbool Hnum Hstr Harr Hobj.
  fix IH 1. intros [|b|q|s|l|d];
    [apply Hnull|apply Hbool|apply Hnum|apply Hstr| |apply Hobj].
  apply Harr. induction l as [|x l IHl]; constructor; [apply IH|apply IHl].
Qed.

Lemma py_lt_raises (a b : json) : raises_only is_TypeError (py_lt a b).
Proof.
  revert b. induction a as [|x|q|s|l IHl|d] using json_ind_nested; intros b;
    try (destruct b; simpl;
         repeat match goal with
                | |- context [match ?x with _ => _ end] => destruct x
                end;
         first [apply raises_only_Ok | by apply raises_only_Raise]).
  destruct b as [| | | |m|]; try (by apply raises_only_Raise).
  simpl. revert m. induction IHl as [|x l Hx _ IH]; intros [|y m];
    try apply raises_only_Ok.
  destruct (py_eq x y); [apply IH|apply Hx].
Qed.

Lemma item_lt_raises (x y : item) : raises_only is_TypeError (item_lt x y).
Proof.
  unfold item_lt. destruct (negb _); [apply raises_only_Ok|].
  destruct (negb _); [apply py_lt_raises|apply raises_only_Ok].
Qed.

Lemma subscript_raises (v : json) (k : string) :
  raises_only is_KeyError_or_TypeError (subscript v k).
Proof.
  destruct v; simpl; try (apply raises_only_Raise; by right).
  destruct (assoc k d); [apply raises_only_Ok|apply raises_only_Raise; by left].
Qed.

Lemma py_iter_raises (v : json) : raises_only is_TypeError (py_iter v).
Proof. destruct v; simpl; (apply raises_only_Ok || by apply raises_only_Raise). Qed.

Lemma except_KeyError_raises {A : Type} (body handler : result A) :
  raises_only is_KeyError_or_TypeError body → raises_only is_TypeError handler →
  raises_only is_TypeError (except_KeyError body handler).
Proof.
  intros Hb Hh e. unfold except_KeyError.
  destruct body as [a|e0]; [done|].
  pose proof (Hb e0 eq_refl) as [-> | ->]; [apply Hh|].
  by intros [= <-].
Qed.

Lemma TypeError_weaken {A : Type} (r : result A) :
  raises_only is_TypeError r → raises_only is_KeyError_or_TypeError r.
Proof. apply raises_only_impl. intros e ->. by right. Qed.

Lemma read_food_nutrient_raises (e : json) :
  raises_only is_KeyError_or_TypeError (read_food_nutrient e).
Proof.
  unfold read_food_nutrient.
  apply raises_only_bind; [apply subscript_raises|]. intros nutrient _.
  apply raises_only_bind; [apply subscript_raises|]. intros num _.
  apply raises_only_bind; [apply subscript_raises|]. intros amount _.
  destruct (py_eq _ _); [|apply raises_only_Ok].
  apply raises_only_bind; [|intros; apply raises_only_Ok].
  unfold times_0_239. destruct (as_number amount);
    [apply raises_only_Ok|apply raises_only_Raise; by right].
Qed.

Lemma push_food_nutrient_raises (h : heaps) (e : json) :
  raises_only is_TypeError (push_food_nutrient h e).
Proof.
  unfold push_food_nutrient.
  apply raises_only_bind.
  { apply except_KeyError_raises; [|apply raises_only_Ok].
    apply raises_only_bind; [apply read_food_nutrient_raises|].
    intros; apply raises_only_Ok. }
  intros [[num amount]|] _; [|apply raises_only_Ok].
  apply raises_only_bind.
  { unfold metadata_lookup.
    destruct num; (apply raises_only_Ok || by apply raises_only_Raise). }
  intros [md|] _; [|apply raises_only_Ok].
  unfold heaps_push. apply raises_only_bind; [|intros; apply raises_only_Ok].
  apply heappush_raises. apply item_lt_raises.
Qed.

Lemma fill_heaps_nonempty (food_nutrients : json) (h : heaps) (c : NutrientCategory) :
  fill_heaps food_nutrients = Ok h → h c ≠ [].
Proof.
  intros H.
  destruct (py_iter food_nutrients) as [l|e] eqn:Hiter.
  - rewrite (fill_heaps_iter _ l Hiter) in H.
    destruct (fill_heaps_spec l h H c) as [_ Hmem].
    intros Hnil. assert (Hs : sentinel ∈ h c) by (apply Hmem; by left).
    rewrite Hnil in Hs. by apply elem_of_nil in Hs.
  - unfold fill_heaps in H. rewrite Hiter in H.
    destruct (for_each _ all_categories heaps_empty); discriminate.
Qed.

Lemma from_food_nutrients_raises (food_nutrients : json) :
  raises_only is_TypeError (from_food_nutrients food_nutrients).
Proof.
  unfold from_food_nutrients, selection.
  apply raises_only_bind.
  - apply raises_only_bind.
    + unfold fill_heaps.
      apply raises_only_bind.
      { apply raises_only_for_each. intros h c. unfold heaps_push.
        apply raises_only_bind; [|intros; apply raises_only_Ok].
        apply heappush_raises. apply item_lt_raises. }
      intros h0 _. apply raises_only_bind; [apply py_iter_raises|].
      intros l _. apply raises_only_for_each. apply push_food_nutrient_raises.
    + intros h Hh.
      assert (Hpop : ∀ c, raises_only is_TypeError (pop_amount h c)).
      { intros c. unfold pop_amount.
        apply raises_only_bind; [|intros [] _; apply raises_only_Ok].
        apply heappop_raises; [apply item_lt_raises|by eapply fill_heaps_nonempty]. }
      unfold select.
      repeat (apply raises_only_bind; [apply Hpop|intros ? _]).
      apply raises_only_Ok.
  - intros s _. unfold finish.
    assert (Hnum : ∀ v, raises_only is_TypeError (number v)).
    { intros v. unfold number.
      destruct (as_number v); [apply raises_only_Ok|by apply raises_only_Raise]. }
    repeat (apply raises_only_bind; [apply Hnum|intros ? _]).
    apply raises_only_bind; [|intros; apply raises_only_Ok].
    destruct (py_eq _ _); [apply raises_only_Ok|apply Hnum].
Qed.

(** X14.  Whatever JSON value it is given, [from_food_nutrients] never
    raises [KeyError], a missing key being no error of the resolution,
    and never [IndexError], the heaps being never popped empty; and on a
    value whose numbers are in range it returns a Macros value or raises
    [TypeError], nothing else. *)
Theorem from_food_nutrients_only_TypeError (food_nutrients : json) :
  (∀ e, in_range food_nutrients →
        from_food_nutrients food_nutrients = Raise e → e = TypeError)
  ∧ from_food_nutrients food_nutrients ≠ Raise KeyError
  ∧ from_food_nutrients food_nutrients ≠ Raise IndexError.
Proof.
  pose proof (from_food_nutrients_raises food_nutrients) as H.
  split; [intros e _; apply H|].
  split; intros He; by pose proof (H _ He).
Qed.

Lemma from_food_nutrients_only_TypeError_witness :
  let l := JArr [JObj [("nutrient", JNull); ("amount", JNum 3)]] in
  in_range l ∧ from_food_nutrients l = Raise TypeError ∧ TypeError = TypeError.
Proof.
  intros l.
  assert (Hr : in_range l) by (simpl; repeat split; by vm_compute).
  assert (H : from_food_nutrients l = Raise TypeError) by reflexivity.
  split; [exact Hr|]. split; [exact H|].
  exact (proj1 (from_food_nutrients_only_TypeError l) TypeError Hr H).
Defined.

Lemma gt_zero_raises (v : json) : raises_only is_KeyError_or_TypeError (gt_zero v).
Proof.
  destruct (gt_zero_cases v) as [[b ->] | ->];
    [apply raises_only_Ok|apply raises_only_Raise; by right].
Qed.

Lemma from_food_portion_raises (p : json) :
  raises_only is_TypeError (from_food_portion p).
Proof.
  unfold from_food_portion.
  apply except_KeyError_raises; [|apply raises_only_Ok].
  do 6 (apply raises_only_bind; [apply subscript_raises|intros ? _]).
  apply raises_only_bind.
  { destruct (unit_ml_lookup_cases a0) as [[r ->] | ->];
      [apply raises_only_Ok|apply raises_only_Raise; by right]. }
  intros [ml|] _; [|apply raises_only_Ok].
  destruct (is_None a1); [apply raises_only_Ok|].
  apply raises_only_bind; [apply gt_zero_raises|]. intros b1 _.
  destruct (negb b1); [apply raises_only_Ok|].
  destruct (is_None a4); [apply raises_only_Ok|].
  apply raises_only_bind; [apply gt_zero_raises|]. intros b2 _.
  destruct (negb b2); [apply raises_only_Ok|].
  destruct (as_number a1), (as_number a4);
    (apply raises_only_Ok || (apply raises_only_Raise; by right)).
Qed.

Lemma VolumeWeight_gt_raises (a b : VolumeWeight) :
  raises_only is_TypeError (VolumeWeight_gt a b).
Proof.
  unfold VolumeWeight_gt.
  repeat (destruct (negb _); [first [apply raises_only_Ok | apply py_lt_raises]|]).
  apply raises_only_Ok.
Qed.

Lemma max_loop_raises {A : Type} (gt : A → A → result bool) (E : exn → Prop)
    (l : list A) (x : A) :
  (∀ a b, raises_only E (gt a b)) → raises_only E (max_loop gt l x).
Proof.
  intros Hgt. revert x. induction l as [|y l IH]; intros x; simpl.
  - apply raises_only_Ok.
  - apply raises_only_bind; [apply Hgt|]. intros b _. apply IH.
Qed.

Lemma resolve_portion_raises (food_data : json) :
  raises_only is_TypeError (resolve_portion food_data).
Proof.
  assert (Hsel : raises_only (fun e => e = KeyError ∨ e = TypeError ∨ e = ValueError)
                   (select_portion food_data)).
  { unfold select_portion.
    apply raises_only_bind.
    { eapply raises_only_impl; [|apply subscript_raises]. intros e [-> | ->]; auto. }
    intros fp _. apply raises_only_bind.
    { eapply raises_only_impl; [|apply py_iter_raises]. intros e ->; auto. }
    intros l _. apply raises_only_bind.
    { eapply raises_only_impl; [|apply raises_only_map_result, from_food_portion_raises].
      intros e ->; auto. }
    intros vws _. unfold py_max. destruct (omap id vws) as [|x cands].
    - apply raises_only_Raise. auto.
    - eapply raises_only_impl; [|apply max_loop_raises, VolumeWeight_gt_raises].
      intros e ->; auto. }
  intros e. unfold resolve_portion.
  destruct (select_portion food_data) as [c|e0]; [done|].
  destruct (Hsel e0 eq_refl) as [-> | [-> | ->]]; try done.
  by intros [= <-].
Qed.

Lemma Food_init_raises (src : string) (food_data : json) :
  raises_only is_KeyError_or_TypeError (Food_init src food_data).
Proof.
  unfold Food_init.
  do 2 (apply raises_only_bind; [apply subscript_raises|intros ? _]).
  apply raises_only_bind; [apply TypeError_weaken, resolve_portion_raises|].
  intros [w v] _.
  apply raises_only_bind; [apply subscript_raises|intros ? _].
  apply raises_only_bind; [apply TypeError_weaken, from_food_nutrients_raises|].
  intros m _. apply raises_only_Ok.
Qed.

(** X15.  [Food.__init__] never lets [ValueError], [StopIteration] or
    [IndexError] escape, and its portion resolution never [KeyError]: the
    [ValueError] of [max] over no candidate and every [KeyError] inside a
    portion record or for a missing [foodPortions] key are handled.  On
    a record whose numbers are in range only [KeyError] and [TypeError]
    escape, and the portion resolution on its own raises nothing but
    [TypeError]. *)
Theorem Food_init_only_KeyError_TypeError (src : string) (food_data : json) :
  (∀ e, in_range food_data →
        Food_init src food_data = Raise e → e = KeyError ∨ e = TypeError)
  ∧ (∀ e, in_range food_data → resolve_portion food_data = Raise e → e = TypeError)
  ∧ (∀ e, e = ValueError ∨ e = StopIteration ∨ e = IndexError →
          Food_init src food_data ≠ Raise e)
  ∧ resolve_portion food_data ≠ Raise KeyError.
Proof.
  pose proof (Food_init_raises src food_data) as H1.
  pose proof (resolve_portion_raises food_data) as H2.
  split; [intros e _; apply H1|]. split; [intros e _; apply H2|]. split.
  - intros e He Hraise. destruct (H1 _ Hraise) as [-> | ->];
      by destruct He as [? | [? | ?]].
  - intros Hraise. by pose proof (H2 _ Hraise).
Qed.

Lemma Food_init_only_KeyError_TypeError_witness :
  let d := JObj [("fdcId", JNum 7); ("description", JStr "Bread");
                 ("foodPortions", JArr [JNull])] in
  in_range d
  ∧ Food_init "Foundation" d = Raise TypeError
  ∧ resolve_portion d = Raise TypeError
  ∧ (TypeError = KeyError ∨ TypeError = TypeError) ∧ TypeError = TypeError.
Proof.
  intros d.
  assert (Hr : in_range d) by (simpl; repeat split; by vm_compute).
  assert (H1 : Food_init "Foundation" d = Raise TypeError) by reflexivity.
  assert (H2 : resolve_portion d = Raise TypeError) by reflexivity.
  split; [exact Hr|]. split; [exact H1|]. split; [exact H2|]. split.
  - exact (proj1 (Food_init_only_KeyError_TypeError "Foundation" d) TypeError Hr H1).
  - exact (proj1 (proj2 (Food_init_only_KeyError_TypeError "Foundation" d))
             TypeError Hr H2).
Defined.

Lemma py_sort_raises {A : Type} (lt : A → A → result bool) (E : exn → Prop)
    (l : list A) :
  (∀ a b, raises_only E (lt a b)) → raises_only E (py_sort lt l).
Proof.
  intros Hlt.
  assert (Hins : ∀ x r, raises_only E (insert_sorted lt x r)).
  { intros x r. induction r as [|y r IH]; simpl; [apply raises_only_Ok|].
    apply raises_only_bind; [apply Hlt|]. intros [] _; [|apply raises_only_Ok].
    apply raises_only_bind; [apply IH|]. intros; apply raises_only_Ok. }
  induction l as [|x l IH]; simpl; [apply raises_only_Ok|].
  apply raises_only_bind; [apply IH|]. intros r _. apply Hins.
Qed.

Lemma extend_foods_raises_only (all_food_data : json) (key label : string)
    (foods : list Food) :
  raises_only is_KeyError_or_TypeError (extend_foods all_food_data key label foods).
Proof.
  unfold extend_foods. apply raises_only_bind.
  { unfold py_in. destruct all_food_data;
      (apply raises_only_Ok || (apply raises_only_Raise; by right)). }
  intros [] _; [|apply raises_only_Ok].
  apply raises_only_bind; [apply subscript_raises|intros ? _].
  apply raises_only_bind; [apply TypeError_weaken, py_iter_raises|intros ? _].
  apply raises_only_bind; [apply raises_only_map_result, Food_init_raises|].
  intros; apply raises_only_Ok.
Qed.

Lemma build_dataset_raises (all_food_data : json) :
  raises_only is_KeyError_or_TypeError (build_dataset all_food_data).
Proof.
  unfold build_dataset.
  do 2 (apply raises_only_bind; [apply extend_foods_raises_only|intros ? _]).
  apply TypeError_weaken, py_sort_raises. intros a1 b. apply py_lt_raises.
Qed.

(** X16.  The run from the parsed document to the sorted foods never
    ends with [ValueError], [StopIteration] or [IndexError]; on a document
    whose numbers are in range it ends with the foods or with [KeyError]
    or [TypeError], and with nothing else: a missing collection is no
    error, and the sort raises only when two names cannot be compared. *)
Theorem build_dataset_only_KeyError_TypeError (all_food_data : json) :
  (∀ e, in_range all_food_data →
        build_dataset all_food_data = Raise e → e = KeyError ∨ e = TypeError)
  ∧ (∀ e, e = ValueError ∨ e = StopIteration ∨ e = IndexError →
          build_dataset all_food_data ≠ Raise e).
Proof.
  pose proof (build_dataset_raises all_food_data) as H.
  split; [intros e _; apply H|].
  intros e He Hraise. destruct (H _ Hraise) as [-> | ->];
    by destruct He as [? | [? | ?]].
Qed.

Lemma build_dataset_only_KeyError_TypeError_witness :
  let d := JObj [("FoundationFoods", JArr [JObj [("fdcId", JNum 7)]])] in
  in_range d ∧ build_dataset d = Raise KeyError
  ∧ (KeyError = KeyError ∨ KeyError = TypeError).
Proof.
  intros d.
  assert (Hr : in_range d) by (simpl; repeat split; by vm_compute).
  assert (H : build_dataset d = Raise KeyError) by reflexivity.
  split; [exact Hr|]. split; [exact H|].
  exact (proj1 (build_dataset_only_KeyError_TypeError d) KeyError Hr H).
Defined.

(** ** The smallest tuple *)

Section heap_order_by.
Context {A : Type} (lt : A → A → result bool) (P : A → Prop) (le : A → A → Prop).
Hypothesis lt_true : ∀ x y, P x → P y → lt x y = Ok true → le x y.
Hypothesis lt_false : ∀ x y, P x → P y → lt x y = Ok false → le y x.
Hypothesis le_refl : ∀ x, P x → le x x.
Hypothesis le_trans : ∀ x y z, le x y → le y z → le x z.

Lemma root_least (h : list A) (r : A) :
  Forall P h → heap_ordered_by le h → h !! 0 = Some r →
  ∀ i x, h !! i = Some x → le r x.
Proof.
  intros HP Hord Hr i. induction (lt_wf i) as [i _ IH]. intros x Hx.
  destruct (decide (i = 0)) as [->|Hi].
  { rewrite Hr in Hx. injection Hx as <-. apply le_refl.
    by eapply Forall_lookup_1. }
  assert (Hp : (i - 1) / 2 < i) by (apply parent_lt; lia).
  destruct (lookup_lt_is_Some_2 h ((i - 1) / 2)) as [y Hy].
  { apply lookup_lt_Some in Hx. lia. }
  eapply le_trans; [by apply (IH _ Hp y)|].
  apply (Hord i x y); [lia|done..].
Qed.

Lemma hole_filled (h : list A) (pos : nat) (newitem : A) :
  pos < length h → hole_ordered_by le h pos newitem →
  (0 < pos → ∀ y, h !! ((pos - 1) / 2) = Some y → le y newitem) →
  heap_ordered_by le (<[pos := newitem]> h).
Proof.
  intros Hlen [Ha Hb] Hparent i x y Hi Hx Hy.
  destruct (decide (i = pos)) as [->|Hne].
  - rewrite list_lookup_insert_eq in Hx by done. injection Hx as <-.
    pose proof (parent_lt pos Hi).
    rewrite list_lookup_insert_ne in Hy by lia. by apply Hparent.
  - rewrite list_lookup_insert_ne in Hx by done.
    destruct (decide ((i - 1) / 2 = pos)) as [Hc|Hc].
    + rewrite Hc, list_lookup_insert_eq in Hy by done. injection Hy as <-.
      by destruct (Hb i x) as [? _].
    + rewrite list_lookup_insert_ne in Hy by done. by apply (Ha i x y).
Qed.

Lemma siftdown_loop_ordered_by n h pos newitem h' :
  Forall P h → P newitem →
  pos ≤ n → pos < length h → hole_ordered_by le h pos newitem →
  siftdown_loop lt n h 0 pos newitem = Ok h' →
  heap_ordered_by le h'.
Proof.
  intros HP Hnew. revert h pos HP.
  induction n as [|n IH]; intros h pos HP Hn Hlen Hhole; cbn [siftdown_loop].
  - intros [= <-]. apply hole_filled; [done..|lia].
  - destruct (decide (0 < pos)) as [Hpos|Hpos].
    2: { intros [= <-]. apply hole_filled; [done..|lia]. }
    intros H. inv_bind H. inv_bind H. rename a into parent, a0 into b.
    apply getitem_Ok in Ha.
    assert (Hparent : P parent) by (by eapply Forall_lookup_1).
    pose proof (parent_lt pos Hpos) as Hpp.
    pose proof (parent_le ((pos - 1) / 2)) as Hgp.
    destruct b.
    2: { apply lt_false in Ha0; [|done..]. injection H as <-.
         apply hole_filled; [done..|]. intros _ y Hy.
         rewrite Ha in Hy. by injection Hy as <-. }
    apply lt_true in Ha0; [|done..].
    destruct Hhole as [Hha Hhb].
    apply IH in H; [done|by apply Forall_insert|lia|rewrite length_insert; lia|].
    split.
    + intros i x y Hi Hne1 Hne2 Hx Hy.
      assert (i ≠ pos) by (intros ->; done).
      rewrite list_lookup_insert_ne in Hx by done.
      destruct (decide ((i - 1) / 2 = pos)) as [Hc|Hc].
      * rewrite Hc, list_lookup_insert_eq in Hy by done. injection Hy as <-.
        destruct (Hhb i x Hi Hc Hx) as [_ Hg]. by apply Hg.
      * rewrite list_lookup_insert_ne in Hy by done. by apply (Hha i x y).
    + intros i x Hi Hc Hx.
      destruct (decide (i = pos)) as [->|Hne].
      * rewrite list_lookup_insert_eq in Hx by done. injection Hx as <-.
        split; [done|]. intros y Hpp0 Hy.
        rewrite list_lookup_insert_ne in Hy by lia.
        apply (Hha ((pos - 1) / 2) parent y); [done|lia|lia|done|done].
      * rewrite list_lookup_insert_ne in Hx by done.
        assert (Hpx : le parent x).
        { apply (Hha i x parent); [done|done|lia|done|by rewrite Hc]. }
        split; [by eapply le_trans|]. intros y Hpp0 Hy.
        rewrite list_lookup_insert_ne in Hy by lia.
        eapply le_trans; [|exact Hpx].
        apply (Hha ((pos - 1) / 2) parent y); [done|lia|lia|done|done].
Qed.

Lemma heappush_ordered_by (h : list A) (x : A) (h' : list A) :
  Forall P h → P x →
  heap_ordered_by le h → heappush lt h x = Ok h' → heap_ordered_by le h'.
Proof.
  intros HP Hx Hord H. unfold heappush, siftdown in H. inv_bind H.
  rewrite length_app in Ha, H. simpl in Ha, H.
  replace (length h + 1 - 1) with (length h) in Ha, H by lia.
  apply getitem_Ok in Ha. rewrite lookup_app_r, Nat.sub_diag in Ha by done.
  injection Ha as <-.
  eapply siftdown_loop_ordered_by; [| | | | |exact H]; [|done|done| |].
  { apply Forall_app. split; [done|]. by constructor. }
  { rewrite length_app. simpl. lia. }
  split.
  - intros i y z Hi Hne1 Hne2 Hy Hz.
    assert (i < length h).
    { apply lookup_lt_Some in Hy. rewrite length_app in Hy. simpl in Hy. lia. }
    pose proof (parent_lt i Hi).
    rewrite lookup_app_l in Hy, Hz by lia.
    by apply (Hord i y z).
  - intros i y Hi Hc Hy. exfalso.
    apply lookup_lt_Some in Hy. rewrite length_app in Hy. simpl in Hy.
    pose proof (parent_lt i Hi). lia.
Qed.
End heap_order_by.

Lemma item_lt_true_le (x y : item) :
  numeric_item x → numeric_item y → item_lt x y = Ok true → item_le x y.
Proof.
  destruct x as [p a], y as [p' b]. intros [q Hq] [q' Hq']. simpl in *. subst.
  unfold item_lt, item_le. simpl.
  destruct (Nat.eqb_spec p p') as [->|Hne]; simpl.
  - destruct (Qeq_bool q q'); simpl; [done|].
    intros [= H]. apply Qlt_bool_true in H.
    right. split; [done|]. exists q, q'. repeat split; [done..|]. by apply Qlt_le_weak.
  - intros [= H]. apply Nat.ltb_lt in H. by left.
Qed.

Lemma item_lt_false_le (x y : item) :
  numeric_item x → numeric_item y → item_lt x y = Ok false → item_le y x.
Proof.
  destruct x as [p a], y as [p' b]. intros [q Hq] [q' Hq']. simpl in *. subst.
  unfold item_lt, item_le. simpl.
  destruct (Nat.eqb_spec p p') as [->|Hne]; simpl.
  - intros H. right. split; [done|]. exists q', q. repeat split; [done..|].
    destruct (Qeq_bool q q') eqn:E; simpl in H.
    + apply Qeq_bool_iff in E. rewrite E. apply Qle_refl.
    + injection H as H. by apply Qlt_bool_false in H.
  - intros [= H]. apply Nat.ltb_ge in H. left. lia.
Qed.

Lemma item_le_refl (x : item) : numeric_item x → item_le x x.
Proof.
  intros [q Hq]. right. split; [done|]. exists q, q. repeat split; [done..|].
  apply Qle_refl.
Qed.

Lemma item_le_trans (x y z : item) : item_le x y → item_le y z → item_le x z.
Proof.
  intros [H1 | (H1 & p & q & Hp & Hq & Hpq)] [H2 | (H2 & q' & r & Hq' & Hr & Hqr)].
  - left. lia.
  - left. lia.
  - left. lia.
  - right. split; [lia|]. rewrite Hq in Hq'. injection Hq' as <-.
    exists p, r. repeat split; [done..|]. by eapply Qle_trans.
Qed.

Lemma push_loop_ordered_by (l : list json) (h0 h : heaps) :
  for_each push_food_nutrient l h0 = Ok h →
  (∀ e, e ∈ l → ∀ c x, measured e = Ok (Some (c, x)) → numeric_item x) →
  (∀ c, Forall numeric_item (h0 c) ∧ heap_ordered_by item_le (h0 c)) →
  ∀ c, Forall numeric_item (h c) ∧ heap_ordered_by item_le (h c).
Proof.
  revert h0. induction l as [|e l IH]; intros h0 H Hnum Hinv; simpl in H.
  - by injection H as <-.
  - inv_bind H. rename a into h1.
    apply (IH h1 H); [intros e' He'; apply Hnum; by right|].
    rewrite push_food_nutrient_measured in Ha. inv_bind Ha.
    destruct a as [[c0 x0]|]; [|by injection Ha as <-].
    assert (Hx0 : numeric_item x0) by (eapply (Hnum e); [by left|done]).
    unfold heaps_push in Ha. inv_bind Ha. injection Ha as <-.
    intros c. destruct (decide (c = c0)) as [->|Hne].
    + rewrite heaps_set_eq. destruct (Hinv c0) as [HP Hord]. split.
      * by eapply heappush_Forall.
      * eapply (heappush_ordered_by item_lt numeric_item item_le);
          [apply item_lt_true_le|apply item_lt_false_le|apply item_le_trans
          |exact HP|exact Hx0|exact Hord|exact Ha1].
    + rewrite heaps_set_ne by done. apply Hinv.
Qed.

Lemma heap_ordered_by_singleton (x : item) : heap_ordered_by item_le [x].
Proof.
  intros i y z Hi Hy _. apply lookup_lt_Some in Hy. simpl in Hy. lia.
Qed.

(** The value popped for a category comes with a tuple that is below
    every tuple of the heap. *)
Lemma pop_amount_least (l : list json) (h : heaps) (c : NutrientCategory) (v : json) :
  (∀ e, e ∈ l → ∀ c x, measured e = Ok (Some (c, x)) → numeric_item x) →
  fill_heaps (JArr l) = Ok h → pop_amount h c = Ok v →
  ∃ p, (p, v) ∈ h c ∧ ∀ x, x ∈ h c → item_le (p, v) x.
Proof.
  intros Hnum Hh Hpop.
  assert (Hinv : Forall numeric_item (h c) ∧ heap_ordered_by item_le (h c)).
  { unfold fill_heaps in Hh. destruct seed_heaps as (h0 & Hseed & Hh0).
    rewrite Hseed in Hh. simpl in Hh.
    apply (push_loop_ordered_by l h0 h Hh Hnum).
    intros c'. rewrite Hh0. split.
    - constructor; [by exists 0%Q|constructor].
    - apply heap_ordered_by_singleton. }
  destruct Hinv as [HP Hord].
  apply pop_amount_root in Hpop as ([p v0] & Hroot & ->). simpl.
  exists p. split; [apply list_elem_of_lookup; by exists 0|].
  intros x Hx. apply list_elem_of_lookup in Hx as [i Hi].
  by apply (root_least numeric_item item_le item_le_refl item_le_trans
              (h c) (p, v0) HP Hord Hroot i x).
Qed.

Lemma regular_measurements_numeric (l : list json) :
  Forall regular_measurement l →
  ∀ e, e ∈ l → ∀ c x, measured e = Ok (Some (c, x)) → numeric_item x.
Proof.
  intros Hl e He c x Hme.
  destruct (regular_measurement_measured e) as (r & Hr & Hnum).
  { by apply (proj1 (Forall_forall _ _) Hl). }
  rewrite Hr in Hme. injection Hme as ->. by eapply Hnum.
Qed.

Lemma selection_least (l : list json) (s : Selected) (c : NutrientCategory) :
  Forall regular_measurement l → selection (JArr l) = Ok s →
  ∃ p q, selected_of c s = JNum q
    ∧ ((p, JNum q) = sentinel
       ∨ ∃ e, e ∈ l ∧ measured e = Ok (Some (c, (p, JNum q))))
    ∧ (p ≤ 10 ∧ (p = 10 → (q <= 0)%Q))
    ∧ ∀ e p' q', e ∈ l → measured e = Ok (Some (c, (p', JNum q'))) →
        p < p' ∨ (p = p' ∧ (q <= q')%Q).
Proof.
  intros Hl Hs. apply selection_Ok in Hs as (h & Hh & Hs).
  assert (Hpop : pop_amount h c = Ok (selected_of c s)).
  { apply select_Ok in Hs as (? & ? & ? & ? & ? & ?). by destruct c. }
  pose proof (regular_measurements_numeric l Hl) as Hnum.
  destruct (pop_amount_least l h c _ Hnum Hh Hpop) as (p & Hin & Hleast).
  destruct (fill_heaps_spec l h Hh c) as [_ Hmem].
  assert (Hq : ∃ q, selected_of c s = JNum q).
  { apply Hmem in Hin as [Hsen | (e & He & Hme)].
    - injection Hsen as _ ->. by eexists.
    - destruct (Hnum e He c _ Hme) as [q Hq]. by exists q. }
  destruct Hq as [q Hq]. rewrite Hq in *.
  exists p, q. split; [done|]. split; [by apply Hmem|]. split.
  - destruct (Hleast sentinel) as [H | (H & p1 & q1 & Hp1 & Hq1 & Hle)];
      [apply Hmem; by left|simpl in *; lia|].
    simpl in *. split; [lia|]. intros _.
    injection Hp1 as <-. by injection Hq1 as <-.
  - intros e p' q' He Hme.
    destruct (Hleast (p', JNum q')) as [H | (H & p1 & q1 & Hp1 & Hq1 & Hle)];
      [apply Hmem; right; by exists e|by left|].
    simpl in *. right. split; [done|].
    injection Hp1 as <-. by injection Hq1 as <-.
Qed.

(** X17.  Ties are decided by the amount: for a list of regular
    measurements whose numbers are in range, the value selected for a
    category is the amount of a measurement of that category (or 0.0,
    the sentinel), no measurement of the category has a lower priority
    number, and among those with the same priority number none has a
    smaller amount. *)
Theorem selection_smallest_tuple
    (l : list json) (s : Selected) (c : NutrientCategory) :
  Forall regular_measurement l → in_range (JArr l) → selection (JArr l) = Ok s →
  ∃ p q, selected_of c s = JNum q
    ∧ ((p = 10 ∧ (q == 0)%Q ∧ selected_of c s = JNum 0)
       ∨ ∃ e num md, e ∈ l ∧ reports e num (JNum q)
           ∧ assoc num _NUTRIENT_NUM_METADATA_MAP = Some md
           ∧ category md = c ∧ priority md = p)
    ∧ ∀ e num md q', e ∈ l → reports e num (JNum q') →
        assoc num _NUTRIENT_NUM_METADATA_MAP = Some md → category md = c →
        p < priority md ∨ (p = priority md ∧ (q <= q')%Q).
Proof.
  intros Hl _ Hs.
  destruct (selection_least l s c Hl Hs) as (p & q & Hq & Hfrom & _ & Hleast).
  exists p, q. split; [done|]. split.
  - destruct Hfrom as [[= -> ->] | (e & He & Hme)]; [left; by rewrite Hq|right].
    apply measured_Some in Hme as (num & md & Hr & Hmd & -> & ->).
    by exists e, num, md.
  - intros e num md q' He Hr Hmd <-.
    apply (Hleast e (priority md) q' He).
    apply measured_Some. by exists num, md.
Qed.

Lemma selection_smallest_tuple_witness :
  let l := [measurement "208" 60; measurement "957" 10; measurement "208" 50] in
  let s := mkSelected (JNum 50) (JNum 0) (JNum 0) (JNum 0) (JNum 0) (JNum 0) in
  selection (JArr l) = Ok s
  ∧ ∃ p q, selected_of CALORIES s = JNum q
      ∧ ((p = 10 ∧ (q == 0)%Q ∧ selected_of CALORIES s = JNum 0)
         ∨ ∃ e num md, e ∈ l ∧ reports e num (JNum q)
             ∧ assoc num _NUTRIENT_NUM_METADATA_MAP = Some md
             ∧ category md = CALORIES ∧ priority md = p)
      ∧ ∀ e num md q', e ∈ l → reports e num (JNum q') →
          assoc num _NUTRIENT_NUM_METADATA_MAP = Some md → category md = CALORIES →
          p < priority md ∨ (p = priority md ∧ (q <= q')%Q).
Proof.
  intros l s.
  assert (Hs : selection (JArr l) = Ok s) by reflexivity.
  split; [exact Hs|].
  apply (selection_smallest_tuple l s CALORIES); [| |exact Hs].
  - repeat apply Forall_cons_2; [| | |apply Forall_nil_2];
      left; do 2 eexists; eexists; repeat split; reflexivity.
  - simpl. repeat split; by vm_compute.
Defined.

Lemma Qeq_bool_comp (x y z : Q) : (x == y)%Q → Qeq_bool x z = Qeq_bool y z.
Proof.
  intros H. destruct (Qeq_bool x z) eqn:E1, (Qeq_bool y z) eqn:E2; try done.
  - apply Qeq_bool_iff in E1. apply Qeq_bool_neq in E2. rewrite <- H in E2. done.
  - apply Qeq_bool_iff in E2. apply Qeq_bool_neq in E1. rewrite H in E1. done.
Qed.

Lemma finish_comp (s s' : Selected) :
  (∀ c, ∃ q q', selected_of c s = JNum q ∧ selected_of c s' = JNum q' ∧ (q == q')%Q) →
  finish s = finish s'.
Proof.
  intros H. destruct s as [v1 v2 v3 v4 v5 v6], s' as [w1 w2 w3 w4 w5 w6].
  destruct (H CALORIES) as (q1 & r1 & ? & ? & E1), (H FAT) as (q2 & r2 & ? & ? & E2),
    (H CARBS) as (q3 & r3 & ? & ? & E3), (H FIBER) as (q4 & r4 & ? & ? & E4),
    (H SUGARS) as (q5 & r5 & ? & ? & E5), (H PROTEIN) as (q6 & r6 & ? & ? & E6).
  simpl in *. subst. unfold finish. simpl.
  rewrite (Qeq_bool_comp q1 r1 0 E1).
  rewrite (round1_comp q2 r2 E2), (round1_comp q3 r3 E3), (round1_comp q4 r4 E4),
    (round1_comp q5 r5 E5), (round1_comp q6 r6 E6).
  destruct (Qeq_bool r1 0); simpl.
  - rewrite (round1_comp (q6 * 4 + q3 * 4 + q2 * 9) (r6 * 4 + r3 * 4 + r2 * 9)); [done|].
    by rewrite E2, E3, E6.
  - by rewrite (round1_comp q1 r1 E1).
Qed.

(** X18.  The resolution does not depend on the order of the
    measurements: two lists of regular measurements whose numbers are in
    range and that are rearrangements of one another resolve, and to the
    same Macros value, also when several measurements of a category
    have the same priority number, provided their amounts differ.  (Of
    two measurements with the same category, priority number and amount
    either may be selected, and Python then computes with an [int] or
    with a [float] according to the one selected.) *)
Theorem from_food_nutrients_order_independent (l l' : list json) :
  Permutation l l' → Forall regular_measurement l → in_range (JArr l) →
  (∀ i j e e' c p q q',
     i ≠ j → l !! i = Some e → l !! j = Some e' →
     measured e = Ok (Some (c, (p, JNum q))) →
     measured e' = Ok (Some (c, (p, JNum q'))) → ¬ (q == q')%Q) →
  ∃ m, from_food_nutrients (JArr l) = Ok m ∧ from_food_nutrients (JArr l') = Ok m.
Proof.
  intros Hperm Hl _ _.
  assert (Hl' : Forall regular_measurement l') by (by rewrite <- Hperm).
  destruct (from_food_nutrients_regular l Hl) as [m Hm].
  destruct (from_food_nutrients_regular l' Hl') as [m' Hm'].
  exists m. split; [done|]. rewrite Hm'.
  rewrite from_food_nutrients_selection in Hm, Hm'.
  inv_bind Hm. inv_bind Hm'. rename a into s, a0 into s'.
  rewrite <- Hm, <- Hm'. symmetry. apply finish_comp. intros c.
  destruct (selection_least l s c Hl Ha) as (p & q & Hq & Hfrom & Hcap & Hleast).
  destruct (selection_least l' s' c Hl' Ha0) as (p' & q' & Hq' & Hfrom' & Hcap' & Hleast').
  exists q, q'. split; [done|]. split; [done|].
  assert (HA : p < p' ∨ (p = p' ∧ (q <= q')%Q)).
  { destruct Hfrom' as [[= -> ->] | (e & He & Hme)].
    - destruct Hcap as [Hp Hp10].
      destruct (decide (p = 10)) as [->|]; [right; split; [done|by apply Hp10]|left; lia].
    - rewrite <- Hperm in He. by apply (Hleast e). }
  assert (HB : p' < p ∨ (p' = p ∧ (q' <= q)%Q)).
  { destruct Hfrom as [[= -> ->] | (e & He & Hme)].
    - destruct Hcap' as [Hp Hp10].
      destruct (decide (p' = 10)) as [->|]; [right; split; [done|by apply Hp10]|left; lia].
    - rewrite Hperm in He. by apply (Hleast' e). }
  destruct HA as [? | [? Hle]], HB as [? | [? Hle']]; try lia.
  by apply Qle_antisym.
Qed.

Lemma from_food_nutrients_order_independent_witness :
  ∃ m, from_food_nutrients (JArr [measurement "208" 60; measurement "208" 50]) = Ok m
    ∧ from_food_nutrients (JArr [measurement "208" 50; measurement "208" 60]) = Ok m.
Proof.
  apply from_food_nutrients_order_independent.
  - apply perm_swap.
  - repeat apply Forall_cons_2; [| |apply Forall_nil_2];
      left; do 2 eexists; eexists; repeat split; reflexivity.
  - simpl. repeat split; by vm_compute.
  - intros [|[|i]] [|[|j]] e e' c p q q' Hij He He' Hm Hm'; try done;
      injection He as <-; injection He' as <-;
      vm_compute in Hm, Hm'; simplify_eq; by vm_compute.
Defined.

Lemma from_food_portion_Some_witness :
  from_food_portion cup_portion
  = Ok (Some {| volume := (2365875 # 10000) * 1; weight := 120; quantity := 1;
                descriptor := JStr "cup" |}).
Proof.
  apply (proj2 (from_food_portion_Some cup_portion)
           (JNum 1000) (JNum 1) (JStr "cup") (JNum 120) (2365875 # 10000)%Q 1%Q 120%Q);
    try reflexivity; try (by vm_compute).
  do 2 eexists; repeat split; reflexivity.
Defined.
